(** * dScaff contig indexing: a shallow embedding of [contigs_indexing.py]

    The development follows the Python module function by function.
    Python values are modelled as follows.

    - [str] is [string], a sequence of characters below 256; a 13-field
      record (a [list] from [csv.reader] or the [tuple] built from it) is
      a [list string].
    - A call either returns or raises: [pyresult A] is [Ok a] or [Raise e].
      [except_ValueError] is [try/except ValueError].  The text of the
      messages that the interpreter makes up is approximate, the text of
      the messages of the module is exact.
    - [float] is an interface, [PyFloat]: the comparisons, the product, the
      division by [10.0], [float(s)], [str(x)], [nan] and [inf].  The
      order laws of IEEE 754 comparisons that some proofs rely on are a
      separate class, [PyFloatLaws].  The instance [Dec] runs the examples.
    - [dict] is [gmap] where order is immaterial and an association list
      where the iteration order is observable; [set] is [gset].
    - [print] and the writing of a file append an event to a trace that is
      returned with the result ([io]).
    - A file is what its reader yields ([csv_source], [dict_source]); the
      directories are what [discover_subdirs] and [list_query_csvs] find
      ([chromosome_dir]); the number of worker processes asked for and
      the order in which the worker processes finish are arguments of
      [main].
    - [list.sort] is CPython's algorithm, so that it can be run on keys
      that [<] does not order (NaN). *)

From Stdlib Require Import ZArith QArith Ascii String List Bool Lia.
From stdpp Require Import base tactics option list gmap strings pretty sorting.

Local Open Scope string_scope.
Local Open Scope list_scope.
Local Open Scope nat_scope.

(** ** Exceptions and results *)

Inductive exn : Type :=
| ValueError (msg : string)
| IndexError (msg : string)
| KeyError (msg : string)
| TypeError (msg : string)
| OSError (msg : string).

Inductive pyresult (A : Type) : Type :=
| Ok (a : A)
| Raise (e : exn).
Arguments Ok {A} a.
Arguments Raise {A} e.

Global Instance pyresult_ret : MRet pyresult := @Ok.
Global Instance pyresult_bind : MBind pyresult :=
  λ A B f m, match m with Ok a => f a | Raise e => Raise e end.
Global Instance pyresult_fmap : FMap pyresult :=
  λ A B f m, match m with Ok a => Ok (f a) | Raise e => Raise e end.

(** [str(e)] for the exceptions above. *)
Definition exn_str (e : exn) : string :=
  match e with
  | ValueError m | IndexError m | KeyError m | TypeError m | OSError m => m
  end.

(** [try: body  except ValueError: handler] *)
Definition except_ValueError {A} (body handler : pyresult A) : pyresult A :=
  match body with
  | Raise (ValueError _) => handler
  | r => r
  end.

(** [l[i]] for a non-negative index. *)
Definition py_index {A} (l : list A) (i : nat) : pyresult A :=
  match l !! i with
  | Some x => Ok x
  | None => Raise (IndexError "list index out of range")
  end.

(** [for x in xs: s = body s x], where the body may raise. *)
Fixpoint for_each {S A} (xs : list A) (s : S) (body : S → A → pyresult S)
  : pyresult S :=
  match xs with
  | [] => Ok s
  | x :: xs' => s' ← body s x; for_each xs' s' body
  end.

(** ** Effects: printed lines and files written

    [io A] is a call with its trace: what it printed and wrote, in order,
    and how it ended.  A call that raises keeps the trace made so far. *)

Inductive event : Type :=
| Print (line : string)
| WriteFile (path : string) (rows : list (list string)).

Definition io (A : Type) : Type := pyresult A * list event.

Definition io_ret {A} (a : A) : io A := (Ok a, []).
Definition io_bind {A B} (m : io A) (f : A → io B) : io B :=
  match m with
  | (Ok a, t1) => let '(r, t2) := f a in (r, t1 ++ t2)
  | (Raise e, t1) => (Raise e, t1)
  end.
Definition lift {A} (r : pyresult A) : io A := (r, []).
Definition print (line : string) : io unit := (Ok (), [Print line]).
Definition write_file (path : string) (rows : list (list string)) : io unit :=
  (Ok (), [WriteFile path rows]).

Notation "x ←io m ; k" := (io_bind m (λ x, k))
  (at level 20, m at level 100, k at level 200, only parsing, right associativity).
Notation "m ;;io k" := (io_bind m (λ _, k))
  (at level 100, k at level 200, only parsing, right associativity).

(** [for x in xs: body x] for a body that prints or writes. *)
Fixpoint io_for_each {A} (xs : list A) (body : A → io unit) : io unit :=
  match xs with
  | [] => io_ret ()
  | x :: xs' => body x ;;io io_for_each xs' body
  end.

(** ** Strings *)

(** [c.isspace()] for a character below 256. *)
Definition py_isspace (c : ascii) : bool :=
  let n := nat_of_ascii c in
  ((9 <=? n) && (n <=? 13)) || ((28 <=? n) && (n <=? 32))
  || (n =? 133) || (n =? 160).

Fixpoint py_lstrip (s : string) : string :=
  match s with
  | String c s' => if py_isspace c then py_lstrip s' else s
  | EmptyString => EmptyString
  end.

(** [s.strip()] *)
Definition py_strip (s : string) : string :=
  String.rev (py_lstrip (String.rev (py_lstrip s))).

(** [s.split()]: the maximal runs of characters that are not whitespace. *)
Fixpoint py_split (s : string) : list string :=
  match s with
  | EmptyString => []
  | String c s' =>
      if py_isspace c then py_split s'
      else match s' with
           | EmptyString => [String c EmptyString]
           | String c' _ =>
               if py_isspace c' then String c EmptyString :: py_split s'
               else match py_split s' with
                    | w :: ws => String c w :: ws
                    | [] => [String c EmptyString]
                    end
           end
  end.

(** [s.split(sep)] for a separator of one character. *)
Fixpoint py_split_on (sep : ascii) (s : string) : list string :=
  match s with
  | EmptyString => [EmptyString]
  | String c s' =>
      if Ascii.eqb c sep then EmptyString :: py_split_on sep s'
      else match py_split_on sep s' with
           | w :: ws => String c w :: ws
           | [] => [String c EmptyString]
           end
  end.

(** [Path(p).name]: what follows the last slash. *)
Fixpoint path_name (p : string) : string :=
  match p with
  | EmptyString => EmptyString
  | String c p' =>
      if existsb (Ascii.eqb "/") (list_ascii_of_string p') then path_name p'
      else if Ascii.eqb c "/" then p' else p
  end.

(** [p / name] *)
Definition path_join (p name : string) : string := p +:+ "/" +:+ name.

(** A record of thirteen fields, or an enriched one of twenty. *)
Abbreviation row := (list string).

(** ** The float interface *)

Class PyFloat : Type := {
  float : Type;
  flt : float → float → bool;          (* a < b *)
  fle : float → float → bool;          (* a <= b *)
  fmul : float → float → float;        (* a * b *)
  fdiv_ten : float → float;            (* a / 10.0 *)
  fnan : float;                        (* float("nan") *)
  finf : float;                        (* math.inf *)
  fisnan : float → bool;               (* math.isnan *)
  py_float : string → option float;    (* float(s); None is ValueError *)
  py_str : float → string;             (* str(x) *)
}.

(** The facts about IEEE 754 comparisons that the proofs use.  [nan] is
    the only value for which [flt_cotrans] fails. *)
Class PyFloatLaws (PF : PyFloat) : Prop := {
  flt_irrefl : ∀ x, flt x x = false;
  flt_trans : ∀ x y z, flt x y = true → flt y z = true → flt x z = true;
  flt_cotrans : ∀ x y z,
    fisnan y = false → flt x z = true → flt x y = true ∨ flt y z = true;
  flt_not_ge : ∀ x y, flt x y = true → fle y x = false;
}.

Section Program.
Context {PF : PyFloat}.

(** [a >= b] *)
Definition fge (a b : float) : bool := fle b a.

(** [float(s)] as a call that may raise. *)
Definition float_of (s : string) : pyresult float :=
  match py_float s with
  | Some x => Ok x
  | None => Raise (ValueError ("could not convert string to float: " +:+ s))
  end.

(** ** Constants *)

Definition BASE_HEADER : row :=
  [ "query_name"; "subject_name"; "identity"; "length";
    "mismatch"; "gap"; "query_start"; "query_end";
    "subject_start"; "subject_end"; "E_value";
    "bit_score"; "gene_length" ].

Definition FINAL_HEADER : row :=
  [ "query_name"; "subject_name"; "identity"; "length"; "mismatch"; "gap";
    "query_start"; "query_end"; "subject_start"; "subject_end";
    "genomic_start"; "genomic_end"; "E_value"; "bit_score"; "gene_length";
    "ref_scaff"; "scaff_start"; "scaff_stop"; "orientation"; "contig_length" ].

Definition IDX_LENGTH : nat := 3.
Definition IDX_EVALUE : nat := 10.
Definition IDX_GENELEN : nat := 12.

(** ** Reading a file through [csv.reader]

    What the reader yields for one file: the records, in order, and then
    either the end of the file or an error ([open] failing is the case
    of no record and an error). *)

Record csv_source : Type := {
  src_records : list row;
  src_error : option exn;
}.

(** [for rec in r: body] over a reader. *)
Definition for_each_record {S} (src : csv_source) (s : S)
    (body : S → row → pyresult S) : pyresult S :=
  s' ← for_each (src_records src) s body;
  match src_error src with
  | Some e => Raise e
  | None => Ok s'
  end.

Definition read_tsv_13 (path : string) (src : csv_source) : pyresult (list row) :=
  for_each_record src [] (λ rows rec,
    if negb (length rec =? 13)%nat
    then Raise (ValueError (path +:+ ": expected 13 columns, got "
                                 +:+ pretty (length rec)))
    else Ok (rows ++ [rec])).

(** ** Record Filter *)

(** The inner function [pick] of [filter_one_file]. *)
Definition pick (rows : list row) (gl mult : float) : pyresult (list row) :=
  let thr := fmul gl mult in
  for_each rows [] (λ out r,
    olv ← except_ValueError
             (s ← py_index r IDX_LENGTH; lv ← float_of s; mret (Some lv))
             (mret None);
    match olv with
    | None => mret out                       (* continue *)
    | Some lv => mret (if fge lv thr then out ++ [r] else out)
    end).

(** [for m in ms: out = pick(m); if out: return out] and then [return []]. *)
Fixpoint first_tier (pick_m : float → pyresult (list row)) (ms : list float)
  : pyresult (list row) :=
  match ms with
  | [] => mret []
  | m :: ms' =>
      out ← pick_m m;
      match out with
      | [] => first_tier pick_m ms'
      | _ :: _ => mret out
      end
  end.

(** The body of the [try] block of [filter_one_file]. *)
Definition filter_try (p : string) (src : csv_source)
    (parm2 parm3 parm4 parm5 : float) : pyresult (list row) :=
  rows ← read_tsv_13 p src;
  match rows with
  | [] => mret []
  | _ :: _ =>
      ogl ← except_ValueError
               (r0 ← py_index rows 0; s ← py_index r0 IDX_GENELEN;
                gl ← float_of s; mret (Some gl))
               (mret None);
      match ogl with
      | None => mret []
      | Some gl =>
          if fle gl parm2 then mret []
          else first_tier (pick rows gl) [parm3; parm4; parm5]
      end
  end.

(** [filter_one_file]: the [try] block and its [except Exception]. *)
Definition filter_one_file (file_path : string) (src : csv_source)
    (parm2 parm3 parm4 parm5 : float) : io (list row) :=
  match filter_try file_path src parm2 parm3 parm4 parm5 with
  | Ok out => io_ret out
  | Raise e =>
      print ("[warn] " +:+ file_path +:+ ": " +:+ exn_str e) ;;io io_ret []
  end.

(** ** Parameter Loader *)

Record params : Type := {
  parm1 : float; parm2 : float; parm3 : float; parm4 : float;
  parm5 : float; parm6 : float; parm7 : float; parm8 : float;
}.

(** The inner function [third_token] of [load_parameters]. *)
Definition third_token (line : string) : pyresult string :=
  let parts := py_split line in
  if (length parts <? 3)%nat
  then Raise (ValueError ("Bad parameter line: " +:+ line))
  else py_index parts 2.

(** The inner function [special] of [load_parameters]. *)
Definition special (line : string) : pyresult float :=
  tok ← third_token line;
  let parts := py_split_on "," tok in
  if (length parts <? 2)%nat
  then Raise (ValueError ("Expected a comma in 3rd token: " +:+ line))
  else s ← py_index parts 1; x ← float_of s; mret (fdiv_ten x).

(** [lines = [ln.strip() for ln in f if ln.strip()]] *)
Definition nonblank_lines (f : list string) : list string :=
  List.filter (λ ln, negb (String.eqb ln "")) (py_strip <$> f).

(** [load_parameters], from the lines of the parameter file. *)
Definition load_parameters (f : list string) : pyresult params :=
  let lines := nonblank_lines f in
  let body := drop 1 lines in
  if (length body <? 8)%nat
  then Raise (ValueError "parameters file must have at least 8 rows after header")
  else
    p1 ← (b ← py_index body 0; t ← third_token b; float_of t);
    p2 ← (b ← py_index body 1; t ← third_token b; float_of t);
    p6 ← (b ← py_index body 5; t ← third_token b; float_of t);
    p7 ← (b ← py_index body 6; t ← third_token b; float_of t);
    p8 ← (b ← py_index body 7; t ← third_token b; float_of t);
    p3 ← (b ← py_index body 2; special b);
    p4 ← (b ← py_index body 3; special b);
    p5 ← (b ← py_index body 4; special b);
    mret {| parm1 := p1; parm2 := p2; parm3 := p3; parm4 := p4;
            parm5 := p5; parm6 := p6; parm7 := p7; parm8 := p8 |}.

(** The values as the specification words them.  The payload of a body
    line is its third token; a plain payload is parsed as a float; of a
    compound payload [<int>,<frac>] the part after the first comma is
    parsed and divided by ten. *)
Definition payload_spec (body : list string) (i : nat) : option string :=
  line ← body !! i; py_split line !! 2.

Definition plain_value_spec (body : list string) (i : nat) : option float :=
  payload_spec body i ≫= py_float.

Definition compound_value_spec (body : list string) (i : nat) : option float :=
  tok ← payload_spec body i;
  frac ← py_split_on "," tok !! 1;
  x ← py_float frac;
  Some (fdiv_ten x).

Definition has_comma (tok : string) : Prop :=
  ","%char ∈ list_ascii_of_string tok.

(** ** Contig Length Table *)

Definition load_contig_lengths (src : csv_source) : pyresult (gmap string float) :=
  for_each_record src ∅ (λ contig_len rec,
    match rec with
    | [] => mret contig_len                  (* continue *)
    | _ :: _ =>
        name ← py_index rec 0;
        val ← except_ValueError (s ← py_index rec 1; float_of s) (mret fnan);
        mret (<[name := val]> contig_len)
    end).

(** The table as the specification words it: a row of no field is
    skipped, a row of two fields or more maps its name to its length, and
    to NaN when the length does not parse; the last row of a name wins. *)
Definition contig_entry_spec (table : gmap string float) (rec : row)
  : gmap string float :=
  match rec with
  | name :: v :: _ => <[name := default fnan (py_float v)]> table
  | _ => table
  end.

Definition contig_table_spec (records : list row) : gmap string float :=
  foldl contig_entry_spec ∅ records.

(** ** Enricher / Writer *)

(** A record of [csv.DictReader]: a field of a short line is [None]. *)
Record dict_source : Type := {
  dsrc_records : list (gmap string (option string));
  dsrc_error : option exn;
}.

(** [rec.get(k)] *)
Definition dict_get (rec : gmap string (option string)) (k : string)
  : option string := default None (rec !! k).

(** [rec.get(k, d)] *)
Definition dict_get_default (rec : gmap string (option string)) (k d : string)
  : option string := default (Some d) (rec !! k).

(** [a or b] on values that are a string or [None]. *)
Definition py_or (a b : option string) : option string :=
  match a with
  | Some (String _ _) => a
  | _ => b
  end.

(** [float(v)] for a value that is a string or [None]. *)
Definition float_of_value (v : option string) : pyresult float :=
  match v with
  | Some s => float_of s
  | None => Raise (TypeError
      "float() argument must be a string or a real number, not 'NoneType'")
  end.

(** [str(v)] for a value that is a string or [None]. *)
Definition str_of_value (v : option string) : string :=
  match v with
  | Some s => s
  | None => "None"
  end.

(** The loop that fills [genes]. *)
Definition load_genes (src : dict_source)
  : pyresult (gmap string (float * float * option string)) :=
  genes ← for_each (dsrc_records src) ∅ (λ genes rec,
    let fid := py_or (py_or (dict_get rec "full_id") (dict_get rec "fullid"))
                     (dict_get rec "id") in
    match fid with
    | None | Some EmptyString => mret genes  (* continue *)
    | Some fid =>
        start ← except_ValueError
                  (float_of_value (dict_get_default rec "start" "nan"))
                  (mret fnan);
        stop ← except_ValueError
                  (float_of_value (dict_get_default rec "stop" "nan"))
                  (mret fnan);
        let scaff := dict_get_default rec "scaff" "" in
        mret (<[fid := (start, stop, scaff)]> genes)
    end);
  match dsrc_error src with
  | Some e => Raise e
  | None => Ok genes
  end.

(** Deduplication: one step of the loop over [base_rows], on the state
    [(seen, dedup)]. *)
Definition dedup_step (st : gset row * list row) (r : row)
  : gset row * list row :=
  if decide (r ∈ st.1) then st else ({[ r ]} ∪ st.1, st.2 ++ [r]).

Definition dedup_rows (base_rows : list row) : list row :=
  (foldl dedup_step (∅, []) base_rows).2.

(** Deduplication as the specification words it: every distinct row once,
    at the place where it is first seen. *)
Fixpoint first_occurrences (l : list row) : list row :=
  match l with
  | [] => []
  | r :: l' => r :: filter (λ r', r' ≠ r) (first_occurrences l')
  end.

(** [l.insert(i, x)] for a non-negative index. *)
Definition py_insert {A} (i : nat) (x : A) (l : list A) : list A :=
  take i l ++ x :: drop i l.

(** The orientation of one row. *)
Definition orientation_of (base : row) : pyresult string :=
  except_ValueError
    (s8 ← py_index base 8; subj_start ← float_of s8;
     s9 ← py_index base 9; subj_end ← float_of s9;
     mret (if flt subj_start subj_end then "plus" else "minus"))
    (mret "minus").

(** [d[k]] on a dictionary written as a literal. *)
Fixpoint dict_item (d : list (string * string)) (k : string) : pyresult string :=
  match d with
  | [] => Raise (KeyError k)
  | (k', v) :: d' => if String.eqb k' k then Ok v else dict_item d' k
  end.

(** [[f(x) for x in xs]] where [f] may raise. *)
Fixpoint list_comp {A B} (f : A → pyresult B) (xs : list A) : pyresult (list B) :=
  match xs with
  | [] => mret []
  | x :: xs' => y ← f x; ys ← list_comp f xs'; mret (y :: ys)
  end.

(** The dictionary [row_map] of the fields of [base], and the list of its
    values in the order of [FINAL_HEADER]. *)
Definition row_map_fields (base : row) : pyresult row :=
  b0 ← py_index base 0; b1 ← py_index base 1; b2 ← py_index base 2;
  b3 ← py_index base 3; b4 ← py_index base 4; b5 ← py_index base 5;
  b6 ← py_index base 6; b7 ← py_index base 7; b8 ← py_index base 8;
  b9 ← py_index base 9; b10 ← py_index base 10; b11 ← py_index base 11;
  b12 ← py_index base 12; b13 ← py_index base 13; b14 ← py_index base 14;
  b15 ← py_index base 15; b16 ← py_index base 16; b17 ← py_index base 17;
  b18 ← py_index base 18; b19 ← py_index base 19;
  let row_map :=
    [ ("query_name", b0); ("subject_name", b1); ("identity", b2);
      ("length", b3); ("mismatch", b4); ("gap", b5); ("query_start", b6);
      ("query_end", b7); ("subject_start", b8); ("subject_end", b9);
      ("genomic_start", b10); ("genomic_end", b11); ("E_value", b12);
      ("bit_score", b13); ("gene_length", b14); ("ref_scaff", b15);
      ("scaff_start", b16); ("scaff_stop", b17); ("orientation", b18);
      ("contig_length", b19) ] in
  list_comp (dict_item row_map) FINAL_HEADER.

(** The body of the loop over [dedup]: one enriched row. *)
Definition enrich_row (genes : gmap string (float * float * option string))
    (contig_len_map : gmap string float) (base : row) : pyresult row :=
  orientation ← orientation_of base;
  qname ← py_index base 0;
  let '(start, stop, scaff) := default (fnan, fnan, Some "") (genes !! qname) in
  subj ← py_index base 1;
  let clen := default fnan (contig_len_map !! subj) in
  let base := py_insert IDX_EVALUE (py_str start) base in
  let base := py_insert (IDX_EVALUE + 1) (py_str stop) base in
  let base := base ++ [str_of_value scaff; py_str start; py_str stop;
                       orientation; py_str clen] in
  row_map_fields base.

(** [l.index(x)] *)
Fixpoint list_index (x : string) (l : list string) : pyresult nat :=
  match l with
  | [] => Raise (ValueError (x +:+ " is not in list"))
  | y :: l' => if String.eqb y x then Ok 0 else S <$> list_index x l'
  end.

(** The sort key [srt] of [enrich_and_write]. *)
Definition srt (gs_idx : nat) (r : row) : pyresult float :=
  except_ValueError (s ← py_index r gs_idx; float_of s) (mret finf).

(** The tier of a multiplier as the specification words it: the rows
    whose length field parses as a float that is at least
    [gene_length * m]; a row whose length does not parse is left out. *)
Definition tier_spec (rows : list row) (gl m : float) : list row :=
  List.filter (λ r, match r !! IDX_LENGTH ≫= py_float with
                    | Some lv => fge lv (fmul gl m)
                    | None => false
                    end) rows.

(** The sort key as the specification words it: genomic_start (index 10
    of an enriched row) parsed as a float, and +infinity when it does not
    parse. *)
Definition sort_key_spec (r : row) : float :=
  match r !! 10 ≫= py_float with
  | Some k => k
  | None => finf
  end.

(** No two different rows of [rows] tie in the sort: of their keys, one
    is less than the other. *)
Definition distinct_keys (genes : gmap string (float * float * option string))
    (contig_len_map : gmap string float) (rows : list row) : Prop :=
  ∀ r1 r2 e1 e2,
    r1 ∈ rows → r2 ∈ rows → r1 ≠ r2 →
    enrich_row genes contig_len_map r1 = Ok e1 →
    enrich_row genes contig_len_map r2 = Ok e2 →
    flt (sort_key_spec e1) (sort_key_spec e2) = true
    ∨ flt (sort_key_spec e2) (sort_key_spec e1) = true.

End Program.

(** ** [list.sort]

    CPython's [list.sort] on a list of fewer than 64 elements: the run
    that starts the list is found ([count_run]), reversed when it is
    strictly descending, and the other elements are added one by one by
    binary insertion ([binarysort]).  Only [<] is used.  On longer lists
    CPython sorts chunks in this way and merges them; a stable sort has
    one possible result when [<] is a strict weak order on the keys, so
    the two agree there. *)

Section ListSort.
Context {A : Type} (lt : A → A → bool).

(** How far the run goes on after [prev], not descending. *)
Fixpoint run_ascending (prev : A) (l : list A) : nat :=
  match l with
  | [] => 0
  | x :: l' => if lt x prev then 0 else S (run_ascending x l')
  end.

(** How far the run goes on after [prev], strictly descending. *)
Fixpoint run_descending (prev : A) (l : list A) : nat :=
  match l with
  | [] => 0
  | x :: l' => if lt x prev then S (run_descending x l') else 0
  end.

(** The length of the run that starts [l], and whether it descends. *)
Definition count_run (l : list A) : nat * bool :=
  match l with
  | [] => (0, false)
  | [_] => (1, false)
  | x :: y :: l' =>
      if lt y x then (2 + run_descending y l', true)
      else (2 + run_ascending y l', false)
  end.

(** The binary search of [binarysort]: [pivot] goes to the position
    found in [a[l:r]]. *)
Fixpoint bisect (fuel : nat) (pivot : A) (a : list A) (l r : nat) : nat :=
  match fuel with
  | 0 => l
  | S fuel' =>
      if (l <? r)%nat then
        let p := (l + (r - l) / 2)%nat in
        match a !! p with
        | Some x => if lt pivot x then bisect fuel' pivot a l p
                    else bisect fuel' pivot a (p + 1)%nat r
        | None => l
        end
      else l
  end.

Definition binary_insert (sorted : list A) (pivot : A) : list A :=
  let i := bisect (length sorted) pivot sorted 0 (length sorted) in
  take i sorted ++ pivot :: drop i sorted.

Definition binarysort (run rest : list A) : list A :=
  foldl binary_insert run rest.

Definition list_sort (l : list A) : list A :=
  match l with
  | [] | [_] => l
  | _ :: _ :: _ =>
      let '(n, descending) := count_run l in
      let run := if descending then reverse (take n l) else take n l in
      binarysort run (drop n l)
  end.

(** [a] is not after [b], and neither is before the other, for [<]. *)
Definition key_le (a b : A) : Prop := lt b a = false.
Definition key_tied (a b : A) : Prop := lt a b = false ∧ lt b a = false.

End ListSort.

Section Pipeline.
Context {PF : PyFloat}.

(** [out_rows.sort(key=srt)]: the keys are computed first. *)
Definition sort_rows (gs_idx : nat) (out_rows : list row) : pyresult (list row) :=
  keys ← list_comp (srt gs_idx) out_rows;
  mret ((list_sort (λ a b, flt a.1 b.1) (zip keys out_rows)).*2).

(** What is loaded from [genes_path]: [None] when it is not a file. *)
Definition genes_of (genes_path : string) (genes_file : option dict_source)
  : io (gmap string (float * float * option string)) :=
  match genes_file with
  | Some src => lift (load_genes src)
  | None =>
      print ("[warn] " +:+ genes_path +:+ " not found; enrichment will be partial.")
      ;;io io_ret ∅
  end.

(** The rows written after the header: deduplicated, enriched, sorted. *)
Definition enrich_rows (genes : gmap string (float * float * option string))
    (contig_len_map : gmap string float) (base_rows : list row)
  : pyresult (list row) :=
  let dedup := dedup_rows base_rows in
  out_rows ← for_each dedup [] (λ out_rows base,
                r ← enrich_row genes contig_len_map base; mret (out_rows ++ [r]));
  gs_idx ← list_index "genomic_start" FINAL_HEADER;
  sort_rows gs_idx out_rows.

Definition enrich_and_write (subdir : string) (base_rows : list row)
    (contig_len_map : gmap string float)
    (genes_path : string) (genes_file : option dict_source) : io unit :=
  genes ←io genes_of genes_path genes_file;
  out_rows ←io lift (enrich_rows genes contig_len_map base_rows);
  let out_path := path_join subdir "contigs_of_interest.csv" in
  write_file out_path (FINAL_HEADER :: out_rows) ;;io
  print ("[ok] " +:+ path_name subdir +:+ ": wrote "
           +:+ pretty (length out_rows) +:+ " rows -> " +:+ out_path).

(** ** Parallel Dispatcher

    A chromosome directory as [main] sees it: its path, what
    [list_query_csvs] finds in it with what each file holds, and its
    [query_filtered.csv] when there is one. *)

Record chromosome_dir : Type := {
  sd_path : string;
  sd_queries : list (string * csv_source);
  sd_genes : option dict_source;
}.

(** [by_dir_rows[sd].extend(rows)] *)
Fixpoint extend_dir (by_dir_rows : list (chromosome_dir * list row))
    (sd : string) (rows : list row) : list (chromosome_dir * list row) :=
  match by_dir_rows with
  | [] => []
  | (d, rs) :: rest =>
      if String.eqb (sd_path d) sd then (d, rs ++ rows) :: rest
      else (d, rs) :: extend_dir rest sd rows
  end.

(** The futures, in the order of submission: the directory and the file. *)
Definition submitted (per_dir_files : list chromosome_dir)
  : list (string * (string * csv_source)) :=
  sd ← per_dir_files; (λ f, (sd_path sd, f)) <$> sd_queries sd.

(** The loop over [as_completed]: [completion] is the order in which the
    futures finish, by their position in [submitted]. *)
Fixpoint collect (p : params) (futures : list (string * (string * csv_source)))
    (completion : list nat) (by_dir_rows : list (chromosome_dir * list row))
  : io (list (chromosome_dir * list row)) :=
  match completion with
  | [] => io_ret by_dir_rows
  | i :: completion' =>
      match futures !! i with
      | None => collect p futures completion' by_dir_rows
      | Some (sd, (fp, src)) =>
          rows ←io filter_one_file fp src (parm2 p) (parm3 p) (parm4 p) (parm5 p);
          collect p futures completion'
            (match rows with
             | [] => by_dir_rows
             | _ :: _ => extend_dir by_dir_rows sd rows
             end)
      end
  end.

(** [ProcessPoolExecutor(max_workers=n)]: the executor refuses a number
    of workers that is not positive.  (On Windows it also refuses more
    than 61 workers; the model is the one of the other systems.) *)
Definition process_pool (max_workers : Z) : pyresult unit :=
  if (max_workers <=? 0)%Z
  then Raise (ValueError "max_workers must be greater than 0")
  else Ok ().

(** [main], after the command line is read: the lines of the parameter
    file, the contig length file, the directories found, the number of
    workers ([--workers], an integer), and the order in which the worker
    processes finish. *)
Definition main (params_file : list string) (contig_lengths : csv_source)
    (subdirs : list chromosome_dir) (workers : Z) (completion : list nat)
  : io unit :=
  p ←io lift (load_parameters params_file);
  contig_len_map ←io lift (load_contig_lengths contig_lengths);
  let per_dir_files :=
    List.filter (λ sd, match sd_queries sd with [] => false | _ => true end)
                subdirs in
  match per_dir_files with
  | [] => print "No queries/*.csv found under any chromosome folder."
  | _ :: _ =>
      let by_dir_rows := (λ sd, (sd, [])) <$> per_dir_files in
      lift (process_pool workers) ;;io
      by_dir_rows ←io collect p (submitted per_dir_files) completion by_dir_rows;
      io_for_each by_dir_rows (λ '(sd, rows),
        enrich_and_write (sd_path sd) rows contig_len_map
          (path_join (sd_path sd) "query_filtered.csv") (sd_genes sd))
  end.

End Pipeline.

(** ** Definitions for the proofs

    The bodies of the loops, named, and what the proofs compare the
    program with. *)

Section ProofDefinitions.
Context {PF : PyFloat}.

(** The body of the loop of [read_tsv_13]. *)
Definition tsv_body (path : string) (rows : list row) (rec : row)
  : pyresult (list row) :=
  if negb (length rec =? 13)%nat
  then Raise (ValueError (path +:+ ": expected 13 columns, got "
                               +:+ pretty (length rec)))
  else Ok (rows ++ [rec]).

(** The body of the loop of [pick]. *)
Definition pick_body (thr : float) (out : list row) (r : row)
  : pyresult (list row) :=
  olv ← except_ValueError
           (s ← py_index r IDX_LENGTH; lv ← float_of s; mret (Some lv))
           (mret None);
  match olv with
  | None => mret out
  | Some lv => mret (if fge lv thr then out ++ [r] else out)
  end.

(** A call and the value it should give: the call returns the value, or
    raises when there is none. *)
Definition returns {A} (r : pyresult A) (o : option A) : Prop :=
  match o with
  | Some x => r = Ok x
  | None => ∃ e, r = Raise e
  end.

(** The eight values together. *)
Definition values_spec (body : list string) : option params :=
  p1 ← plain_value_spec body 0; p2 ← plain_value_spec body 1;
  p3 ← compound_value_spec body 2; p4 ← compound_value_spec body 3;
  p5 ← compound_value_spec body 4; p6 ← plain_value_spec body 5;
  p7 ← plain_value_spec body 6; p8 ← plain_value_spec body 7;
  Some {| parm1 := p1; parm2 := p2; parm3 := p3; parm4 := p4;
          parm5 := p5; parm6 := p6; parm7 := p7; parm8 := p8 |}.

(** The body of the loop of [load_contig_lengths]. *)
Definition contig_body (contig_len : gmap string float) (rec : row)
  : pyresult (gmap string float) :=
  match rec with
  | [] => mret contig_len
  | _ :: _ =>
      name ← py_index rec 0;
      val ← except_ValueError (s ← py_index rec 1; float_of s) (mret fnan);
      mret (<[name := val]> contig_len)
  end.

(** The loop from a state [(seen, dedup)] on. *)
Fixpoint dedup_from (seen : gset row) (l : list row) : list row :=
  match l with
  | [] => []
  | r :: l' =>
      if decide (r ∈ seen) then dedup_from seen l'
      else r :: dedup_from ({[ r ]} ∪ seen) l'
  end.

(** The value of a call that returns, and nothing for a call that raises. *)
Definition ok_value {A B} (f : A → pyresult B) (x : A) : option B :=
  match f x with
  | Ok y => Some y
  | Raise _ => None
  end.

(** An event that is a printed line. *)
Definition is_print (ev : event) : Prop :=
  match ev with
  | Print _ => True
  | WriteFile _ _ => False
  end.

End ProofDefinitions.

(** ** More definitions for the proofs

    What the further theorems compare the program with: the lines of the
    parameter file in the order in which they are read, the record of a
    gene in the annotation file, the enriched row, the files written in
    a trace, and the rows routed to a directory. *)

Section MoreProofDefinitions.
Context {PF : PyFloat}.

(** A call that returns, or raises a [ValueError]. *)
Definition only_ValueError {A} (r : pyresult A) : Prop :=
  match r with
  | Ok _ | Raise (ValueError _) => True
  | Raise _ => False
  end.

(** The value of the body line [i] of the parameter file, the lines 2, 3
    and 4 being the compound ones, and the order in which
    [load_parameters] reads the lines. *)
Definition param_line (body : list string) (i : nat) : pyresult float :=
  b ← py_index body i;
  match i with
  | 2 | 3 | 4 => special b
  | _ => t ← third_token b; float_of t
  end.

Definition param_order : list nat := [0; 1; 5; 6; 7; 2; 3; 4].

Definition raises {A} (r : pyresult A) : bool :=
  match r with
  | Raise _ => true
  | Ok _ => false
  end.

(** The identifier of an annotation record, [rec.get("full_id") or
    rec.get("fullid") or rec.get("id")], and the body of the loop of
    [load_genes]. *)
Definition gene_id (rec : gmap string (option string)) : option string :=
  py_or (py_or (dict_get rec "full_id") (dict_get rec "fullid"))
        (dict_get rec "id").

Definition genes_body (genes : gmap string (float * float * option string))
    (rec : gmap string (option string))
  : pyresult (gmap string (float * float * option string)) :=
  match gene_id rec with
  | None | Some EmptyString => mret genes
  | Some fid =>
      start ← except_ValueError
                (float_of_value (dict_get_default rec "start" "nan"))
                (mret fnan);
      stop ← except_ValueError
                (float_of_value (dict_get_default rec "stop" "nan"))
                (mret fnan);
      let scaff := dict_get_default rec "scaff" "" in
      mret (<[fid := (start, stop, scaff)]> genes)
  end.

(** A value that counts as false: [None] or the empty string. *)
Definition falsy (v : option string) : Prop := v = None ∨ v = Some "".

(** The record is a record of the gene [fid]: [fid] is the first of its
    full_id, fullid and id that is neither missing nor empty. *)
Definition gene_id_spec (rec : gmap string (option string)) (fid : string)
  : Prop :=
  fid ≠ ""
  ∧ (dict_get rec "full_id" = Some fid
     ∨ falsy (dict_get rec "full_id")
       ∧ (dict_get rec "fullid" = Some fid
          ∨ falsy (dict_get rec "fullid") ∧ dict_get rec "id" = Some fid)).

Global Instance falsy_dec v : Decision (falsy v) :=
  ltac:(unfold falsy; apply _).

Global Instance gene_id_spec_dec rec fid : Decision (gene_id_spec rec fid) :=
  ltac:(unfold gene_id_spec; apply _).

(** The record has the column [k] and no field for it: the line is
    shorter than the header. *)
Definition field_missing (rec : gmap string (option string)) (k : string)
  : Prop := rec !! k = Some None.

(** The number in the column [k] of a record: NaN when the field does
    not parse, and what the text nan parses to when the file has no such
    column. *)
Definition gene_number_spec (rec : gmap string (option string)) (k : string)
  : float :=
  match dict_get_default rec k "nan" with
  | Some s => default fnan (py_float s)
  | None => fnan
  end.

Definition gene_entry_spec (rec : gmap string (option string))
  : float * float * option string :=
  (gene_number_spec rec "start", gene_number_spec rec "stop",
   dict_get_default rec "scaff" "").

(** One turn of the loop of [load_genes] that goes through. *)
Definition genes_step (genes : gmap string (float * float * option string))
    (rec : gmap string (option string))
  : gmap string (float * float * option string) :=
  match gene_id rec with
  | None | Some EmptyString => genes
  | Some fid => <[fid := gene_entry_spec rec]> genes
  end.

(** A record of a gene on a line too short for its start or its stop. *)
Definition short_line (rec : gmap string (option string)) : Prop :=
  (∃ fid, gene_id_spec rec fid)
  ∧ (field_missing rec "start" ∨ field_missing rec "stop").

(** The orientation of a row, and the enriched row of a row: the first
    ten fields, the start and the stop of the gene, the other fields,
    and the five fields that are added at the end. *)
Definition orientation_spec (base : row) : string :=
  match base !! 8 ≫= py_float, base !! 9 ≫= py_float with
  | Some a, Some b => if flt a b then "plus" else "minus"
  | _, _ => "minus"
  end.

Definition enriched_spec (genes : gmap string (float * float * option string))
    (contig_len_map : gmap string float) (base : row) : row :=
  let g := default (fnan, fnan, Some "") (base !! 0 ≫= (genes !!.)) in
  let clen := default fnan (base !! 1 ≫= (contig_len_map !!.)) in
  take 10 base ++ [py_str g.1.1; py_str g.1.2] ++ drop 10 base
  ++ [str_of_value g.2; py_str g.1.1; py_str g.1.2; orientation_spec base;
      py_str clen].

(** The rows written for rows of 13 fields. *)
Definition written_spec (genes : gmap string (float * float * option string))
    (contig_len_map : gmap string float) (base_rows : list row) : list row :=
  list_sort (λ r1 r2, flt (sort_key_spec r1) (sort_key_spec r2))
    (enriched_spec genes contig_len_map <$> dedup_rows base_rows).

(** The files written in a trace, in order: the path and the rows. *)
Definition writes (t : list event) : list (string * list row) :=
  omap (λ ev, match ev with
              | WriteFile path rows => Some (path, rows)
              | Print _ => None
              end) t.

(** The directories that have files, the rows that a task gives, and
    the rows that the tasks of the directory [key] give, in the order in
    which the tasks finish. *)
Definition per_dir_files (subdirs : list chromosome_dir)
  : list chromosome_dir :=
  List.filter (λ sd, match sd_queries sd with [] => false | _ => true end)
              subdirs.

Definition task_rows (p : params) (task : string * (string * csv_source))
  : list row :=
  match (filter_one_file task.2.1 task.2.2
           (parm2 p) (parm3 p) (parm4 p) (parm5 p)).1 with
  | Ok rows => rows
  | Raise _ => []
  end.

Definition routed (p : params)
    (futures : list (string * (string * csv_source)))
    (completion : list nat) (key : string) : list row :=
  i ← completion;
  match futures !! i with
  | Some task => if String.eqb key task.1 then task_rows p task else []
  | None => []
  end.

(** The output file of a directory, and the last loop of [main]. *)
Definition out_path (sd : chromosome_dir) : string :=
  path_join (sd_path sd) "contigs_of_interest.csv".

Definition write_dir (contig_len_map : gmap string float)
    (x : chromosome_dir * list row) : io unit :=
  enrich_and_write (sd_path x.1) x.2 contig_len_map
    (path_join (sd_path x.1) "query_filtered.csv") (sd_genes x.1).

(** The rows gathered for the directories when the loop over the
    finished tasks ends. *)
Definition dir_rows (p : params) (subdirs : list chromosome_dir)
    (completion : list nat) : list (chromosome_dir * list row) :=
  (λ d, (d, routed p (submitted (per_dir_files subdirs)) completion (sd_path d)))
    <$> per_dir_files subdirs.

(** The rows that the query files of a directory give, file after file. *)
Definition own_rows (p : params) (d : chromosome_dir) : list row :=
  f ← sd_queries d; task_rows p (sd_path d, f).


(** Two files written at the same path, with the header and then the
    same rows in some order. *)
Definition same_file (w w' : string * list row) : Prop :=
  w.1 = w'.1
  ∧ ∃ out out', w.2 = FINAL_HEADER :: out ∧ w'.2 = FINAL_HEADER :: out'
                ∧ out ≡ₚ out'.

End MoreProofDefinitions.

(** ** A float model to run the program: decimal numbers

    [DFin neg m e] is [(-1)^neg * m * 10^e], kept without trailing zeros
    in [m].  The program parses decimal literals, multiplies them and
    divides them by ten, all of which stay in this form.  The model is
    exact where binary64 rounds: it agrees with Python on the literals of
    at most 15 significant digits within the range of binary64, and on
    the products that binary64 holds exactly.  The theorems do not depend
    on it: they are stated for every [PyFloat]. *)

Module Dec.

Inductive dfloat : Type :=
| DNan
| DInf (neg : bool)
| DFin (neg : bool) (m : N) (e : Z).

Fixpoint strip_zeros (fuel : nat) (m : N) (e : Z) : N * Z :=
  match fuel with
  | 0 => (m, e)
  | S fuel' =>
      if (m mod 10 =? 0)%N then strip_zeros fuel' (m / 10)%N (e + 1)%Z
      else (m, e)
  end.

Definition mk (neg : bool) (m : N) (e : Z) : dfloat :=
  if (m =? 0)%N then DFin neg 0 0
  else let '(m', e') := strip_zeros (N.to_nat (N.log2 m)) m e in DFin neg m' e'.

Definition to_Q (neg : bool) (m : N) (e : Z) : Q :=
  let z := if neg then (- Z.of_N m)%Z else Z.of_N m in
  match e with
  | Z0 => z # 1
  | Zpos p => (z * 10 ^ Zpos p)%Z # 1
  | Zneg p => z # (10 ^ p)%positive
  end.

Definition dle (a b : dfloat) : bool :=
  match a, b with
  | DNan, _ | _, DNan => false
  | DInf na, DInf nb => na || negb nb
  | DInf na, DFin _ _ _ => na
  | DFin _ _ _, DInf nb => negb nb
  | DFin n1 m1 e1, DFin n2 m2 e2 => Qle_bool (to_Q n1 m1 e1) (to_Q n2 m2 e2)
  end.

Definition dlt (a b : dfloat) : bool :=
  match a, b with
  | DNan, _ | _, DNan => false
  | DInf na, DInf nb => na && negb nb
  | DInf na, DFin _ _ _ => na
  | DFin _ _ _, DInf nb => negb nb
  | DFin n1 m1 e1, DFin n2 m2 e2 =>
      negb (Qle_bool (to_Q n2 m2 e2) (to_Q n1 m1 e1))
  end.

Definition dmul (a b : dfloat) : dfloat :=
  match a, b with
  | DNan, _ | _, DNan => DNan
  | DInf na, DInf nb => DInf (xorb na nb)
  | DInf na, DFin nb m _ | DFin nb m _, DInf na =>
      if (m =? 0)%N then DNan else DInf (xorb na nb)
  | DFin n1 m1 e1, DFin n2 m2 e2 => mk (xorb n1 n2) (m1 * m2) (e1 + e2)
  end.

Definition ddiv_ten (a : dfloat) : dfloat :=
  match a with
  | DFin n m e => mk n m (e - 1)
  | _ => a
  end.

Definition disnan (a : dfloat) : bool :=
  match a with DNan => true | _ => false end.

(** *** [float(s)]: the grammar of the Python reference, on characters
    below 256 *)

Definition digit_of (c : ascii) : option N :=
  let n := N_of_ascii c in
  if ((48 <=? n) && (n <=? 57))%N then Some (n - 48)%N else None.

(** The rest of a [digitpart] after its first digit: digits, each one
    possibly after one underscore.  The value and the number of digits
    are accumulated. *)
Fixpoint digitpart_rest (s : string) (acc : N) (cnt : nat) : N * nat * string :=
  match s with
  | String c s' =>
      match digit_of c with
      | Some d => digitpart_rest s' (10 * acc + d)%N (S cnt)
      | None =>
          if Ascii.eqb c "_" then
            match s' with
            | String c' s'' =>
                match digit_of c' with
                | Some d => digitpart_rest s'' (10 * acc + d)%N (S cnt)
                | None => (acc, cnt, s)
                end
            | EmptyString => (acc, cnt, s)
            end
          else (acc, cnt, s)
      end
  | EmptyString => (acc, cnt, s)
  end.

Definition digitpart (s : string) : option (N * nat * string) :=
  match s with
  | String c s' =>
      match digit_of c with
      | Some d => Some (digitpart_rest s' d 1)
      | None => None
      end
  | EmptyString => None
  end.

Definition lower (c : ascii) : ascii :=
  let n := N_of_ascii c in
  if ((65 <=? n) && (n <=? 90))%N then ascii_of_N (n + 32) else c.

Fixpoint lower_string (s : string) : string :=
  match s with
  | String c s' => String (lower c) (lower_string s')
  | EmptyString => EmptyString
  end.

(** [sign]: whether it is there and negative, and what follows. *)
Definition sign (s : string) : bool * string :=
  match s with
  | String "+" s' => (false, s')
  | String "-" s' => (true, s')
  | _ => (false, s)
  end.

(** [exponent], or nothing, up to the end of the string. *)
Definition exponent (s : string) : option Z :=
  match s with
  | EmptyString => Some 0%Z
  | String c s' =>
      if Ascii.eqb (lower c) "e" then
        let '(neg, s'') := sign s' in
        match digitpart s'' with
        | Some (n, _, EmptyString) =>
            Some (if neg then (- Z.of_N n)%Z else Z.of_N n)
        | _ => None
        end
      else None
  end.

(** [floatnumber] *)
Definition floatnumber (neg : bool) (s : string) : option dfloat :=
  match digitpart s with
  | Some (ip, _, String "." s1) =>
      match digitpart s1 with
      | Some (fp, cnt, s2) =>
          ex ← exponent s2;
          Some (mk neg (ip * 10 ^ N.of_nat cnt + fp) (ex - Z.of_nat cnt))
      | None => ex ← exponent s1; Some (mk neg ip ex)
      end
  | Some (ip, _, s1) => ex ← exponent s1; Some (mk neg ip ex)
  | None =>
      match s with
      | String "." s1 =>
          match digitpart s1 with
          | Some (fp, cnt, s2) =>
              ex ← exponent s2; Some (mk neg fp (ex - Z.of_nat cnt))
          | None => None
          end
      | _ => None
      end
  end.

(** The whitespace that [float] strips: [\t\n\v\f\r], the space, and the
    two spaces above 127, but not the separators 28 to 31. *)
Definition float_isspace (c : ascii) : bool :=
  let n := nat_of_ascii c in
  ((9 <=? n) && (n <=? 13)) || (n =? 32) || (n =? 133) || (n =? 160).

Fixpoint float_lstrip (s : string) : string :=
  match s with
  | String c s' => if float_isspace c then float_lstrip s' else s
  | EmptyString => EmptyString
  end.

Definition float_strip (s : string) : string :=
  String.rev (float_lstrip (String.rev (float_lstrip s))).

Definition parse (s : string) : option dfloat :=
  let '(neg, s') := sign (float_strip s) in
  let low := lower_string s' in
  if String.eqb low "inf" || String.eqb low "infinity" then Some (DInf neg)
  else if String.eqb low "nan" then Some DNan
  else floatnumber neg s'.

(** *** [str(x)]: the digits of [m], placed as [repr] places them *)

Fixpoint zeros (n : nat) : string :=
  match n with
  | 0 => EmptyString
  | S n' => String "0" (zeros n')
  end.

Definition take_string (n : nat) (s : string) : string := String.substring 0 n s.
Definition drop_string (n : nat) (s : string) : string :=
  String.substring n (String.length s - n) s.

Definition repr_finite (m : N) (e : Z) : string :=
  let digits := pretty m in
  let n := Z.of_nat (String.length digits) in
  let decpt := (n + e)%Z in
  if (m =? 0)%N then "0.0"
  else if ((-4 <? decpt) && (decpt <=? 16))%Z then
    if (decpt <=? 0)%Z then "0." +:+ zeros (Z.to_nat (- decpt)) +:+ digits
    else if (n <=? decpt)%Z then digits +:+ zeros (Z.to_nat (decpt - n)) +:+ ".0"
    else take_string (Z.to_nat decpt) digits +:+ "." +:+ drop_string (Z.to_nat decpt) digits
  else
    let ex := (decpt - 1)%Z in
    let mant := if (n =? 1)%Z then digits
                else take_string 1 digits +:+ "." +:+ drop_string 1 digits in
    let exs := pretty (Z.abs_N ex) in
    mant +:+ "e" +:+ (if (ex <? 0)%Z then "-" else "+")
         +:+ (if (Z.abs ex <? 10)%Z then "0" else "") +:+ exs.

Definition repr (a : dfloat) : string :=
  match a with
  | DNan => "nan"
  | DInf neg => if neg then "-inf" else "inf"
  | DFin neg m e => (if neg then "-" else "") +:+ repr_finite m e
  end.

Global Instance dec_float : PyFloat := {|
  float := dfloat;
  flt := dlt;
  fle := dle;
  fmul := dmul;
  fdiv_ten := ddiv_ten;
  fnan := DNan;
  finf := DInf false;
  fisnan := disnan;
  py_float := parse;
  py_str := repr;
|}.

End Dec.

(** ** Sample inputs

    The scenario of the specification: one directory [2L] with one file of
    three rows that share gene_length 1000; parm2 is 500, parm3 is 0.9
    and parm4 is 0.5. *)

Module Sample.
Import Dec.

Definition row_a : row :=
  ["g1"; "ctgA"; "99.0"; "600"; "1"; "0"; "1"; "600"; "100"; "700";
   "1e-50"; "900"; "1000"].
Definition row_b : row :=
  ["g1"; "ctgB"; "95.0"; "100"; "2"; "0"; "1"; "100"; "900"; "800";
   "1e-10"; "150"; "1000"].
Definition row_c : row :=
  ["g2"; "ctgC"; "90.0"; "200"; "5"; "1"; "1"; "200"; "NA"; "300";
   "1e-20"; "250"; "1000"].

Definition a_csv : csv_source :=
  {| src_records := [row_a; row_b; row_c]; src_error := None |}.

(** A file whose first row has no gene_length, and an empty file. *)
Definition row_na : row :=
  ["g3"; "ctgA"; "99.0"; "900"; "1"; "0"; "1"; "900"; "100"; "1000";
   "1e-50"; "900"; "NA"].
Definition b_csv : csv_source :=
  {| src_records := [row_na; row_a]; src_error := None |}.
Definition empty_csv : csv_source :=
  {| src_records := []; src_error := None |}.

Definition p2 : @float dec_float := DFin false 5 2.        (* 500.0 *)
Definition p3 : @float dec_float := DFin false 9 (-1).     (* 0.9 *)
Definition p4 : @float dec_float := DFin false 5 (-1).     (* 0.5 *)
Definition p5 : @float dec_float := DFin false 1 (-1).     (* 0.1 *)
Definition gl_1000 : @float dec_float := DFin false 1 3.   (* 1000.0 *)

(** A contig length file with an empty row and a length that does not
    parse, and the same file with a row that has a name only. *)
Definition lengths_csv : csv_source :=
  {| src_records := [["ctgA"; "12000"]; []; ["ctgB"; "unknown"; "x"]];
     src_error := None |}.
Definition lengths_short_csv : csv_source :=
  {| src_records := [["ctgA"; "12000"]; ["ctgB"]; ["ctgC"; "5"]];
     src_error := None |}.

(** An annotation file with two genes, and a row of a gene that is not
    in it. *)
Definition genes_csv : dict_source :=
  {| dsrc_records :=
       [ {[ "full_id" := Some "g1"; "start" := Some "2000";
            "stop" := Some "3000"; "scaff" := Some "2L" ]};
         {[ "full_id" := Some "g2"; "start" := Some "1000.5";
            "stop" := Some "1900"; "scaff" := Some "2L" ]} ];
     dsrc_error := None |}.

Definition row_x : row :=
  ["g9"; "ctgC"; "90.0"; "200"; "5"; "1"; "1"; "200"; "NA"; "300";
   "1e-20"; "250"; "1000"].

Definition contig_lengths : gmap string (@float dec_float) :=
  <["ctgA" := DFin false 12 3]> ∅.

(** A parameter file, and a root with three chromosome directories: one
    whose file gives a row, one whose file gives none, one without
    files. *)
Definition params_txt : list string :=
  [ "parameter = value"; "";
    "min_identity = 95 "; "min_gene_length = 500"; "ratio_1 = 0,9";
    "ratio_2 = 0,5"; "   "; "ratio_3 = 0,1"; "max_gap = 1e3";
    "max_overlap = 2.5"; "min_contig = 3"; "spare = 4" ].

Definition params_values : params (PF := dec_float) :=
  {| parm1 := DFin false 95 0; parm2 := DFin false 5 2;
     parm3 := DFin false 9 (-1); parm4 := DFin false 5 (-1);
     parm5 := DFin false 1 (-1); parm6 := DFin false 1 3;
     parm7 := DFin false 25 (-1); parm8 := DFin false 3 0 |}.

Definition dir_2L : chromosome_dir :=
  {| sd_path := "root/2L";
     sd_queries := [("root/2L/queries/a.csv", a_csv)];
     sd_genes := Some genes_csv |}.
Definition dir_3R : chromosome_dir :=
  {| sd_path := "root/3R";
     sd_queries := [("root/3R/queries/b.csv", b_csv);
                    ("root/3R/queries/e.csv", empty_csv)];
     sd_genes := None |}.
Definition dir_4 : chromosome_dir :=
  {| sd_path := "root/4"; sd_queries := []; sd_genes := None |}.

End Sample.

(** More sample inputs: a parameter file with the values of [params_txt]
    and other lines around them, a contig length file and an annotation
    file that name a thing twice, and an annotation file with a line
    that stops after the start. *)
Module MoreSample.
Import Dec Sample.

Definition params_padded_txt : list string :=
  [ "# dScaff parameters"; "min_identity = 95"; "";
    "  min_gene_length = 500  "; "ratio_1 = 0,9"; "ratio_2 = 0,5";
    "ratio_3 = 0,1"; "max_gap = 1e3"; ""; "max_overlap = 2.5";
    "min_contig = 3"; "spare = 4"; "unused = 5"; "trailing words" ].

(** A parameter file whose line 2 has no comma and whose line 5 is not
    a number. *)
Definition params_bad_txt : list string :=
  [ "parameter = value"; "min_identity = 95"; "min_gene_length = 500";
    "ratio_1 = 09"; "ratio_2 = 0,5"; "ratio_3 = 0,1"; "max_gap = wide";
    "max_overlap = 2.5"; "min_contig = 3" ].

Definition params_short_txt : list string :=
  [ "parameter = value"; "min_identity = 95"; ""; "min_gene_length = x" ].

(** The parameters of [params_txt] with other values for those that
    are not used. *)
Definition params_other_txt : list string :=
  [ "parameter = value"; "min_identity = 80"; "min_gene_length = 500";
    "ratio_1 = 0,9"; "ratio_2 = 0,5"; "ratio_3 = 0,1"; "max_gap = 7";
    "max_overlap = 8"; "min_contig = 9" ].

Definition params_other_values : params (PF := dec_float) :=
  {| parm1 := DFin false 8 1; parm2 := DFin false 5 2;
     parm3 := DFin false 9 (-1); parm4 := DFin false 5 (-1);
     parm5 := DFin false 1 (-1); parm6 := DFin false 7 0;
     parm7 := DFin false 8 0; parm8 := DFin false 9 0 |}.

Definition lengths_twice_csv : csv_source :=
  {| src_records := [["ctgA"; "12000"]; ["ctgB"; "7"]; ["ctgA"; "13000"; "x"]];
     src_error := None |}.

Definition lengths_twice : gmap string (@float dec_float) :=
  <["ctgA" := DFin false 13 3]>
    (<["ctgB" := DFin false 7 0]> (<["ctgA" := DFin false 12 3]> ∅)).

Definition genes_mixed_csv : dict_source :=
  {| dsrc_records :=
       [ {[ "full_id" := Some "g1"; "start" := Some "2000";
            "stop" := Some "3000"; "scaff" := Some "2L" ]};
         {[ "full_id" := Some ""; "fullid" := Some "g2";
            "start" := Some "soon"; "stop" := Some "1900";
            "scaff" := Some "2L" ]};
         {[ "full_id" := Some ""; "start" := Some "1"; "stop" := Some "2" ]};
         {[ "id" := Some "g1"; "start" := Some "5"; "stop" := Some "6" ]} ];
     dsrc_error := None |}.

Definition genes_mixed
  : gmap string (@float dec_float * @float dec_float * option string) :=
  <["g1" := (DFin false 5 0, DFin false 6 0, Some "")]>
    (<["g2" := (DNan, DFin false 19 2, Some "2L")]>
       (<["g1" := (DFin false 2 3, DFin false 3 3, Some "2L")]> ∅)).

Definition short_rec : gmap string (option string) :=
  {[ "full_id" := Some "g1"; "start" := Some "2000"; "stop" := None;
     "scaff" := None ]}.

Definition genes_short_csv : dict_source :=
  {| dsrc_records :=
       [ {[ "full_id" := Some "g2"; "start" := Some "1000.5";
            "stop" := Some "1900"; "scaff" := Some "2L" ]};
         short_rec ];
     dsrc_error := None |}.


Definition genes_2L
  : gmap string (@float dec_float * @float dec_float * option string) :=
  <["g2" := (DFin false 10005 (-1), DFin false 19 2, Some "2L")]>
    (<["g1" := (DFin false 2 3, DFin false 3 3, Some "2L")]> ∅).

Definition lengths : gmap string (@float dec_float) :=
  <["ctgB" := DNan]> (<["ctgA" := DFin false 12 3]> ∅).

End MoreSample.

(** * Proofs *)

(** ** The order laws hold in the decimal model *)

Module DecLaws.
Import Dec.

Lemma Qlt_bool_iff (x y : Q) : negb (Qle_bool y x) = true ↔ (x < y)%Q.
Proof.
  rewrite negb_true_iff, <- not_true_iff_false, Qle_bool_iff.
  split; [apply Qnot_le_lt|apply Qlt_not_le].
Qed.

Lemma dlt_irrefl x : dlt x x = false.
Proof.
  destruct x as [|[]|n m e]; simpl; try done.
  apply not_true_iff_false. rewrite Qlt_bool_iff. apply Qlt_irrefl.
Qed.

Lemma dlt_trans x y z : dlt x y = true → dlt y z = true → dlt x z = true.
Proof.
  destruct x as [|[]|n1 m1 e1], y as [|[]|n2 m2 e2], z as [|[]|n3 m3 e3];
    simpl; try done.
  rewrite !Qlt_bool_iff. apply Qlt_trans.
Qed.

Lemma dlt_cotrans x y z :
  disnan y = false → dlt x z = true → dlt x y = true ∨ dlt y z = true.
Proof.
  destruct x as [|[]|n1 m1 e1], y as [|[]|n2 m2 e2], z as [|[]|n3 m3 e3];
    simpl; try done; auto.
  rewrite !Qlt_bool_iff. intros _ Hxz.
  destruct (Qlt_le_dec (to_Q n1 m1 e1) (to_Q n2 m2 e2)) as [H|H]; [by left|].
  right. by apply Qle_lt_trans with (to_Q n1 m1 e1).
Qed.

Lemma dlt_not_ge x y : dlt x y = true → dle y x = false.
Proof.
  destruct x as [|[]|n1 m1 e1], y as [|[]|n2 m2 e2]; simpl; try done.
  by rewrite negb_true_iff.
Qed.

Global Instance dec_laws : PyFloatLaws dec_float.
Proof.
  split.
  - exact dlt_irrefl.
  - exact dlt_trans.
  - exact dlt_cotrans.
  - exact dlt_not_ge.
Qed.

End DecLaws.

(** ** Record Filter *)

Section FilterProofs.
Context {PF : PyFloat}.

Lemma for_each_app {S A} (xs ys : list A) (s : S) body :
  for_each (xs ++ ys) s body = (s' ← for_each xs s body; for_each ys s' body).
Proof.
  revert s. induction xs as [|x xs IH]; intros s; simpl; [done|].
  destruct (body s x); simpl; auto.
Qed.

Lemma for_each_cons {S A} (x : A) (xs : list A) (s : S) body :
  for_each (x :: xs) s body = (s' ← body s x; for_each xs s' body).
Proof. done. Qed.

Lemma tsv_body_ok path rows rec :
  length rec = 13 → tsv_body path rows rec = Ok (rows ++ [rec]).
Proof. intros H. unfold tsv_body. by rewrite H. Qed.

Lemma tsv_body_bad path rows rec :
  length rec ≠ 13 →
  tsv_body path rows rec
  = Raise (ValueError (path +:+ ": expected 13 columns, got "
                            +:+ pretty (length rec))).
Proof.
  intros H. unfold tsv_body. by destruct (Nat.eqb_spec (length rec) 13).
Qed.

Lemma tsv_loop_ok path rs acc :
  Forall (λ r, length r = 13) rs →
  for_each rs acc (tsv_body path) = Ok (acc ++ rs).
Proof.
  intros H. revert acc. induction H as [|r rs Hr _ IH]; intros acc.
  - simpl. by rewrite app_nil_r.
  - rewrite for_each_cons, tsv_body_ok by done. simpl.
    rewrite IH. by rewrite <- List.app_assoc.
Qed.

Lemma tsv_loop_bad path rs acc :
  ¬ Forall (λ r, length r = 13) rs →
  ∃ r, r ∈ rs ∧ length r ≠ 13 ∧
    for_each rs acc (tsv_body path)
    = Raise (ValueError (path +:+ ": expected 13 columns, got "
                              +:+ pretty (length r))).
Proof.
  revert acc. induction rs as [|r rs IH]; intros acc Hbad.
  - destruct Hbad. constructor.
  - rewrite for_each_cons.
    destruct (decide (length r = 13)) as [Hr|Hr];
      [rewrite tsv_body_ok by done|rewrite tsv_body_bad by done]; simpl.
    + destruct (IH (acc ++ [r])) as (r' & Hin & Hlen & Heq).
      { intros HF. apply Hbad. by constructor. }
      exists r'. split; [by right|]. done.
    + exists r. split; [by left|]. done.
Qed.

Lemma read_tsv_13_eq path src :
  read_tsv_13 path src
  = (rows ← for_each (src_records src) [] (tsv_body path);
     match src_error src with Some e => Raise e | None => Ok rows end).
Proof. done. Qed.

Lemma read_tsv_13_ok path rs :
  Forall (λ r, length r = 13) rs →
  read_tsv_13 path {| src_records := rs; src_error := None |} = Ok rs.
Proof.
  intros H. rewrite read_tsv_13_eq. simpl.
  by rewrite (tsv_loop_ok _ _ [] H).
Qed.

Lemma read_tsv_13_inv path src rows :
  read_tsv_13 path src = Ok rows →
  rows = src_records src ∧ Forall (λ r, length r = 13) rows.
Proof.
  rewrite read_tsv_13_eq.
  destruct (decide (Forall (λ r, length r = 13) (src_records src))) as [H|H].
  - rewrite (tsv_loop_ok _ _ [] H). simpl.
    destruct (src_error src); [done|]. intros [= <-]. done.
  - destruct (tsv_loop_bad path _ [] H) as (r & _ & _ & ->). done.
Qed.

Lemma pick_eq rows gl m :
  pick rows gl m = for_each rows [] (pick_body (fmul gl m)).
Proof. done. Qed.

Lemma pick_body_spec thr out r :
  length r = 13 →
  pick_body thr out r
  = Ok (match r !! IDX_LENGTH ≫= py_float with
        | Some lv => if fge lv thr then out ++ [r] else out
        | None => out
        end).
Proof.
  intros Hr. do 13 (destruct r as [|? r]; try discriminate Hr).
  unfold pick_body, py_index, float_of. simpl.
  by destruct (py_float s2).
Qed.

Lemma pick_loop rows gl m acc :
  Forall (λ r, length r = 13) rows →
  for_each rows acc (pick_body (fmul gl m)) = Ok (acc ++ tier_spec rows gl m).
Proof.
  intros H. revert acc. induction H as [|r rows Hr _ IH]; intros acc.
  - simpl. by rewrite app_nil_r.
  - rewrite for_each_cons, pick_body_spec by done. simpl. rewrite IH.
    unfold tier_spec. simpl.
    destruct (r !! IDX_LENGTH ≫= py_float) as [lv|]; [|done].
    destruct (fge lv (fmul gl m)); [|done].
    by rewrite <- List.app_assoc.
Qed.

Lemma pick_spec rows gl m :
  Forall (λ r, length r = 13) rows →
  pick rows gl m = Ok (tier_spec rows gl m).
Proof. intros H. rewrite pick_eq. by rewrite (pick_loop rows gl m [] H). Qed.

(** After the gate: the three tiers in order. *)
Lemma filter_try_gate path rows r0 s gl p2 p3 p4 p5 :
  Forall (λ r, length r = 13) rows →
  rows !! 0 = Some r0 → r0 !! IDX_GENELEN = Some s → py_float s = Some gl →
  fle gl p2 = false →
  filter_try path {| src_records := rows; src_error := None |} p2 p3 p4 p5
  = first_tier (pick rows gl) [p3; p4; p5].
Proof.
  intros Hall H0 Hs Hgl Hgate. unfold filter_try.
  rewrite (read_tsv_13_ok _ _ Hall). simpl.
  destruct rows as [|r rows']; [done|]. simpl in H0. injection H0 as ->.
  unfold py_index, float_of. simpl. rewrite Hs. simpl. rewrite Hgl. simpl.
  by rewrite Hgate.
Qed.

Lemma first_tier_three rows gl p3 p4 p5 :
  Forall (λ r, length r = 13) rows →
  first_tier (pick rows gl) [p3; p4; p5]
  = Ok (match tier_spec rows gl p3 with
        | _ :: _ => tier_spec rows gl p3
        | [] => match tier_spec rows gl p4 with
                | _ :: _ => tier_spec rows gl p4
                | [] => tier_spec rows gl p5
                end
        end).
Proof.
  intros H. simpl. rewrite !pick_spec by done. simpl.
  destruct (tier_spec rows gl p3); [|done].
  destruct (tier_spec rows gl p4); [|done].
  by destruct (tier_spec rows gl p5).
Qed.

(** What a failure inside the [try] block turns into. *)
Lemma filter_one_file_raise path src p2 p3 p4 p5 e :
  filter_try path src p2 p3 p4 p5 = Raise e →
  filter_one_file path src p2 p3 p4 p5
  = (Ok [], [Print ("[warn] " +:+ path +:+ ": " +:+ exn_str e)]).
Proof. intros H. unfold filter_one_file. by rewrite H. Qed.

Lemma filter_one_file_ok path src p2 p3 p4 p5 out :
  filter_try path src p2 p3 p4 p5 = Ok out →
  filter_one_file path src p2 p3 p4 p5 = (Ok out, []).
Proof. intros H. unfold filter_one_file. by rewrite H. Qed.

(** The three ways to an empty result before any tier is tried. *)
Lemma filter_try_closed_gate path src p2 p3 p4 p5 rows :
  read_tsv_13 path src = Ok rows →
  (rows = [] ∨
   ∃ r0 s, rows !! 0 = Some r0 ∧ r0 !! IDX_GENELEN = Some s ∧
     (py_float s = None ∨ ∃ gl, py_float s = Some gl ∧ fle gl p2 = true)) →
  filter_try path src p2 p3 p4 p5 = Ok [].
Proof.
  intros Hread Hcase. unfold filter_try. rewrite Hread. simpl.
  destruct Hcase as [->|(r0 & s & H0 & Hs & Hgl)]; [done|].
  destruct rows as [|r rows']; [done|]. simpl in H0. injection H0 as ->.
  unfold py_index, float_of. simpl. rewrite Hs. simpl.
  destruct Hgl as [->|(gl & -> & Hle)]; [done|]. simpl. by rewrite Hle.
Qed.

End FilterProofs.

(** C1. A file of 13-column rows whose first row's gene_length parses as
    a number greater than parm2: the Record Filter returns, without a
    warning, the rows of the first of the tiers of parm3, parm4, parm5
    (in that order) that is not empty, where the tier of a multiplier is
    the rows whose length field parses as a float that is at least
    gene_length times the multiplier.  The result is one tier, never rows
    of several; it is empty when the three tiers are. *)
Theorem filter_one_file_first_tier
    {PF : PyFloat} {PL : PyFloatLaws PF}
    (path : string) (rows : list row) (r0 : row) (s : string)
    (gl p2 p3 p4 p5 : float) :
  Forall (λ r, length r = 13) rows →
  rows !! 0 = Some r0 → r0 !! IDX_GENELEN = Some s → py_float s = Some gl →
  flt p2 gl = true →
  ∃ out,
    filter_one_file path {| src_records := rows; src_error := None |}
                    p2 p3 p4 p5 = (Ok out, [])
    ∧ (tier_spec rows gl p3 ≠ [] → out = tier_spec rows gl p3)
    ∧ (tier_spec rows gl p3 = [] → tier_spec rows gl p4 ≠ [] →
       out = tier_spec rows gl p4)
    ∧ (tier_spec rows gl p3 = [] → tier_spec rows gl p4 = [] →
       out = tier_spec rows gl p5)
    ∧ (tier_spec rows gl p3 = [] → tier_spec rows gl p4 = [] →
       tier_spec rows gl p5 = [] → out = []).
Proof.
  intros Hall H0 Hs Hgl Hgt.
  eexists. split.
  - apply filter_one_file_ok.
    rewrite (filter_try_gate path rows r0 s gl) by eauto using flt_not_ge.
    by apply first_tier_three.
  - destruct (tier_spec rows gl p3) as [|a l3].
    + destruct (tier_spec rows gl p4) as [|b l4].
      * repeat split; done.
      * repeat split; done.
    + repeat split; done.
Qed.

(** C4. The Record Filter returns an empty result when the file has no
    row, when the gene_length of its first row does not parse as a
    number, and when it parses as a number that is at most parm2,
    whatever the other records hold. *)
Theorem filter_one_file_gate_closed
    {PF : PyFloat} (path : string) (src : csv_source) (p2 p3 p4 p5 : float) :
  (src_records src = [] ∨
   ∃ r0 s, src_records src !! 0 = Some r0 ∧ r0 !! IDX_GENELEN = Some s ∧
     (py_float s = None ∨ ∃ gl, py_float s = Some gl ∧ fle gl p2 = true)) →
  (filter_one_file path src p2 p3 p4 p5).1 = Ok [].
Proof.
  intros Hcase.
  destruct (filter_try path src p2 p3 p4 p5) as [out|e] eqn:Htry.
  - rewrite (filter_one_file_ok _ _ _ _ _ _ _ Htry). simpl. f_equal.
    assert (∃ rows, read_tsv_13 path src = Ok rows) as [rows Hread].
    { unfold filter_try in Htry.
      destruct (read_tsv_13 path src); [eauto|done]. }
    destruct (read_tsv_13_inv _ _ _ Hread) as [-> _].
    rewrite (filter_try_closed_gate _ _ _ _ _ _ _ Hread Hcase) in Htry.
    by injection Htry.
  - by rewrite (filter_one_file_raise _ _ _ _ _ _ _ Htry).
Qed.

(** C5. The Record Filter task never raises.  Every failure inside it is
    caught: the task prints one warning that names the file and returns
    an empty result.  So it is for a row that does not have 13 columns
    and for a file that cannot be read. *)
Theorem filter_one_file_never_raises
    {PF : PyFloat} (path : string) (src : csv_source) (p2 p3 p4 p5 : float) :
  (∃ out, (filter_one_file path src p2 p3 p4 p5).1 = Ok out)
  ∧ (∀ e, filter_try path src p2 p3 p4 p5 = Raise e →
       filter_one_file path src p2 p3 p4 p5
       = (Ok [], [Print ("[warn] " +:+ path +:+ ": " +:+ exn_str e)]))
  ∧ (¬ Forall (λ r, length r = 13) (src_records src) →
       ∃ r, r ∈ src_records src ∧ length r ≠ 13 ∧
         filter_one_file path src p2 p3 p4 p5
         = (Ok [], [Print ("[warn] " +:+ path +:+ ": " +:+ path
                             +:+ ": expected 13 columns, got "
                             +:+ pretty (length r))]))
  ∧ (∀ e, Forall (λ r, length r = 13) (src_records src) →
       src_error src = Some e →
       filter_one_file path src p2 p3 p4 p5
       = (Ok [], [Print ("[warn] " +:+ path +:+ ": " +:+ exn_str e)])).
Proof.
  split; [|split; [|split]].
  - unfold filter_one_file.
    destruct (filter_try path src p2 p3 p4 p5); simpl; eauto.
  - apply filter_one_file_raise.
  - intros Hbad.
    destruct (tsv_loop_bad path _ [] Hbad) as (r & Hin & Hlen & Heq).
    exists r. split; [done|]. split; [done|].
    apply (filter_one_file_raise _ _ _ _ _ _
             (ValueError (path +:+ ": expected 13 columns, got "
                               +:+ pretty (length r)))).
    unfold filter_try. rewrite read_tsv_13_eq, Heq. done.
  - intros e Hall He. apply filter_one_file_raise.
    unfold filter_try. rewrite read_tsv_13_eq, (tsv_loop_ok _ _ [] Hall).
    simpl. by rewrite He.
Qed.

(** ** Parameter Loader *)

Section ParamProofs.
Context {PF : PyFloat}.

Lemma third_token_returns body i line :
  body !! i = Some line →
  returns (third_token line) (payload_spec body i).
Proof.
  intros Hi. unfold payload_spec, third_token, py_index. rewrite Hi. simpl.
  destruct (Nat.ltb_spec (length (py_split line)) 3) as [Hlt|Hge].
  - rewrite lookup_ge_None_2 by lia. simpl. eauto.
  - destruct (lookup_lt_is_Some_2 (py_split line) 2) as [t Ht]; [lia|].
    rewrite Ht. done.
Qed.

Lemma plain_returns body i line :
  body !! i = Some line →
  returns (b ← py_index body i; t ← third_token b; float_of t)
          (plain_value_spec body i).
Proof.
  intros Hi. pose proof (third_token_returns body i line Hi) as Ht.
  unfold plain_value_spec, py_index. rewrite Hi. simpl.
  destruct (payload_spec body i) as [t|]; simpl in *.
  - rewrite Ht. simpl. unfold float_of.
    destruct (py_float t); simpl; eauto.
  - destruct Ht as [e ->]. simpl. eauto.
Qed.

Lemma py_split_on_cons sep s : ∃ w ws, py_split_on sep s = w :: ws.
Proof.
  induction s as [|c s (w & ws & IH)]; simpl; [eauto|].
  destruct (Ascii.eqb c sep); [eauto|]. rewrite IH. eauto.
Qed.

Lemma py_split_on_second sep s :
  py_split_on sep s !! 1 = None ↔ sep ∉ list_ascii_of_string s.
Proof.
  induction s as [|c s IH]; simpl.
  - split; [intros _; apply not_elem_of_nil|done].
  - rewrite not_elem_of_cons.
    destruct (Ascii.eqb_spec c sep) as [->|Hne].
    + destruct (py_split_on_cons sep s) as (w & ws & ->). simpl.
      split; [done|]. by intros [? _].
    + destruct (py_split_on_cons sep s) as (w & ws & Heq).
      rewrite Heq in *. simpl in *. rewrite IH. split; [|tauto].
      intros H. split; [congruence|done].
Qed.

Lemma special_returns body i line :
  body !! i = Some line →
  returns (b ← py_index body i; special b) (compound_value_spec body i).
Proof.
  intros Hi. pose proof (third_token_returns body i line Hi) as Ht.
  unfold compound_value_spec, special, py_index. rewrite Hi. simpl.
  destruct (payload_spec body i) as [t|]; simpl in *.
  - rewrite Ht. simpl.
    destruct (py_split_on_cons "," t) as (w & ws & Heq). rewrite Heq.
    destruct ws as [|frac ws]; simpl; [eauto|].
    unfold float_of. destruct (py_float frac); simpl; eauto.
  - destruct Ht as [e ->]. simpl. eauto.
Qed.

Lemma load_parameters_returns f :
  let body := drop 1 (nonblank_lines f) in
  returns (load_parameters f)
          (if (length body <? 8)%nat then None else values_spec body).
Proof.
  intros body. unfold load_parameters. fold body.
  destruct (Nat.ltb_spec (length body) 8) as [Hlt|Hge]; [simpl; eauto|].
  assert (∀ i, i < 8 → ∃ line, body !! i = Some line) as Hline.
  { intros i Hi. apply lookup_lt_is_Some_2. lia. }
  destruct (Hline 0) as [l0 H0]; [lia|]. destruct (Hline 1) as [l1 H1]; [lia|].
  destruct (Hline 2) as [l2 H2]; [lia|]. destruct (Hline 3) as [l3 H3]; [lia|].
  destruct (Hline 4) as [l4 H4]; [lia|]. destruct (Hline 5) as [l5 H5]; [lia|].
  destruct (Hline 6) as [l6 H6]; [lia|]. destruct (Hline 7) as [l7 H7]; [lia|].
  pose proof (plain_returns body 0 l0 H0) as R0.
  pose proof (plain_returns body 1 l1 H1) as R1.
  pose proof (special_returns body 2 l2 H2) as R2.
  pose proof (special_returns body 3 l3 H3) as R3.
  pose proof (special_returns body 4 l4 H4) as R4.
  pose proof (plain_returns body 5 l5 H5) as R5.
  pose proof (plain_returns body 6 l6 H6) as R6.
  pose proof (plain_returns body 7 l7 H7) as R7.
  unfold values_spec.
  destruct (plain_value_spec body 0); simpl in R0;
    [rewrite R0|destruct R0 as [? ->]; simpl; eauto].
  destruct (plain_value_spec body 1); simpl in R1;
    [rewrite R1|destruct R1 as [? ->]; simpl; eauto].
  destruct (plain_value_spec body 5); simpl in R5;
    [rewrite R5|destruct R5 as [? ->]; simpl;
     destruct (compound_value_spec body 2), (compound_value_spec body 3),
       (compound_value_spec body 4); simpl; eauto].
  destruct (plain_value_spec body 6); simpl in R6;
    [rewrite R6|destruct R6 as [? ->]; simpl;
     destruct (compound_value_spec body 2), (compound_value_spec body 3),
       (compound_value_spec body 4); simpl; eauto].
  destruct (plain_value_spec body 7); simpl in R7;
    [rewrite R7|destruct R7 as [? ->]; simpl;
     destruct (compound_value_spec body 2), (compound_value_spec body 3),
       (compound_value_spec body 4); simpl; eauto].
  destruct (compound_value_spec body 2); simpl in R2;
    [rewrite R2|destruct R2 as [? ->]; simpl; eauto].
  destruct (compound_value_spec body 3); simpl in R3;
    [rewrite R3|destruct R3 as [? ->]; simpl; eauto].
  destruct (compound_value_spec body 4); simpl in R4;
    [rewrite R4|destruct R4 as [? ->]; simpl; eauto].
  done.
Qed.

Ltac case_values :=
  repeat match goal with
         | |- context [plain_value_spec ?b ?i] =>
             destruct (plain_value_spec b i)
         | |- context [compound_value_spec ?b ?i] =>
             destruct (compound_value_spec b i)
         end.

Lemma values_spec_Some body p :
  values_spec body = Some p ↔
    plain_value_spec body 0 = Some (parm1 p)
    ∧ plain_value_spec body 1 = Some (parm2 p)
    ∧ compound_value_spec body 2 = Some (parm3 p)
    ∧ compound_value_spec body 3 = Some (parm4 p)
    ∧ compound_value_spec body 4 = Some (parm5 p)
    ∧ plain_value_spec body 5 = Some (parm6 p)
    ∧ plain_value_spec body 6 = Some (parm7 p)
    ∧ plain_value_spec body 7 = Some (parm8 p).
Proof.
  unfold values_spec. split.
  - case_values; simpl; try done. by intros [= <-].
  - intros (-> & -> & -> & -> & -> & -> & -> & ->). simpl. by destruct p.
Qed.

Lemma values_spec_plain_None body i :
  i ∈ [0; 1; 5; 6; 7] → plain_value_spec body i = None →
  values_spec body = None.
Proof.
  intros Hi H. unfold values_spec.
  repeat (apply elem_of_cons in Hi as [->|Hi];
          [rewrite H; by case_values|]).
  by apply elem_of_nil in Hi.
Qed.

Lemma values_spec_compound_None body i :
  i ∈ [2; 3; 4] → compound_value_spec body i = None →
  values_spec body = None.
Proof.
  intros Hi H. unfold values_spec.
  repeat (apply elem_of_cons in Hi as [->|Hi];
          [rewrite H; by case_values|]).
  by apply elem_of_nil in Hi.
Qed.

Lemma payload_spec_None body i line :
  body !! i = Some line →
  payload_spec body i = None ↔ length (py_split line) < 3.
Proof.
  intros Hi. unfold payload_spec. rewrite Hi. simpl.
  rewrite lookup_ge_None. lia.
Qed.

Lemma plain_value_spec_None body i line :
  body !! i = Some line →
  plain_value_spec body i = None ↔
    length (py_split line) < 3
    ∨ ∃ tok, payload_spec body i = Some tok ∧ py_float tok = None.
Proof.
  intros Hi. rewrite <- (payload_spec_None body i line Hi).
  unfold plain_value_spec. destruct (payload_spec body i) as [tok|]; simpl.
  - split; [eauto|]. by intros [|(? & [= <-] & ?)].
  - split; [auto|done].
Qed.

Lemma compound_value_spec_None body i line :
  body !! i = Some line →
  compound_value_spec body i = None ↔
    length (py_split line) < 3
    ∨ ∃ tok, payload_spec body i = Some tok
        ∧ (¬ has_comma tok
           ∨ ∃ frac, py_split_on "," tok !! 1 = Some frac
                     ∧ py_float frac = None).
Proof.
  intros Hi. rewrite <- (payload_spec_None body i line Hi).
  unfold compound_value_spec, has_comma.
  destruct (payload_spec body i) as [tok|]; simpl; [|split; [auto|done]].
  pose proof (py_split_on_second "," tok) as Hcomma.
  destruct (py_split_on "," tok !! 1) as [frac|] eqn:Hsp; simpl.
  - destruct (py_float frac) eqn:Hfrac; simpl.
    + split; [done|].
      intros [Hs|(tok' & Htok & Hrest)]; [done|]. injection Htok as <-.
      destruct Hrest as [Hno|(frac' & Hfr & Hbad)].
      * by apply Hcomma in Hno.
      * rewrite Hsp in Hfr. congruence.
    + split; [|done]. intros _. right. exists tok. split; [done|].
      right. eauto.
  - split; [|done]. intros _. right. exists tok. split; [done|].
    left. by apply Hcomma.
Qed.

End ParamProofs.

(** C8. With the body the lines of the file, stripped, without the blank
    ones and without the first: parm1, parm2, parm6, parm7 and parm8 are
    the third tokens of the body lines 0, 1, 5, 6 and 7 parsed as floats;
    parm3, parm4 and parm5 come from the third tokens of the body lines 2,
    3 and 4, as the part after the first comma, parsed as a float and
    divided by ten.  The load fails exactly when the body has fewer than 8
    lines, or one of its first 8 lines has fewer than 3 tokens, or a plain
    payload does not parse, or a compound payload has no comma or its part
    after the comma does not parse. *)
Theorem load_parameters_values_and_failures {PF : PyFloat} (f : list string) :
  let body := drop 1 (nonblank_lines f) in
  (∀ p, load_parameters f = Ok p ↔
     (8 ≤ length body)%nat
     ∧ plain_value_spec body 0 = Some (parm1 p)
     ∧ plain_value_spec body 1 = Some (parm2 p)
     ∧ compound_value_spec body 2 = Some (parm3 p)
     ∧ compound_value_spec body 3 = Some (parm4 p)
     ∧ compound_value_spec body 4 = Some (parm5 p)
     ∧ plain_value_spec body 5 = Some (parm6 p)
     ∧ plain_value_spec body 6 = Some (parm7 p)
     ∧ plain_value_spec body 7 = Some (parm8 p))
  ∧ ((∃ e, load_parameters f = Raise e) ↔
     length body < 8
     ∨ (∃ i line, i < 8 ∧ body !! i = Some line ∧ length (py_split line) < 3)
     ∨ (∃ i tok, i ∈ [0; 1; 5; 6; 7] ∧ payload_spec body i = Some tok
                 ∧ py_float tok = None)
     ∨ (∃ i tok, i ∈ [2; 3; 4] ∧ payload_spec body i = Some tok
                 ∧ (¬ has_comma tok
                    ∨ ∃ frac, py_split_on "," tok !! 1 = Some frac
                              ∧ py_float frac = None))).
Proof.
  intros body. pose proof (load_parameters_returns f) as R. fold body in R.
  simpl in R. split.
  - intros p. rewrite <- values_spec_Some.
    destruct (Nat.ltb_spec (length body) 8) as [Hlt|Hge].
    + destruct R as [e ->]. split; [done|]. intros [? _]. lia.
    + destruct (values_spec body) as [q|]; simpl in R.
      * rewrite R. split; [intros [= ->]; auto|]. by intros [_ [= ->]].
      * destruct R as [e ->]. split; [done|]. by intros [_ ?].
  - destruct (Nat.ltb_spec (length body) 8) as [Hlt|Hge].
    { split; [auto|intros _; exact R]. }
    assert (∀ i, i < 8 → ∃ line, body !! i = Some line) as Hline.
    { intros i Hi. apply lookup_lt_is_Some_2. lia. }
    split.
    + intros [e He]. right.
      destruct (values_spec body) as [q|] eqn:Hv; simpl in R; [congruence|].
      clear R He. unfold values_spec in Hv.
      assert (∀ i, i ∈ [0; 1; 5; 6; 7] → plain_value_spec body i = None →
              (∃ i line, i < 8 ∧ body !! i = Some line
                         ∧ length (py_split line) < 3)
              ∨ (∃ i tok, i ∈ [0; 1; 5; 6; 7] ∧ payload_spec body i = Some tok
                          ∧ py_float tok = None)) as Hplain.
      { intros i Hi Hnone.
        assert (i < 8) as Hi8.
        { repeat (apply elem_of_cons in Hi as [->|Hi]; [lia|]).
          by apply elem_of_nil in Hi. }
        destruct (Hline i Hi8) as [line Hl].
        apply (plain_value_spec_None body i line Hl) in Hnone
          as [Hshort|(tok & Htok & Hbad)]; [left|right]; eauto 6. }
      assert (∀ i, i ∈ [2; 3; 4] → compound_value_spec body i = None →
              (∃ i line, i < 8 ∧ body !! i = Some line
                         ∧ length (py_split line) < 3)
              ∨ (∃ i tok, i ∈ [2; 3; 4] ∧ payload_spec body i = Some tok
                   ∧ (¬ has_comma tok
                      ∨ ∃ frac, py_split_on "," tok !! 1 = Some frac
                                ∧ py_float frac = None))) as Hcomp.
      { intros i Hi Hnone.
        assert (i < 8) as Hi8.
        { repeat (apply elem_of_cons in Hi as [->|Hi]; [lia|]).
          by apply elem_of_nil in Hi. }
        destruct (Hline i Hi8) as [line Hl].
        apply (compound_value_spec_None body i line Hl) in Hnone
          as [Hshort|(tok & Htok & Hbad)]; [left|right]; eauto 6. }
      destruct (plain_value_spec body 0) eqn:E0;
        [|destruct (Hplain 0 ltac:(repeat constructor) E0) as [?|?]; auto].
      destruct (plain_value_spec body 1) eqn:E1;
        [|destruct (Hplain 1 ltac:(repeat constructor) E1) as [?|?]; auto].
      destruct (compound_value_spec body 2) eqn:E2;
        [|destruct (Hcomp 2 ltac:(repeat constructor) E2) as [?|?]; auto].
      destruct (compound_value_spec body 3) eqn:E3;
        [|destruct (Hcomp 3 ltac:(repeat constructor) E3) as [?|?]; auto].
      destruct (compound_value_spec body 4) eqn:E4;
        [|destruct (Hcomp 4 ltac:(repeat constructor) E4) as [?|?]; auto].
      destruct (plain_value_spec body 5) eqn:E5;
        [|destruct (Hplain 5 ltac:(repeat constructor) E5) as [?|?]; auto].
      destruct (plain_value_spec body 6) eqn:E6;
        [|destruct (Hplain 6 ltac:(repeat constructor) E6) as [?|?]; auto].
      destruct (plain_value_spec body 7) eqn:E7;
        [|destruct (Hplain 7 ltac:(repeat constructor) E7) as [?|?]; auto].
      done.
    + assert (values_spec body = None → ∃ e, load_parameters f = Raise e)
        as Hfail by (by intros Hv; rewrite Hv in R).
      intros [Hlt|[(i & line & Hi & Hl & Hshort)
                  |[(i & tok & Hi & Htok & Hbad)|(i & tok & Hi & Htok & Hbad)]]].
      * lia.
      * apply Hfail.
        assert (i ∈ [0; 1; 5; 6; 7] ∨ i ∈ [2; 3; 4]) as [Hin|Hin].
        { destruct i as [|[|[|[|[|[|[|[|i]]]]]]]]; try lia;
            rewrite ?elem_of_cons; auto 10. }
        -- apply (values_spec_plain_None body i Hin).
           apply (plain_value_spec_None body i line Hl). auto.
        -- apply (values_spec_compound_None body i Hin).
           apply (compound_value_spec_None body i line Hl). auto.
      * apply Hfail, (values_spec_plain_None body i Hi).
        unfold plain_value_spec. rewrite Htok. done.
      * apply Hfail, (values_spec_compound_None body i Hi).
        assert (i < 8) as Hi8.
        { repeat (apply elem_of_cons in Hi as [->|Hi]; [lia|]).
          by apply elem_of_nil in Hi. }
        destruct (Hline i Hi8) as [line Hl].
        apply (compound_value_spec_None body i line Hl). eauto.
Qed.


(** ** Contig Length Table *)

Section ContigProofs.
Context {PF : PyFloat}.

Lemma load_contig_lengths_eq src :
  load_contig_lengths src
  = (table ← for_each (src_records src) ∅ contig_body;
     match src_error src with Some e => Raise e | None => Ok table end).
Proof. done. Qed.

Lemma contig_body_one table name :
  contig_body table [name] = Raise (IndexError "list index out of range").
Proof. done. Qed.

Lemma contig_body_other table rec :
  length rec ≠ 1 → contig_body table rec = Ok (contig_entry_spec table rec).
Proof.
  destruct rec as [|name [|v rec]]; [done|done|]. intros _.
  unfold contig_body, py_index, float_of. simpl. by destruct (py_float v).
Qed.

Lemma contig_loop_ok rs table :
  Forall (λ r, length r ≠ 1) rs →
  for_each rs table contig_body = Ok (foldl contig_entry_spec table rs).
Proof.
  intros H. revert table. induction H as [|r rs Hr _ IH]; intros table.
  - done.
  - rewrite for_each_cons, contig_body_other by done. simpl. apply IH.
Qed.

Lemma contig_loop_one rs table :
  Exists (λ r, length r = 1) rs →
  for_each rs table contig_body = Raise (IndexError "list index out of range").
Proof.
  intros H. revert table. induction H as [r rs Hr|r rs _ IH]; intros table.
  - destruct r as [|name [|? ?]]; try discriminate Hr. done.
  - rewrite for_each_cons.
    destruct (decide (length r = 1)) as [Hr|Hr].
    + destruct r as [|name [|? ?]]; try discriminate Hr. done.
    + rewrite contig_body_other by done. simpl. apply IH.
Qed.

End ContigProofs.

(** C10. The contig-length loader skips, without a word, the rows of no
    field and only those.  When some row has exactly one field the load
    raises an [IndexError], which nothing in the loader catches.  When no
    row has exactly one field the load goes through: a row of two fields
    or more enters the table, with NaN as its length when the length
    does not parse. *)
Theorem load_contig_lengths_rows {PF : PyFloat} (src : csv_source) :
  ((∃ r, r ∈ src_records src ∧ length r = 1) →
   load_contig_lengths src = Raise (IndexError "list index out of range"))
  ∧ ((∀ r, r ∈ src_records src → length r ≠ 1) → src_error src = None →
     load_contig_lengths src = Ok (contig_table_spec (src_records src))).
Proof.
  split.
  - intros Hone. rewrite load_contig_lengths_eq, contig_loop_one; [done|].
    by apply Exists_exists.
  - intros Hall Herr.
    rewrite load_contig_lengths_eq, contig_loop_ok by by apply Forall_forall.
    simpl. by rewrite Herr.
Qed.

(** ** Deduplication *)

Section DedupProofs.

Lemma foldl_dedup_step seen acc l :
  (foldl dedup_step (seen, acc) l).2 = acc ++ dedup_from seen l.
Proof.
  revert seen acc. induction l as [|r l IH]; intros seen acc; simpl.
  - by rewrite app_nil_r.
  - unfold dedup_step at 2. simpl. destruct (decide (r ∈ seen)).
    + apply IH.
    + rewrite IH. by rewrite <- List.app_assoc.
Qed.

Lemma dedup_from_filter seen l :
  dedup_from seen l = filter (λ r, r ∉ seen) (first_occurrences l).
Proof.
  revert seen. induction l as [|r l IH]; intros seen; simpl; [done|].
  destruct (decide (r ∈ seen)) as [Hin|Hin].
  - rewrite filter_cons_False by tauto.
    rewrite list_filter_filter, IH. apply list_filter_iff.
    intros x. split; [|tauto]. intros Hx. split; [done|]. by intros ->.
  - rewrite filter_cons_True by done. f_equal.
    rewrite list_filter_filter, IH. apply list_filter_iff.
    intros x. rewrite not_elem_of_union, not_elem_of_singleton. tauto.
Qed.

Lemma dedup_rows_first_occurrences l : dedup_rows l = first_occurrences l.
Proof.
  unfold dedup_rows. rewrite foldl_dedup_step, dedup_from_filter. simpl.
  induction (first_occurrences l) as [|r k IH]; [done|].
  rewrite filter_cons_True by set_solver. by f_equal.
Qed.

Lemma elem_of_first_occurrences l r : r ∈ first_occurrences l ↔ r ∈ l.
Proof.
  induction l as [|r' l IH]; simpl; [done|].
  rewrite !elem_of_cons, list_elem_of_filter, IH.
  destruct (decide (r = r')); tauto.
Qed.

Lemma elem_of_dedup_rows l r : r ∈ dedup_rows l ↔ r ∈ l.
Proof.
  rewrite dedup_rows_first_occurrences. apply elem_of_first_occurrences.
Qed.

Lemma NoDup_first_occurrences l : NoDup (first_occurrences l).
Proof.
  induction l as [|r l IH]; simpl; [constructor|].
  apply NoDup_cons. split.
  - rewrite list_elem_of_filter. tauto.
  - by apply NoDup_filter.
Qed.

Lemma first_occurrences_NoDup l : NoDup l → first_occurrences l = l.
Proof.
  induction 1 as [|r l Hr _ IH]; simpl; [done|]. f_equal. rewrite IH.
  clear IH. induction l as [|r' l IH]; [done|].
  apply not_elem_of_cons in Hr as [Hne Hr].
  rewrite filter_cons_True by done. f_equal. auto.
Qed.

Lemma first_occurrences_sublist l : first_occurrences l `sublist_of` l.
Proof.
  induction l as [|r l IH]; simpl; [done|].
  apply sublist_skip. etrans; [apply sublist_filter|done].
Qed.

End DedupProofs.

(** C9. The deduplication of the Enricher keeps one row of every set of
    equal rows: the result has no two equal rows and has the rows of the
    input.  Each row stays at the place where it is first seen: the result
    is a subsequence of the input, the first occurrences in their order.
    Deduplicating twice gives what deduplicating once gives. *)
Theorem dedup_rows_stable_idempotent (base_rows : list row) :
  NoDup (dedup_rows base_rows)
  ∧ (∀ r, r ∈ dedup_rows base_rows ↔ r ∈ base_rows)
  ∧ dedup_rows base_rows `sublist_of` base_rows
  ∧ dedup_rows base_rows = first_occurrences base_rows
  ∧ dedup_rows (dedup_rows base_rows) = dedup_rows base_rows.
Proof.
  rewrite !dedup_rows_first_occurrences.
  split; [apply NoDup_first_occurrences|].
  split; [intros r; apply elem_of_first_occurrences|].
  split; [apply first_occurrences_sublist|].
  split; [done|].
  apply first_occurrences_NoDup, NoDup_first_occurrences.
Qed.

(** Rows that differ in one field are different rows, and the second of
    two equal rows goes. *)
Example dedup_rows_sample :
  dedup_rows [Sample.row_b; Sample.row_a; Sample.row_b; Sample.row_c;
              Sample.row_a]
  = [Sample.row_b; Sample.row_a; Sample.row_c].
Proof. vm_compute. reflexivity. Qed.

(** ** [list.sort] *)

Section ListSortPerm.
Context {A : Type} (lt : A → A → bool).

Lemma binary_insert_perm sorted pivot :
  binary_insert lt sorted pivot ≡ₚ sorted ++ [pivot].
Proof.
  unfold binary_insert.
  set (i := bisect lt (length sorted) pivot sorted 0 (length sorted)).
  rewrite <- (take_drop i sorted) at 3.
  by rewrite <- Permutation_middle, <- Permutation_cons_append.
Qed.

Lemma binarysort_cons run p rest :
  binarysort lt run (p :: rest) = binarysort lt (binary_insert lt run p) rest.
Proof. done. Qed.

Lemma binarysort_perm run rest : binarysort lt run rest ≡ₚ run ++ rest.
Proof.
  revert run. induction rest as [|p rest IH]; intros run.
  - simpl. by rewrite app_nil_r.
  - rewrite binarysort_cons, IH, binary_insert_perm, <- app_assoc. done.
Qed.

Lemma list_sort_perm l : list_sort lt l ≡ₚ l.
Proof.
  destruct l as [|x [|y l]]; [done..|]. unfold list_sort.
  destruct (count_run lt (x :: y :: l)) as [n d].
  rewrite binarysort_perm.
  destruct d; [rewrite reverse_Permutation|]; by rewrite take_drop.
Qed.

Lemma count_run_take x y l n d :
  count_run lt (x :: y :: l) = (n, d) →
  take n (x :: y :: l)
  = x :: take (if d then run_descending lt x (y :: l)
               else run_ascending lt x (y :: l)) (y :: l).
Proof.
  simpl. destruct (lt y x); intros [= <- <-]; done.
Qed.

Lemma run_descending_sorted prev l :
  (∀ x y z, lt x y = true → lt y z = true → lt x z = true) →
  StronglySorted (λ a b, lt b a = true)
                 (prev :: take (run_descending lt prev l) l).
Proof.
  intros Htrans. revert prev. induction l as [|x l IH]; intros prev; simpl.
  - repeat constructor.
  - destruct (lt x prev) eqn:Hx; simpl; [|repeat constructor].
    specialize (IH x). apply StronglySorted_cons in IH as [Hall Hs].
    apply StronglySorted_cons. split.
    + constructor; [done|]. eapply Forall_impl; [exact Hall|].
      simpl. eauto.
    + by apply StronglySorted_cons.
Qed.

End ListSortPerm.

Section ListSortSorted.
Context {A : Type} (lt : A → A → bool) (D : A → Prop).
Hypothesis lt_irrefl : ∀ x, lt x x = false.
Hypothesis lt_trans : ∀ x y z, lt x y = true → lt y z = true → lt x z = true.
Hypothesis lt_cotrans : ∀ x y z,
  D x → D y → D z → lt x z = true → lt x y = true ∨ lt y z = true.

Local Abbreviation le := (key_le lt).
Local Abbreviation tied := (key_tied lt).

Lemma lt_asym x y : lt x y = true → lt y x = false.
Proof.
  intros Hxy. destruct (lt y x) eqn:Hyx; [|done].
  pose proof (lt_trans _ _ _ Hxy Hyx) as H. by rewrite lt_irrefl in H.
Qed.

Lemma le_trans_D a b c : D a → D b → D c → le a b → le b c → le a c.
Proof.
  unfold key_le. intros Da Db Dc Hab Hbc.
  destruct (lt c a) eqn:Hca; [|done].
  destruct (lt_cotrans c b a) as [H|H]; auto; congruence.
Qed.

Lemma tied_trans a x b :
  D a → D x → D b → tied a x → tied x b → tied a b.
Proof.
  unfold key_tied. intros Da Dx Db [H1 H2] [H3 H4]. split.
  - destruct (lt a b) eqn:Hab; [|done].
    destruct (lt_cotrans a x b) as [H|H]; auto; congruence.
  - destruct (lt b a) eqn:Hba; [|done].
    destruct (lt_cotrans b x a) as [H|H]; auto; congruence.
Qed.

Lemma ssorted_lookup (R : relation A) a i j x y :
  StronglySorted R a → i < j → a !! i = Some x → a !! j = Some y → R x y.
Proof.
  intros Hs. revert i j. induction Hs as [|z a Hs IH Hall]; intros i j Hij Hi Hj.
  - done.
  - destruct j as [|j]; [lia|]. simpl in Hj. destruct i as [|i].
    + injection Hi as <-. rewrite Forall_lookup in Hall. eauto.
    + simpl in Hi. apply (IH i j); [lia|done..].
Qed.

Lemma bisect_S fuel pivot a l r :
  bisect lt (S fuel) pivot a l r
  = if l <? r then
      match a !! (l + (r - l) / 2) with
      | Some x => if lt pivot x then bisect lt fuel pivot a l (l + (r - l) / 2)
                  else bisect lt fuel pivot a (l + (r - l) / 2 + 1) r
      | None => l
      end
    else l.
Proof. done. Qed.

Lemma bisect_spec fuel pivot a :
  D pivot → Forall D a → StronglySorted le a →
  ∀ l r, l ≤ r → r ≤ length a → r - l ≤ fuel →
  (∀ j x, j < l → a !! j = Some x → lt pivot x = false) →
  (∀ j x, r ≤ j → a !! j = Some x → lt pivot x = true) →
  let i := bisect lt fuel pivot a l r in
  l ≤ i ∧ i ≤ r
  ∧ (∀ j x, j < i → a !! j = Some x → lt pivot x = false)
  ∧ (∀ j x, i ≤ j → a !! j = Some x → lt pivot x = true).
Proof.
  intros Dp Da Hs. rewrite Forall_lookup in Da.
  induction fuel as [|fuel IH]; intros l r Hlr Hr Hfuel Hlo Hhi; cbv zeta.
  - assert (l = r) as -> by lia. simpl. auto.
  - rewrite bisect_S. destruct (Nat.ltb_spec l r) as [Hlt|Hge];
      [|assert (l = r) as -> by lia; auto].
    pose proof (Nat.div_mod_eq (r - l) 2) as Hdiv.
    pose proof (Nat.mod_upper_bound (r - l) 2) as Hmod.
    set (p := l + (r - l) / 2) in *.
    assert (l ≤ p ∧ p < r) as [Hlp Hpr] by lia.
    destruct (lookup_lt_is_Some_2 a p) as [x Hx]; [lia|]. rewrite Hx.
    destruct (lt pivot x) eqn:Hpx.
    + destruct (IH l p) as (H1 & H2 & H3 & H4); [lia..|done| |].
      * intros j y Hj Hy. destruct (decide (j = p)) as [->|Hne];
          [congruence|].
        assert (le x y) as Hxy by (apply (ssorted_lookup le a p j); auto; lia).
        unfold key_le in Hxy.
        destruct (lt_cotrans pivot y x) as [H|H]; eauto; congruence.
      * repeat split; auto; lia.
    + destruct (IH (p + 1) r) as (H1 & H2 & H3 & H4); [lia..| |done|].
      * intros j y Hj Hy. destruct (decide (j = p)) as [->|Hne];
          [congruence|].
        assert (le y x) as Hyx by (apply (ssorted_lookup le a j p); auto; lia).
        destruct (lt pivot y) eqn:Hpy; [|done].
        unfold key_le in Hyx.
        destruct (lt_cotrans pivot x y) as [H|H]; eauto; congruence.
      * repeat split; auto; lia.
Qed.

Lemma binary_insert_split sorted pivot :
  D pivot → Forall D sorted → StronglySorted le sorted →
  ∃ i, binary_insert lt sorted pivot = take i sorted ++ pivot :: drop i sorted
       ∧ Forall (λ x, lt pivot x = false) (take i sorted)
       ∧ Forall (λ x, lt pivot x = true) (drop i sorted).
Proof.
  intros Dp Da Hs.
  destruct (bisect_spec (length sorted) pivot sorted Dp Da Hs 0 (length sorted))
    as (_ & _ & Hlo & Hhi); [lia..| | |].
  { intros j x Hj. lia. }
  { intros j x Hj Hx. apply lookup_lt_Some in Hx. lia. }
  eexists. split; [done|]. split; apply Forall_lookup; intros j x Hx.
  - apply lookup_take_Some in Hx as [Hx Hj]. eauto.
  - rewrite lookup_drop in Hx. eapply Hhi; [|done]. lia.
Qed.

Lemma binary_insert_sorted sorted pivot :
  D pivot → Forall D sorted → StronglySorted le sorted →
  StronglySorted le (binary_insert lt sorted pivot).
Proof.
  intros Dp Da Hs.
  destruct (binary_insert_split sorted pivot Dp Da Hs) as (i & -> & Hlo & Hhi).
  rewrite <- (take_drop i sorted) in Hs.
  apply StronglySorted_app in Hs as (Hcross & Hs1 & Hs2).
  rewrite Forall_forall in Hlo, Hhi.
  apply StronglySorted_app_2; [|done|].
  - intros x1 x2 H1 [->|H2]%elem_of_cons; [by apply Hlo|auto].
  - apply StronglySorted_cons. split; [|done].
    apply Forall_forall. intros y Hy. by apply lt_asym, Hhi.
Qed.

Lemma filter_none (P : A → Prop) `{∀ x, Decision (P x)} l :
  Forall (λ x, ¬ P x) l → filter P l = [].
Proof.
  induction 1 as [|x l Hx _ IH]; [done|]. by rewrite filter_cons_False.
Qed.

Lemma binary_insert_stable sorted pivot z :
  D pivot → Forall D sorted → StronglySorted le sorted → D z →
  filter (tied z) (binary_insert lt sorted pivot)
  = filter (tied z) (sorted ++ [pivot]).
Proof.
  intros Dp Da Hs Dz.
  destruct (binary_insert_split sorted pivot Dp Da Hs) as (i & -> & Hlo & Hhi).
  rewrite <- (take_drop i sorted) at 3.
  rewrite !filter_app, <- app_assoc. f_equal.
  destruct (decide (tied z pivot)) as [Ht|Ht].
  - rewrite !filter_cons_True by done.
    rewrite (filter_none (tied z) (drop i sorted)); [done|].
    assert (Forall D (drop i sorted)) as Dd by by apply Forall_drop.
    rewrite Forall_forall in Hhi, Dd. apply Forall_forall. intros y Hy Hzy.
    destruct (tied_trans pivot z y) as [H _]; auto.
    { destruct Ht. by split. }
    rewrite (Hhi y Hy) in H. done.
  - rewrite filter_cons_False by done.
    rewrite (filter_cons_False _ pivot) by done. by rewrite app_nil_r.
Qed.

Lemma binarysort_sorted_stable run rest :
  Forall D run → Forall D rest → StronglySorted le run →
  StronglySorted le (binarysort lt run rest)
  ∧ ∀ z, D z → filter (tied z) (binarysort lt run rest)
               = filter (tied z) (run ++ rest).
Proof.
  revert run. induction rest as [|p rest IH]; intros run Dr Drest Hs.
  - simpl. by rewrite app_nil_r.
  - apply Forall_cons in Drest as [Dp Drest]. rewrite binarysort_cons.
    destruct (IH (binary_insert lt run p)) as [Hs' Hst]; [|done| |].
    + rewrite binary_insert_perm. apply Forall_app. auto.
    + by apply binary_insert_sorted.
    + split; [done|]. intros z Dz.
      rewrite Hst, filter_app, binary_insert_stable by done.
      by rewrite <- filter_app, <- app_assoc.
Qed.

Lemma run_ascending_sorted prev l :
  D prev → Forall D l →
  StronglySorted le (prev :: take (run_ascending lt prev l) l).
Proof.
  intros Dp Dl. revert prev Dp.
  induction Dl as [|x l Dx Dl IH]; intros prev Dp; simpl.
  - repeat constructor.
  - destruct (lt x prev) eqn:Hx; simpl; [repeat constructor|].
    specialize (IH x Dx).
    pose proof IH as [Hall Hs]%StronglySorted_cons.
    apply StronglySorted_cons. split; [|done].
    constructor; [done|].
    assert (Forall D (take (run_ascending lt x l) l)) as Dt
      by by apply Forall_take.
    rewrite Forall_forall in Hall, Dt. apply Forall_forall. intros y Hy.
    apply (le_trans_D prev x y); auto.
Qed.

Lemma reverse_descending_sorted run :
  StronglySorted (λ a b, lt b a = true) run →
  StronglySorted le (reverse run).
Proof.
  induction 1 as [|x run _ IH Hall]; [constructor|].
  rewrite reverse_cons. apply StronglySorted_app_2; [|done|repeat constructor].
  intros y ? Hy ->%list_elem_of_singleton. rewrite elem_of_reverse in Hy.
  rewrite Forall_forall in Hall. unfold key_le. by apply lt_asym, Hall.
Qed.

Lemma filter_tied_descending run z :
  D z → Forall D run → StronglySorted (λ a b, lt b a = true) run →
  length (filter (tied z) run) ≤ 1.
Proof.
  intros Dz Dr Hs. induction Hs as [|x run _ IH Hall]; [simpl; lia|].
  apply Forall_cons in Dr as [Dx Dr].
  destruct (decide (tied z x)) as [Ht|Ht].
  - rewrite filter_cons_True by done.
    rewrite (filter_none (tied z) run); [simpl; lia|].
    rewrite Forall_forall in Hall, Dr. apply Forall_forall. intros y Hy Hzy.
    destruct (tied_trans x z y) as [_ H]; auto.
    { destruct Ht. by split. }
    rewrite (Hall y Hy) in H. done.
  - rewrite filter_cons_False by done. auto.
Qed.

Lemma reverse_short (l : list A) : length l ≤ 1 → reverse l = l.
Proof. destruct l as [|x [|y l]]; simpl; [done..|lia]. Qed.

(** Where [<] is a strict weak order on the elements, [list_sort] sorts
    and keeps the elements that are tied in the order they had. *)
Lemma list_sort_sorted_stable l :
  Forall D l →
  StronglySorted le (list_sort lt l)
  ∧ ∀ z, D z → filter (tied z) (list_sort lt l) = filter (tied z) l.
Proof.
  intros Dl. destruct l as [|x [|y l]]; [by repeat constructor..|].
  unfold list_sort.
  destruct (count_run lt (x :: y :: l)) as [n d] eqn:Hrun.
  pose proof (count_run_take lt x y l n d Hrun) as Htake.
  pose proof (take_drop n (x :: y :: l)) as Hsplit.
  assert (Forall D (take n (x :: y :: l))) as Dt by by apply Forall_take.
  assert (Forall D (drop n (x :: y :: l))) as Dd by by apply Forall_drop.
  apply Forall_cons in Dl as [Dx Dl].
  destruct d.
  - assert (StronglySorted (λ a b, lt b a = true) (take n (x :: y :: l)))
      as Hdesc by (rewrite Htake; by apply run_descending_sorted).
    destruct (binarysort_sorted_stable (reverse (take n (x :: y :: l)))
                (drop n (x :: y :: l))) as [Hs Hst];
      [by apply Forall_reverse|done|by apply reverse_descending_sorted|].
    split; [done|]. intros z Dz.
    rewrite Hst, filter_app, filter_reverse by done.
    rewrite reverse_short by by apply filter_tied_descending.
    by rewrite <- filter_app, Hsplit.
  - destruct (binarysort_sorted_stable (take n (x :: y :: l))
                (drop n (x :: y :: l))) as [Hs Hst]; [done..| |].
    + rewrite Htake. by apply run_ascending_sorted.
    + split; [done|]. intros z Dz. by rewrite Hst, Hsplit.
Qed.

End ListSortSorted.

(** [list_sort] on the images of a list is the image of [list_sort] with
    the comparison taken on the images. *)
Section ListSortFmap.
Context {A B : Type} (f : A → B) (lt : B → B → bool).

Local Abbreviation lt' := (λ a b, lt (f a) (f b)).

Lemma run_ascending_fmap prev l :
  run_ascending lt (f prev) (f <$> l) = run_ascending lt' prev l.
Proof.
  revert prev. induction l as [|x l IH]; intros prev; simpl; [done|].
  destruct (lt (f x) (f prev)); [done|]. by rewrite IH.
Qed.

Lemma run_descending_fmap prev l :
  run_descending lt (f prev) (f <$> l) = run_descending lt' prev l.
Proof.
  revert prev. induction l as [|x l IH]; intros prev; simpl; [done|].
  destruct (lt (f x) (f prev)); [|done]. by rewrite IH.
Qed.

Lemma count_run_fmap l : count_run lt (f <$> l) = count_run lt' l.
Proof.
  destruct l as [|x [|y l]]; [done..|]. simpl.
  change (fmap f l) with (f <$> l).
  by rewrite run_ascending_fmap, run_descending_fmap.
Qed.

Lemma bisect_fmap fuel pivot a l r :
  bisect lt fuel (f pivot) (f <$> a) l r = bisect lt' fuel pivot a l r.
Proof.
  revert l r. induction fuel as [|fuel IH]; intros l r; simpl; [done|].
  destruct (l <? r); [|done]. rewrite list_lookup_fmap.
  destruct (a !! _) as [x|]; simpl; [|done]. by rewrite !IH.
Qed.

Lemma binary_insert_fmap sorted pivot :
  binary_insert lt (f <$> sorted) (f pivot)
  = f <$> binary_insert lt' sorted pivot.
Proof.
  unfold binary_insert.
  by rewrite length_fmap, bisect_fmap, fmap_app, fmap_cons, fmap_take, fmap_drop.
Qed.

Lemma binarysort_fmap run rest :
  binarysort lt (f <$> run) (f <$> rest) = f <$> binarysort lt' run rest.
Proof.
  revert run. induction rest as [|p rest IH]; intros run; [done|].
  rewrite fmap_cons, !binarysort_cons, binary_insert_fmap. apply IH.
Qed.

Lemma list_sort_fmap l : list_sort lt (f <$> l) = f <$> list_sort lt' l.
Proof.
  destruct l as [|x [|y l]]; [done..|].
  unfold list_sort. rewrite !fmap_cons, <- !fmap_cons, count_run_fmap.
  destruct (count_run lt' (x :: y :: l)) as [n d].
  rewrite <- fmap_take, <- fmap_drop.
  destruct d; [rewrite <- fmap_reverse|]; apply binarysort_fmap.
Qed.

End ListSortFmap.

(** The result of [list_sort] does not depend on the order of the input
    when no two elements are tied. *)
Section ListSortUnique.
Context {A : Type} (lt : A → A → bool).
Hypothesis lt_irrefl : ∀ x, lt x x = false.
Hypothesis lt_trans : ∀ x y z, lt x y = true → lt y z = true → lt x z = true.

Lemma list_sort_permutation_eq l l' :
  l ≡ₚ l' →
  (∀ x y, x ∈ l → y ∈ l → x = y ∨ lt x y = true ∨ lt y x = true) →
  list_sort lt l' = list_sort lt l.
Proof.
  intros Hperm Htri.
  assert (∀ x y z, x ∈ l → y ∈ l → z ∈ l →
          lt x z = true → lt x y = true ∨ lt y z = true) as Hcot.
  { intros x y z Hx Hy Hz Hxz.
    destruct (Htri x y Hx Hy) as [->|[H|H]]; eauto. }
  destruct (list_sort_sorted_stable lt (.∈ l) lt_irrefl lt_trans Hcot l)
    as [Hs _]; [by apply Forall_forall|].
  destruct (list_sort_sorted_stable lt (.∈ l) lt_irrefl lt_trans Hcot l')
    as [Hs' _]; [rewrite <- Hperm; by apply Forall_forall|].
  apply (StronglySorted_unique_strong (key_le lt)); [|done..|].
  - intros x y Hx Hy Hxy Hyx. unfold key_le in *.
    rewrite list_sort_perm in Hx, Hy. rewrite <- Hperm in Hx.
    destruct (Htri x y Hx Hy) as [->|[H|H]]; [done|congruence..].
  - by rewrite !list_sort_perm.
Qed.

End ListSortUnique.

(** ** Enrichment of one row *)

Section EnrichProofs.
Context {PF : PyFloat}.

(** The orientation, case by case. *)
Lemma orientation_of_spec (base : row) s8 s9 :
  base !! 8 = Some s8 → base !! 9 = Some s9 →
  orientation_of base
  = Ok (match py_float s8, py_float s9 with
        | Some a, Some b => if flt a b then "plus" else "minus"
        | _, _ => "minus"
        end).
Proof.
  intros H8 H9. unfold orientation_of, py_index, float_of.
  rewrite H8. simpl. destruct (py_float s8); simpl; [|done].
  rewrite H9. simpl. by destruct (py_float s9).
Qed.

(** The twenty fields of the enriched row of a row of thirteen. *)
Lemma enrich_row_13 genes contig_len_map
    (b0 b1 b2 b3 b4 b5 b6 b7 b8 b9 b10 b11 b12 : string) :
  let base := [b0; b1; b2; b3; b4; b5; b6; b7; b8; b9; b10; b11; b12] in
  let g := default (fnan, fnan, Some "") (genes !! b0) in
  enrich_row genes contig_len_map base
  = (orientation ← orientation_of base;
     Ok [b0; b1; b2; b3; b4; b5; b6; b7; b8; b9;
         py_str g.1.1; py_str g.1.2; b10; b11; b12;
         str_of_value g.2; py_str g.1.1; py_str g.1.2; orientation;
         py_str (default fnan (contig_len_map !! b1))]).
Proof.
  intros base g. unfold enrich_row.
  destruct (orientation_of base) as [o|e]; [|done]. simpl.
  fold g. by destruct g as [[start stop] scaff].
Qed.

Lemma row_map_fields_spec (base : row) :
  row_map_fields base
  = if 20 <=? length base then Ok (take 20 base)
    else Raise (IndexError "list index out of range").
Proof. do 20 (destruct base as [|? base]; [done|]). done. Qed.

Lemma py_index_raise {A} (l : list A) i e :
  py_index l i = Raise e → e = IndexError "list index out of range".
Proof. unfold py_index. destruct (l !! i); congruence. Qed.

Lemma orientation_of_raise (base : row) e :
  orientation_of base = Raise e → e = IndexError "list index out of range".
Proof.
  unfold orientation_of, py_index, float_of.
  destruct (base !! 8) as [s8|]; simpl; [|congruence].
  destruct (py_float s8); simpl; [|done].
  destruct (base !! 9) as [s9|]; simpl; [|congruence].
  destruct (py_float s9); simpl; done.
Qed.

(** An enriched row has twenty fields, and the enrichment of a row fails
    in one way only. *)
Lemma enrich_row_cases genes contig_len_map (base : row) :
  (∃ e, enrich_row genes contig_len_map base = Ok e ∧ length e = 20)
  ∨ enrich_row genes contig_len_map base
    = Raise (IndexError "list index out of range").
Proof.
  unfold enrich_row.
  destruct (orientation_of base) as [o|e] eqn:Ho; simpl;
    [|right; by rewrite (orientation_of_raise _ _ Ho)].
  destruct (py_index base 0) as [qname|e] eqn:H0; simpl;
    [|right; by rewrite (py_index_raise _ _ _ H0)].
  destruct (default _ (genes !! qname)) as [[start stop] scaff].
  destruct (py_index base 1) as [subj|e] eqn:H1; simpl;
    [|right; by rewrite (py_index_raise _ _ _ H1)].
  rewrite row_map_fields_spec.
  match goal with
  | |- context [20 <=? ?n] => destruct (Nat.leb_spec 20 n) as [Hlen|Hlen]
  end; [left|by right].
  eexists. split; [done|]. rewrite length_take. lia.
Qed.

Lemma srt_enriched (e : row) :
  length e = 20 → srt 10 e = Ok (sort_key_spec e).
Proof.
  intros Hlen. destruct (lookup_lt_is_Some_2 e 10) as [s Hs]; [lia|].
  unfold srt, sort_key_spec, py_index, float_of. rewrite Hs. simpl.
  by destruct (py_float s).
Qed.

End EnrichProofs.

(** ** The rows written *)

Section StageProofs.
Context {PF : PyFloat}.

Lemma for_each_list_comp {A B} (f : A → pyresult B) (l : list A) acc :
  for_each l acc (λ out x, r ← f x; mret (out ++ [r]))
  = (ys ← list_comp f l; mret (acc ++ ys)).
Proof.
  revert acc. induction l as [|x l IH]; intros acc.
  - simpl. by rewrite app_nil_r.
  - rewrite for_each_cons. simpl. destruct (f x) as [y|e]; simpl; [|done].
    rewrite IH. destruct (list_comp f l); simpl; [|done].
    by rewrite <- app_assoc.
Qed.

Lemma list_comp_all_Ok {A B} (f : A → pyresult B) (l : list A) :
  Forall (λ x, is_Some (ok_value f x)) l →
  list_comp f l = Ok (omap (ok_value f) l).
Proof.
  induction 1 as [|x l [y Hy] _ IH]; [done|]. simpl. rewrite Hy, IH.
  unfold ok_value in Hy. by destruct (f x); simplify_eq.
Qed.

Lemma list_comp_Ok {A B} (f : A → pyresult B) (l : list A) ys :
  list_comp f l = Ok ys → Forall (λ x, is_Some (ok_value f x)) l.
Proof.
  revert ys. induction l as [|x l IH]; intros ys; simpl; [by constructor|].
  destruct (f x) as [y|e] eqn:Hx; simpl; [|done].
  destruct (list_comp f l) as [ys'|e]; simpl; [|done].
  intros _. constructor; [|by eapply IH].
  unfold ok_value. rewrite Hx. eauto.
Qed.

Lemma list_comp_Raise {A B} (f : A → pyresult B) (l : list A) e :
  list_comp f l = Raise e → ∃ x, x ∈ l ∧ f x = Raise e.
Proof.
  induction l as [|x l IH]; simpl; [done|].
  destruct (f x) as [y|e'] eqn:Hx; simpl.
  - destruct (list_comp f l) as [ys'|e']; simpl; [done|].
    intros [= ->]. destruct IH as (x' & Hin & Hx'); [done|].
    exists x'. split; [by right|done].
  - intros [= ->]. exists x. split; [by left|done].
Qed.

(** A comprehension over a list in another order: the same values in
    another order, or the same failure where there is one failure only. *)
Lemma list_comp_perm {A B} (f : A → pyresult B) (l l' : list A) e0 :
  (∀ x e, f x = Raise e → e = e0) → l ≡ₚ l' →
  (list_comp f l = Ok (omap (ok_value f) l)
   ∧ list_comp f l' = Ok (omap (ok_value f) l'))
  ∨ (list_comp f l = Raise e0 ∧ list_comp f l' = Raise e0).
Proof.
  intros Hfail Hperm.
  destruct (list_comp f l) as [ys|e] eqn:Hl.
  - left. pose proof (list_comp_Ok f l ys Hl) as Hall.
    rewrite <- (list_comp_all_Ok f l Hall), Hl. split; [done|].
    apply list_comp_all_Ok. by rewrite <- Hperm.
  - right. destruct (list_comp_Raise f l e Hl) as (x & Hx & Hfx).
    rewrite (Hfail x e Hfx). split; [done|].
    destruct (list_comp f l') as [ys'|e'] eqn:Hl'.
    + pose proof (list_comp_Ok f l' ys' Hl') as Hall.
      rewrite <- Hperm in Hall. rewrite Forall_forall in Hall.
      destruct (Hall x Hx) as [y Hy]. unfold ok_value in Hy.
      by rewrite Hfx in Hy.
    + destruct (list_comp_Raise f l' e' Hl') as (x' & _ & Hfx').
      by rewrite (Hfail x' e' Hfx').
Qed.

Lemma list_comp_fmap {A B} (f : A → pyresult B) (g : A → B) (l : list A) :
  Forall (λ x, f x = Ok (g x)) l → list_comp f l = Ok (g <$> l).
Proof. induction 1 as [|x l Hx _ IH]; [done|]. simpl. by rewrite Hx, IH. Qed.

Lemma zip_fmap_l {A B} (g : A → B) (l : list A) :
  zip (g <$> l) l = (λ x, (g x, x)) <$> l.
Proof. induction l as [|x l IH]; [done|]. simpl. by f_equal. Qed.

(** The sort of twenty-field rows is the sort by the key of the
    specification. *)
Lemma sort_rows_enriched (out_rows : list row) :
  Forall (λ e, length e = 20) out_rows →
  sort_rows 10 out_rows
  = Ok (list_sort (λ r1 r2, flt (sort_key_spec r1) (sort_key_spec r2)) out_rows).
Proof.
  intros Hall. unfold sort_rows.
  rewrite (list_comp_fmap (srt 10) sort_key_spec).
  - simpl. f_equal. rewrite zip_fmap_l.
    rewrite (list_sort_fmap (λ e, (sort_key_spec e, e)) (λ a b, flt a.1 b.1)).
    rewrite <- list_fmap_compose. apply list_fmap_id.
  - eapply Forall_impl; [exact Hall|]. apply srt_enriched.
Qed.

Lemma enrich_rows_eq genes contig_len_map (base_rows : list row) :
  enrich_rows genes contig_len_map base_rows
  = (out_rows ← list_comp (enrich_row genes contig_len_map)
                          (dedup_rows base_rows);
     sort_rows 10 out_rows).
Proof.
  unfold enrich_rows. rewrite for_each_list_comp.
  by destruct (list_comp _ _).
Qed.

Lemma enrich_row_Ok_length genes contig_len_map (r e : row) :
  enrich_row genes contig_len_map r = Ok e → length e = 20.
Proof.
  intros He. destruct (enrich_row_cases genes contig_len_map r)
    as [(e' & He' & Hlen)|Hr]; congruence.
Qed.

Lemma elem_of_ok_values genes contig_len_map (rows : list row) e :
  e ∈ omap (ok_value (enrich_row genes contig_len_map)) rows →
  ∃ r, r ∈ rows ∧ enrich_row genes contig_len_map r = Ok e.
Proof.
  intros (r & Hr & He)%list_elem_of_omap. exists r. split; [done|].
  unfold ok_value in He. destruct (enrich_row _ _ r); congruence.
Qed.

Lemma dedup_rows_perm (rows rows' : list row) :
  rows ≡ₚ rows' → dedup_rows rows ≡ₚ dedup_rows rows'.
Proof.
  intros Hperm. rewrite !dedup_rows_first_occurrences.
  apply NoDup_Permutation; [apply NoDup_first_occurrences..|].
  intros r. rewrite !elem_of_first_occurrences. by rewrite Hperm.
Qed.

(** The rows written for a list of rows and for the list in another
    order: the same rows in some order, or the same failure. *)
Lemma enrich_rows_perm genes contig_len_map (rows rows' : list row) :
  rows ≡ₚ rows' →
  match enrich_rows genes contig_len_map rows,
        enrich_rows genes contig_len_map rows' with
  | Ok out, Ok out' => out ≡ₚ out'
  | Raise e, Raise e' => e = e'
  | _, _ => False
  end.
Proof.
  intros Hperm%dedup_rows_perm. rewrite !enrich_rows_eq.
  destruct (list_comp_perm (enrich_row genes contig_len_map) _ _
              (IndexError "list index out of range")
              ltac:(intros r e He;
                    destruct (enrich_row_cases genes contig_len_map r)
                      as [(? & ? & _)|?]; congruence) Hperm)
    as [[-> ->]|[-> ->]]; simpl; [|done].
  rewrite !sort_rows_enriched.
  - by rewrite !list_sort_perm, Hperm.
  - apply Forall_forall. intros e (r & _ & He)%elem_of_ok_values.
    by eapply enrich_row_Ok_length.
  - apply Forall_forall. intros e (r & _ & He)%elem_of_ok_values.
    by eapply enrich_row_Ok_length.
Qed.

(** The same sequence of rows where no two different rows tie. *)
Lemma enrich_rows_perm_eq {PL : PyFloatLaws PF}
    genes contig_len_map (rows rows' : list row) :
  rows ≡ₚ rows' → distinct_keys genes contig_len_map rows →
  enrich_rows genes contig_len_map rows'
  = enrich_rows genes contig_len_map rows.
Proof.
  intros Hrows Hkeys. pose proof (dedup_rows_perm _ _ Hrows) as Hperm.
  rewrite !enrich_rows_eq.
  destruct (list_comp_perm (enrich_row genes contig_len_map) _ _
              (IndexError "list index out of range")
              ltac:(intros r e He;
                    destruct (enrich_row_cases genes contig_len_map r)
                      as [(? & ? & _)|?]; congruence) Hperm)
    as [[-> ->]|[-> ->]]; simpl; [|done].
  rewrite !sort_rows_enriched.
  - f_equal. apply list_sort_permutation_eq.
    + intros x. apply flt_irrefl.
    + intros x y z. apply flt_trans.
    + by rewrite Hperm.
    + intros e1 e2 (r1 & Hr1 & He1)%elem_of_ok_values
        (r2 & Hr2 & He2)%elem_of_ok_values.
      destruct (decide (r1 = r2)) as [->|Hne]; [left; congruence|right].
      apply (Hkeys r1 r2); try done.
      * by apply elem_of_dedup_rows.
      * by apply elem_of_dedup_rows.
  - apply Forall_forall. intros e (r & _ & He)%elem_of_ok_values.
    by eapply enrich_row_Ok_length.
  - apply Forall_forall. intros e (r & _ & He)%elem_of_ok_values.
    by eapply enrich_row_Ok_length.
Qed.

(** Where no key is NaN the rows come out in ascending order of the key of
    the specification, a row whose genomic_start does not parse counting
    as +infinity, and the rows that tie keep the order they had. *)
Lemma sort_rows_sorted_stable {PL : PyFloatLaws PF} (out_rows : list row) :
  Forall (λ e, length e = 20) out_rows →
  Forall (λ e, fisnan (sort_key_spec e) = false) out_rows →
  ∃ sorted,
    sort_rows 10 out_rows = Ok sorted
    ∧ sorted ≡ₚ out_rows
    ∧ StronglySorted
        (λ r1 r2, flt (sort_key_spec r2) (sort_key_spec r1) = false) sorted
    ∧ ∀ z, fisnan (sort_key_spec z) = false →
        filter (λ r, flt (sort_key_spec z) (sort_key_spec r) = false
                     ∧ flt (sort_key_spec r) (sort_key_spec z) = false) sorted
        = filter (λ r, flt (sort_key_spec z) (sort_key_spec r) = false
                       ∧ flt (sort_key_spec r) (sort_key_spec z) = false)
                 out_rows.
Proof.
  intros Hlen Hnan. rewrite sort_rows_enriched by done.
  eexists. split; [done|]. split; [apply list_sort_perm|].
  apply (list_sort_sorted_stable
           (λ r1 r2, flt (sort_key_spec r1) (sort_key_spec r2))
           (λ r, fisnan (sort_key_spec r) = false)); [| | |done].
  - intros x. apply flt_irrefl.
  - intros x y z. apply flt_trans.
  - intros x y z _ Hy _. by apply flt_cotrans.
Qed.

End StageProofs.

(** C3, as amended.  Giving the Enricher/Writer stage the accumulated rows
    in another order changes at most the order of the rows it writes: the
    two runs fail alike or write the same rows in some order.  When no two
    different rows tie in the sort (of their genomic_start keys one is
    less than the other), the two runs print and write exactly the
    same. *)
Theorem enrich_and_write_input_order
    {PF : PyFloat} {PL : PyFloatLaws PF}
    (subdir : string) (rows rows' : list row)
    (contig_len_map : gmap string float)
    (genes_path : string) (genes_file : option dict_source) :
  rows ≡ₚ rows' →
  (∀ genes, match enrich_rows genes contig_len_map rows,
                  enrich_rows genes contig_len_map rows' with
            | Ok out, Ok out' => out ≡ₚ out'
            | Raise e, Raise e' => e = e'
            | _, _ => False
            end)
  ∧ ((∀ genes t, genes_of genes_path genes_file = (Ok genes, t) →
                 distinct_keys genes contig_len_map rows) →
     enrich_and_write subdir rows' contig_len_map genes_path genes_file
     = enrich_and_write subdir rows contig_len_map genes_path genes_file).
Proof.
  intros Hperm. split.
  - intros genes. by apply enrich_rows_perm.
  - intros Hkeys. unfold enrich_and_write, io_bind.
    destruct (genes_of genes_path genes_file) as [[genes|e] t] eqn:Hg;
      [|done].
    by rewrite (enrich_rows_perm_eq genes contig_len_map rows rows' Hperm
                  (Hkeys genes t eq_refl)).
Qed.

(** C6. For a row of thirteen fields the Enricher sets the orientation
    field (index 18 of the enriched row) to "plus" exactly when the
    subject_start field (index 8) and the subject_end field (index 9) both
    parse as floats and the first is less than the second; in every other
    case, a field that does not parse included, it is "minus". *)
Theorem enrich_row_orientation
    {PF : PyFloat} (genes : gmap string (float * float * option string))
    (contig_len_map : gmap string float) (base : row) (s8 s9 : string) :
  length base = 13 → base !! 8 = Some s8 → base !! 9 = Some s9 →
  ∃ out o,
    enrich_row genes contig_len_map base = Ok out
    ∧ out !! 18 = Some o
    ∧ (o = "plus" ↔
       ∃ a b, py_float s8 = Some a ∧ py_float s9 = Some b ∧ flt a b = true)
    ∧ (o ≠ "plus" → o = "minus").
Proof.
  intros Hlen H8 H9.
  do 13 (destruct base as [|? base]; try discriminate Hlen).
  destruct base; [|discriminate Hlen].
  rewrite enrich_row_13, (orientation_of_spec _ s8 s9) by done.
  simpl. eexists _, _. split; [done|]. split; [done|].
  destruct (py_float s8) as [a|], (py_float s9) as [b|];
    try (split; [split; [done|by intros (? & ? & ? & ? & ?)]|done]).
  destruct (flt a b) eqn:Hab.
  - split; [|done]. split; [eauto|done].
  - split; [|done]. split; [done|].
    intros (a' & b' & [= <-] & [= <-] & Hlt). congruence.
Qed.

(** ** Parallel Dispatcher *)

Section MainProofs.
Context {PF : PyFloat}.




Lemma io_bind_Ok {A B} (m : io A) (f : A → io B) b t :
  io_bind m f = (Ok b, t) →
  ∃ a t1 t2, m = (Ok a, t1) ∧ f a = (Ok b, t2) ∧ t = t1 ++ t2.
Proof.
  unfold io_bind. destruct m as [[a|e] t1]; [|done].
  destruct (f a) as [r t2] eqn:Hf. intros [= -> <-]. by eexists _, _, _.
Qed.

Lemma io_bind_trace {A B} (m : io A) (f : A → io B) ev :
  ev ∈ (io_bind m f).2 → ev ∈ m.2 ∨ ∃ a, m.1 = Ok a ∧ ev ∈ (f a).2.
Proof.
  unfold io_bind. destruct m as [[a|e] t1]; simpl; [|auto].
  destruct (f a) as [r t2] eqn:Hf. simpl.
  intros [H|H]%elem_of_app; [auto|]. right. exists a. by rewrite Hf.
Qed.

Lemma io_for_each_trace {A} (l : list A) (body : A → io unit) ev :
  ev ∈ (io_for_each l body).2 → ∃ x, x ∈ l ∧ ev ∈ (body x).2.
Proof.
  induction l as [|x l IH]; simpl.
  - by intros ?%elem_of_nil.
  - intros [H|(_ & _ & H)]%io_bind_trace.
    + exists x. split; [by left|done].
    + destruct (IH H) as (x' & Hin & Hev). exists x'. split; [by right|done].
Qed.

Lemma io_for_each_Ok {A} (l : list A) (body : A → io unit) t x :
  io_for_each l body = (Ok (), t) → x ∈ l →
  ∃ tx, body x = (Ok (), tx) ∧ ∀ ev, ev ∈ tx → ev ∈ t.
Proof.
  revert t. induction l as [|y l IH]; intros t Hrun Hin.
  - by apply elem_of_nil in Hin.
  - simpl in Hrun.
    apply io_bind_Ok in Hrun as ([] & t1 & t2 & Hy & Hl & ->).
    apply elem_of_cons in Hin as [->|Hin].
    + exists t1. split; [done|]. intros ev ?. apply elem_of_app. auto.
    + destruct (IH t2 Hl Hin) as (tx & Hx & Hsub). exists tx.
      split; [done|]. intros ev ?. apply elem_of_app. auto.
Qed.

Lemma filter_one_file_io path src p2 p3 p4 p5 :
  ∃ rows t, filter_one_file path src p2 p3 p4 p5 = (Ok rows, t)
            ∧ Forall is_print t.
Proof.
  unfold filter_one_file.
  destruct (filter_try path src p2 p3 p4 p5); simpl; eauto 6.
  eexists _, _. split; [done|]. by repeat constructor.
Qed.

(** What [enrich_and_write] writes: one file, the header and the rows. *)
Lemma enrich_and_write_trace subdir rows contig_len_map genes_path genes_file ev :
  ev ∈ (enrich_and_write subdir rows contig_len_map genes_path genes_file).2 →
  is_print ev
  ∨ ∃ genes out,
      enrich_rows genes contig_len_map rows = Ok out
      ∧ ev = WriteFile (path_join subdir "contigs_of_interest.csv")
                       (FINAL_HEADER :: out).
Proof.
  unfold enrich_and_write.
  intros [Hg|(genes & _ & H)]%io_bind_trace.
  - left. unfold genes_of in Hg. destruct genes_file as [src|]; simpl in Hg.
    + by apply elem_of_nil in Hg.
    + unfold io_bind in Hg. simpl in Hg.
      by apply list_elem_of_singleton in Hg as ->.
  - apply io_bind_trace in H as [H|(out & Hout & H)].
    + by apply elem_of_nil in H.
    + apply io_bind_trace in H as [H|(_ & _ & H)].
      * right. apply list_elem_of_singleton in H. simpl in Hout. eauto.
      * left. by apply list_elem_of_singleton in H as ->.
Qed.

Lemma enrich_and_write_empty subdir contig_len_map genes_path genes_file t :
  enrich_and_write subdir [] contig_len_map genes_path genes_file = (Ok (), t) →
  WriteFile (path_join subdir "contigs_of_interest.csv") [FINAL_HEADER] ∈ t.
Proof.
  unfold enrich_and_write. intros H.
  apply io_bind_Ok in H as (genes & t1 & t2 & _ & H & ->).
  apply io_bind_Ok in H as (out & t3 & t4 & Hout & H & ->).
  injection Hout as <- <-.
  apply io_bind_Ok in H as ([] & t5 & t6 & Hw & _ & ->).
  injection Hw as <-. apply elem_of_app. right. simpl. by left.
Qed.

Lemma extend_dir_keys by_dir_rows sd rows :
  (extend_dir by_dir_rows sd rows).*1 = by_dir_rows.*1.
Proof.
  induction by_dir_rows as [|[d rs] l IH]; simpl; [done|].
  destruct (String.eqb (sd_path d) sd); simpl; [done|]. f_equal. apply IH.
Qed.

Lemma extend_dir_other by_dir_rows sd rows d rs :
  (d, rs) ∈ extend_dir by_dir_rows sd rows → sd_path d ≠ sd →
  (d, rs) ∈ by_dir_rows.
Proof.
  induction by_dir_rows as [|[d' rs'] l IH]; simpl; [done|].
  destruct (String.eqb_spec (sd_path d') sd) as [Heq|Hne].
  - intros [[= -> ->]|H]%elem_of_cons Hd; [done|by right].
  - intros [[= -> ->]|H]%elem_of_cons Hd; [by left|right; auto].
Qed.

(** The loop over the finished tasks never raises, prints at most, keeps
    the directories, and leaves a directory empty when all its files give
    an empty result. *)
Lemma collect_spec p futures completion by_dir_rows key :
  ∃ by_dir_rows' t,
    collect p futures completion by_dir_rows = (Ok by_dir_rows', t)
    ∧ Forall is_print t
    ∧ by_dir_rows'.*1 = by_dir_rows.*1
    ∧ ((∀ i fp src, futures !! i = Some (key, (fp, src)) →
          (filter_one_file fp src (parm2 p) (parm3 p) (parm4 p) (parm5 p)).1
          = Ok []) →
       (∀ d rs, (d, rs) ∈ by_dir_rows → sd_path d = key → rs = []) →
       ∀ d rs, (d, rs) ∈ by_dir_rows' → sd_path d = key → rs = []).
Proof.
  revert by_dir_rows.
  induction completion as [|i completion IH]; intros by_dir_rows; simpl.
  - exists by_dir_rows, []. repeat split; auto.
  - destruct (futures !! i) as [[sd [fp src]]|] eqn:Hi; [|apply IH].
    destruct (filter_one_file_io fp src (parm2 p) (parm3 p) (parm4 p) (parm5 p))
      as (rows & t1 & Hf & Ht1).
    unfold io_bind. rewrite Hf.
    destruct (IH (match rows with
                  | [] => by_dir_rows
                  | _ :: _ => extend_dir by_dir_rows sd rows
                  end)) as (bdr & t2 & -> & Ht2 & Hkeys & Hinv).
    exists bdr, (t1 ++ t2). split; [done|]. split; [by apply Forall_app|].
    split.
    + rewrite Hkeys. destruct rows; [done|apply extend_dir_keys].
    + intros Hempty Hinit. apply Hinv; [done|].
      destruct rows as [|r rows]; [done|].
      intros d rs Hin Hd. apply (Hinit d rs); [|done].
      apply (extend_dir_other _ sd (r :: rows)); [done|].
      intros Heq. rewrite <- Heq, Hd in Hi.
      specialize (Hempty i fp src Hi). rewrite Hf in Hempty. done.
Qed.




Lemma enrich_rows_nil genes contig_len_map :
  enrich_rows genes contig_len_map [] = Ok [].
Proof. done. Qed.

End MainProofs.

(** * The theorems on the sample inputs *)

Section FilterWitnesses.
Import Dec Sample.

Lemma filter_one_file_first_tier_witness :
  ∃ out,
    filter_one_file "2L/queries/a.csv" a_csv p2 p3 p4 p5 = (Ok out, [])
    ∧ (tier_spec [row_a; row_b; row_c] gl_1000 p3 ≠ [] →
       out = tier_spec [row_a; row_b; row_c] gl_1000 p3)
    ∧ (tier_spec [row_a; row_b; row_c] gl_1000 p3 = [] →
       tier_spec [row_a; row_b; row_c] gl_1000 p4 ≠ [] →
       out = tier_spec [row_a; row_b; row_c] gl_1000 p4)
    ∧ (tier_spec [row_a; row_b; row_c] gl_1000 p3 = [] →
       tier_spec [row_a; row_b; row_c] gl_1000 p4 = [] →
       out = tier_spec [row_a; row_b; row_c] gl_1000 p5)
    ∧ (tier_spec [row_a; row_b; row_c] gl_1000 p3 = [] →
       tier_spec [row_a; row_b; row_c] gl_1000 p4 = [] →
       tier_spec [row_a; row_b; row_c] gl_1000 p5 = [] → out = []).
Proof.
  apply (filter_one_file_first_tier (PL := DecLaws.dec_laws)
           "2L/queries/a.csv" [row_a; row_b; row_c] row_a "1000"
           gl_1000 p2 p3 p4 p5).
  - repeat constructor.
  - reflexivity.
  - reflexivity.
  - vm_compute. reflexivity.
  - vm_compute. reflexivity.
Defined.

(** The scenario of the specification: the tier of parm3 is empty, the
    row of length 600 is the tier of parm4. *)
Example filter_one_file_scenario :
  filter_one_file "2L/queries/a.csv" a_csv p2 p3 p4 p5 = (Ok [row_a], []).
Proof. vm_compute. reflexivity. Qed.

(** A row of two fields in the file: one warning, no row. *)
Example filter_one_file_short_row :
  filter_one_file "2L/queries/c.csv"
    {| src_records := [row_a; ["g1"; "ctgA"]; row_b]; src_error := None |}
    p2 p3 p4 p5
  = (Ok [],
     [Print "[warn] 2L/queries/c.csv: 2L/queries/c.csv: expected 13 columns, got 2"]).
Proof. vm_compute. reflexivity. Qed.

(** A file that cannot be opened: the message of the error, no row. *)
Example filter_one_file_unreadable :
  filter_one_file "2L/queries/d.csv"
    {| src_records := [];
       src_error := Some (OSError "[Errno 13] Permission denied") |}
    p2 p3 p4 p5
  = (Ok [],
     [Print "[warn] 2L/queries/d.csv: [Errno 13] Permission denied"]).
Proof. vm_compute. reflexivity. Qed.

Lemma filter_one_file_gate_closed_witness :
  (filter_one_file "2L/queries/a.csv" a_csv gl_1000 p3 p4 p5).1 = Ok []
  ∧ (filter_one_file "2L/queries/b.csv" b_csv p2 p3 p4 p5).1 = Ok []
  ∧ (filter_one_file "2L/queries/e.csv" empty_csv p2 p3 p4 p5).1 = Ok [].
Proof.
  split; [|split].
  - apply (filter_one_file_gate_closed "2L/queries/a.csv" a_csv
             gl_1000 p3 p4 p5).
    right. exists row_a, "1000". split; [reflexivity|]. split; [reflexivity|].
    right. exists gl_1000. split; vm_compute; reflexivity.
  - apply (filter_one_file_gate_closed "2L/queries/b.csv" b_csv p2 p3 p4 p5).
    right. exists row_na, "NA". split; [reflexivity|]. split; [reflexivity|].
    left. vm_compute. reflexivity.
  - apply (filter_one_file_gate_closed "2L/queries/e.csv" empty_csv
             p2 p3 p4 p5).
    left. reflexivity.
Defined.

End FilterWitnesses.

Section EnrichWitnesses.
Import Dec Sample.

(** The orientation rule of the specification: 100 and 700 give plus,
    900 and 800 give minus, NA and 300 give minus. *)
Example orientation_of_samples :
  orientation_of (PF := dec_float) row_a = Ok "plus"
  ∧ orientation_of (PF := dec_float) row_b = Ok "minus"
  ∧ orientation_of (PF := dec_float) row_c = Ok "minus".
Proof. vm_compute. done. Qed.

Lemma enrich_row_orientation_witness :
  ∃ out o,
    enrich_row (PF := dec_float) ∅ ∅ row_a = Ok out
    ∧ out !! 18 = Some o
    ∧ (o = "plus" ↔
       ∃ a b, py_float "100" = Some a ∧ py_float "700" = Some b
              ∧ flt a b = true)
    ∧ (o ≠ "plus" → o = "minus").
Proof.
  apply (enrich_row_orientation (PF := dec_float) ∅ ∅ row_a "100" "700");
    reflexivity.
Defined.

End EnrichWitnesses.

Section ContigWitnesses.
Import Dec Sample.

Lemma load_contig_lengths_rows_witness :
  load_contig_lengths (PF := dec_float) lengths_short_csv
  = Raise (IndexError "list index out of range")
  ∧ load_contig_lengths (PF := dec_float) lengths_csv
    = Ok (<["ctgB" := DNan]> (<["ctgA" := DFin false 12 3]> ∅)).
Proof.
  split.
  - apply (load_contig_lengths_rows (PF := dec_float) lengths_short_csv).
    exists ["ctgB"]. split; [|reflexivity].
    apply elem_of_cons. right. apply elem_of_cons. by left.
  - apply (load_contig_lengths_rows (PF := dec_float) lengths_csv);
      [|reflexivity].
    intros r Hr. repeat (apply elem_of_cons in Hr as [->|Hr]; [done|]).
    by apply elem_of_nil in Hr.
Defined.

End ContigWitnesses.

Section StageWitnesses.
Import Dec Sample.

(** C2, where the code departs from it.  The gene [g9] of the second row
    is not in the annotation file, so its genomic_start is [str(nan)],
    which parses as a float: the key of the row is NaN, not +infinity.
    No comparison with NaN holds, [list.sort] takes the three rows for a
    run that is already in order, and the row of key 2000.0 is written
    before the row of key 1000.5. *)
Theorem enrich_and_write_nan_key_unsorted :
  enrich_and_write (PF := dec_float) "root/2L" [row_a; row_x; row_c]
    contig_lengths "root/2L/query_filtered.csv" (Some genes_csv)
  = (Ok (),
     [WriteFile "root/2L/contigs_of_interest.csv"
        [FINAL_HEADER;
         ["g1"; "ctgA"; "99.0"; "600"; "1"; "0"; "1"; "600"; "100"; "700";
          "2000.0"; "3000.0"; "1e-50"; "900"; "1000"; "2L"; "2000.0";
          "3000.0"; "plus"; "12000.0"];
         ["g9"; "ctgC"; "90.0"; "200"; "5"; "1"; "1"; "200"; "NA"; "300";
          "nan"; "nan"; "1e-20"; "250"; "1000"; ""; "nan"; "nan"; "minus";
          "nan"];
         ["g2"; "ctgC"; "90.0"; "200"; "5"; "1"; "1"; "200"; "NA"; "300";
          "1000.5"; "1900.0"; "1e-20"; "250"; "1000"; "2L"; "1000.5";
          "1900.0"; "minus"; "nan"]];
      Print "[ok] 2L: wrote 3 rows -> root/2L/contigs_of_interest.csv"])
  ∧ @py_float dec_float "nan" = Some DNan
  ∧ @flt dec_float (DFin false 10005 (-1)) (DFin false 2 3) = true.
Proof. vm_compute. done. Qed.

(** The sort on rows without NaN: the rows whose genomic_start does not
    parse go to the end, in the order they had. *)
Example sort_rows_unparsable_last :
  sort_rows (PF := dec_float) 0 [["NA"; "1"]; ["5"; "2"]; ["n/a"; "3"];
                                 ["1e0"; "4"]; ["5.0"; "5"]]
  = Ok [["1e0"; "4"]; ["5"; "2"]; ["5.0"; "5"]; ["NA"; "1"]; ["n/a"; "3"]].
Proof. vm_compute. reflexivity. Qed.

(** C3 as it is stated fails: two different rows of one gene have the
    same genomic_start, the sort keeps them in the order of the input,
    and the two orders of the input give two different files. *)
Lemma enrich_and_write_input_order_counterexample :
  [row_a; row_b] ≡ₚ [row_b; row_a]
  ∧ enrich_and_write (PF := dec_float) "root/2L" [row_b; row_a]
      contig_lengths "root/2L/query_filtered.csv" (Some genes_csv)
    ≠ enrich_and_write (PF := dec_float) "root/2L" [row_a; row_b]
        contig_lengths "root/2L/query_filtered.csv" (Some genes_csv).
Proof.
  split; [apply perm_swap|]. vm_compute. intros H. discriminate H.
Qed.

Lemma enrich_and_write_input_order_witness :
  enrich_and_write (PF := dec_float) "root/2L" [row_c; row_a]
    contig_lengths "root/2L/query_filtered.csv" (Some genes_csv)
  = enrich_and_write (PF := dec_float) "root/2L" [row_a; row_c]
      contig_lengths "root/2L/query_filtered.csv" (Some genes_csv).
Proof.
  apply (enrich_and_write_input_order (PL := DecLaws.dec_laws)
           "root/2L" [row_a; row_c] [row_c; row_a] contig_lengths
           "root/2L/query_filtered.csv" (Some genes_csv)).
  - apply perm_swap.
  - intros genes t Hg. vm_compute in Hg. injection Hg as <- _.
    intros r1 r2 e1 e2 Hr1 Hr2 Hne He1 He2.
    apply elem_of_cons in Hr1 as [->|Hr1];
      [|apply list_elem_of_singleton in Hr1 as ->];
      (apply elem_of_cons in Hr2 as [->|Hr2];
       [|apply list_elem_of_singleton in Hr2 as ->]);
      try done; vm_compute in He1, He2;
      injection He1 as <-; injection He2 as <-;
      [right|left]; vm_compute; reflexivity.
Defined.

End StageWitnesses.

Section MainWitnesses.
Import Dec Sample.

(** The values of the sample parameter file, one by one. *)
Lemma load_parameters_sample :
  load_parameters (PF := dec_float) params_txt = Ok params_values.
Proof.
  pose proof (load_parameters_returns (PF := dec_float) params_txt) as R.
  cbv zeta in R.
  assert (values_spec (PF := dec_float) (drop 1 (nonblank_lines params_txt))
          = Some params_values) as Hv.
  { apply values_spec_Some. vm_compute. repeat split; reflexivity. }
  rewrite Hv in R. exact R.
Qed.

(** The run on the sample root, with the tasks finishing in the order
    third, first, second. *)
Example main_sample :
  main (PF := dec_float) params_txt lengths_csv [dir_4; dir_2L; dir_3R] 4
    [2; 0; 1]
  = (Ok (),
     [WriteFile "root/2L/contigs_of_interest.csv"
        [FINAL_HEADER;
         ["g1"; "ctgA"; "99.0"; "600"; "1"; "0"; "1"; "600"; "100"; "700";
          "2000.0"; "3000.0"; "1e-50"; "900"; "1000"; "2L"; "2000.0";
          "3000.0"; "plus"; "12000.0"]];
      Print "[ok] 2L: wrote 1 rows -> root/2L/contigs_of_interest.csv";
      Print "[warn] root/3R/query_filtered.csv not found; enrichment will be partial.";
      WriteFile "root/3R/contigs_of_interest.csv" [FINAL_HEADER];
      Print "[ok] 3R: wrote 0 rows -> root/3R/contigs_of_interest.csv"]).
Proof. vm_compute. reflexivity. Qed.

End MainWitnesses.

Section ParamWitnesses.
Import Dec Sample.

Lemma load_parameters_values_and_failures_witness :
  load_parameters (PF := dec_float) params_txt = Ok params_values
  ∧ ∃ e, load_parameters (PF := dec_float)
           ["header"; "a = 1"; "b = 2"; "c = 05"; "d = 0,5"; "e = 0,1";
            "f = 1"; "g = 2"; "h = 3"] = Raise e.
Proof.
  split.
  - apply (load_parameters_values_and_failures (PF := dec_float) params_txt).
    vm_compute. repeat split; try reflexivity. lia.
  - apply (load_parameters_values_and_failures (PF := dec_float)).
    right. right. right. exists 2, "05".
    split; [by left|]. split; [reflexivity|].
    left. unfold has_comma. vm_compute.
    intros H. repeat (apply elem_of_cons in H as [H|H]; [discriminate H|]).
    by apply elem_of_nil in H.
Defined.

End ParamWitnesses.

(** * More properties of the code *)

(** ** [read_tsv_13] and [filter_one_file] *)

Section MoreFilterProofs.
Context {PF : PyFloat}.
Local Arguments first_tier : simpl never.

Lemma tsv_loop_find path rs acc :
  for_each rs acc (tsv_body path)
  = match list_find (λ r, length r ≠ 13) rs with
    | Some (_, bad) =>
        Raise (ValueError (path +:+ ": expected 13 columns, got "
                                +:+ pretty (length bad)))
    | None => Ok (acc ++ rs)
    end.
Proof.
  revert acc. induction rs as [|r rs IH]; intros acc.
  - simpl. by rewrite app_nil_r.
  - rewrite for_each_cons. cbn [list_find].
    destruct (decide (length r ≠ 13)) as [Hr|Hr].
    + by rewrite tsv_body_bad.
    + rewrite tsv_body_ok by lia.
      change (for_each rs (acc ++ [r]) (tsv_body path) = 
              match prod_map S id <$> list_find (λ r, length r ≠ 13) rs with
              | Some (_, bad) =>
                  Raise (ValueError (path +:+ ": expected 13 columns, got "
                                          +:+ pretty (length bad)))
              | None => Ok (acc ++ r :: rs)
              end).
      rewrite IH. destruct (list_find _ rs) as [[i bad]|]; simpl; [done|].
      by rewrite <- List.app_assoc.
Qed.

Lemma list_filter_sublist {A} (f : A → bool) (l : list A) :
  List.filter f l `sublist_of` l.
Proof.
  induction l as [|x l IH]; simpl; [done|].
  destruct (f x); [by apply sublist_skip|by apply sublist_cons].
Qed.

Lemma list_filter_Forall {A} (P : A → Prop) (f : A → bool) (l : list A) :
  Forall P l → Forall P (List.filter f l).
Proof.
  induction 1 as [|x l Hx _ IH]; simpl; [done|].
  destruct (f x); [by constructor|done].
Qed.

(** What the [try] block returns when it returns: nothing, or one tier
    of the rows read, for the gene_length of the first row. *)
Lemma filter_try_Ok path src p2 p3 p4 p5 out :
  filter_try path src p2 p3 p4 p5 = Ok out →
  Forall (λ r, length r = 13) (src_records src)
  ∧ (out = []
     ∨ ∃ r0 s gl m,
         src_records src !! 0 = Some r0 ∧ r0 !! IDX_GENELEN = Some s
         ∧ py_float s = Some gl ∧ fle gl p2 = false
         ∧ m ∈ [p3; p4; p5] ∧ out = tier_spec (src_records src) gl m).
Proof.
  unfold filter_try.
  destruct (read_tsv_13 path src) as [rows|e] eqn:Hread; simpl; [|done].
  destruct (read_tsv_13_inv _ _ _ Hread) as [Hrows Hall].
  rewrite <- Hrows. clear Hrows Hread. intros Hout. split; [done|].
  destruct rows as [|r0 rows']; [left; by inversion Hout|].
  assert (length r0 = 13) as Hr0 by by apply Forall_cons in Hall as [? _].
  destruct (lookup_lt_is_Some_2 r0 IDX_GENELEN) as [s Hs];
    [unfold IDX_GENELEN; lia|].
  unfold py_index, float_of in Hout. simpl in Hout.
  rewrite Hs in Hout. simpl in Hout.
  destruct (py_float s) as [gl|] eqn:Hgl; simpl in Hout; [|left; by inversion Hout].
  destruct (fle gl p2) eqn:Hgate; [left; by inversion Hout|].
  assert ((r0 :: rows') !! 0 = Some r0) as H0 by done.
  remember (r0 :: rows') as rows eqn:Erows.
  rewrite (first_tier_three _ gl p3 p4 p5 Hall) in Hout. injection Hout as <-.
  destruct (tier_spec rows gl p3) as [|a t3] eqn:H3.
  - destruct (tier_spec rows gl p4) as [|b t4] eqn:H4.
    + destruct (tier_spec rows gl p5) as [|c t5] eqn:H5;
        [by left|].
      right. exists r0, s, gl, p5.
      repeat split; try done. by do 2 right; left.
    + right. exists r0, s, gl, p4.
      repeat split; try done. by right; left.
  - right. exists r0, s, gl, p3.
    repeat split; try done. by left.
Qed.

End MoreFilterProofs.

(** X1. [read_tsv_13] is decided by the first record that has not 13
    columns: it raises a [ValueError] that names the path and the number
    of columns of that record, whatever follows in the file and however
    the reading would have ended.  When there is no such record it gives
    the error of the reader if the reading ends with one, and else the
    records as they are, in the order of the file. *)
Theorem read_tsv_13_first_bad_record
    {PF : PyFloat} (path : string) (src : csv_source) :
  read_tsv_13 path src
  = match list_find (λ r, length r ≠ 13) (src_records src) with
    | Some (_, bad) =>
        Raise (ValueError (path +:+ ": expected 13 columns, got "
                                +:+ pretty (length bad)))
    | None =>
        match src_error src with
        | Some e => Raise e
        | None => Ok (src_records src)
        end
    end.
Proof.
  rewrite read_tsv_13_eq, (tsv_loop_find path (src_records src) []).
  by destruct (list_find _ _) as [[i bad]|].
Qed.

(** X2. Whatever the file holds, the rows that [filter_one_file] returns
    are rows of the file, in the order of the file, of 13 columns each.
    When it returns rows it has printed nothing, and the rows are one
    whole tier: for the gene_length of the first row, which is a number
    not at most parm2, and for one of parm3, parm4, parm5, all the rows
    whose length passes and no other. *)
Theorem filter_one_file_rows_of_file
    {PF : PyFloat} (path : string) (src : csv_source) (p2 p3 p4 p5 : float) :
  ∃ out t,
    filter_one_file path src p2 p3 p4 p5 = (Ok out, t)
    ∧ out `sublist_of` src_records src
    ∧ Forall (λ r, length r = 13) out
    ∧ (out ≠ [] →
       t = []
       ∧ ∃ r0 s gl m,
           src_records src !! 0 = Some r0 ∧ r0 !! IDX_GENELEN = Some s
           ∧ py_float s = Some gl ∧ fle gl p2 = false
           ∧ m ∈ [p3; p4; p5] ∧ out = tier_spec (src_records src) gl m).
Proof.
  destruct (filter_try path src p2 p3 p4 p5) as [out|e] eqn:Htry.
  - exists out, []. split; [by apply filter_one_file_ok|].
    destruct (filter_try_Ok _ _ _ _ _ _ _ Htry)
      as [Hall [->|(r0 & s & gl & m & H0 & Hs & Hgl & Hgate & Hm & ->)]].
    + split; [apply sublist_nil_l|]. split; [constructor|done].
    + split; [apply list_filter_sublist|].
      split; [by apply list_filter_Forall|].
      intros _. split; [done|]. by exists r0, s, gl, m.
  - exists [], [Print ("[warn] " +:+ path +:+ ": " +:+ exn_str e)].
    split; [by apply filter_one_file_raise|].
    split; [apply sublist_nil_l|]. split; [constructor|done].
Qed.

(** ** [load_parameters] *)

Section MoreParamProofs.
Context {PF : PyFloat}.

Lemma only_ValueError_bind {A B} (m : pyresult A) (f : A → pyresult B) :
  only_ValueError m → (∀ a, m = Ok a → only_ValueError (f a)) →
  only_ValueError (m ≫= f).
Proof. destruct m as [a|e]; simpl; [auto|done]. Qed.

Lemma float_of_only_ValueError s : only_ValueError (float_of s).
Proof. unfold float_of. by destruct (py_float s). Qed.

Lemma third_token_only_ValueError line : only_ValueError (third_token line).
Proof.
  unfold third_token, py_index.
  destruct (Nat.ltb_spec (length (py_split line)) 3) as [Hlt|Hge]; [done|].
  by destruct (lookup_lt_is_Some_2 (py_split line) 2) as [t ->]; [lia|].
Qed.

Lemma special_only_ValueError line : only_ValueError (special line).
Proof.
  unfold special. apply only_ValueError_bind;
    [apply third_token_only_ValueError|]. intros tok _.
  destruct (Nat.ltb_spec (length (py_split_on "," tok)) 2) as [Hlt|Hge];
    [done|].
  unfold py_index.
  destruct (lookup_lt_is_Some_2 (py_split_on "," tok) 1) as [t ->]; [lia|].
  simpl. apply only_ValueError_bind; [apply float_of_only_ValueError|done].
Qed.

Lemma plain_only_ValueError (body : list string) i :
  i < length body →
  only_ValueError (b ← py_index body i; t ← third_token b; float_of t).
Proof.
  intros Hi. unfold py_index.
  destruct (lookup_lt_is_Some_2 body i Hi) as [line ->]. simpl.
  apply only_ValueError_bind; [apply third_token_only_ValueError|].
  intros t _. apply float_of_only_ValueError.
Qed.

Lemma compound_only_ValueError (body : list string) i :
  i < length body → only_ValueError (b ← py_index body i; special b).
Proof.
  intros Hi. unfold py_index.
  destruct (lookup_lt_is_Some_2 body i Hi) as [line ->]. simpl.
  apply special_only_ValueError.
Qed.

Lemma load_parameters_only_ValueError f : only_ValueError (load_parameters f).
Proof.
  unfold load_parameters. cbv zeta.
  destruct (Nat.ltb_spec (length (drop 1 (nonblank_lines f))) 8) as [Hlt|Hge];
    [done|].
  repeat (apply only_ValueError_bind;
          [first [apply plain_only_ValueError; lia
                 |apply compound_only_ValueError; lia]|intros ? _]).
  done.
Qed.

Lemma py_index_take {A} (l : list A) n i :
  i < n → py_index (take n l) i = py_index l i.
Proof. intros Hi. unfold py_index. by rewrite lookup_take_lt. Qed.

End MoreParamProofs.

(** X3. Once the lines of the parameter file are read, [load_parameters]
    fails with a [ValueError] and with nothing else: no index is ever out
    of range, in the body, in the tokens of a line or in the parts of a
    compound token.  The number of body lines is checked first: with
    fewer than eight of them the message is the one of the module,
    whatever the lines hold. *)
Theorem load_parameters_raises_ValueError {PF : PyFloat} (f : list string) :
  (∀ e, load_parameters f = Raise e → ∃ msg, e = ValueError msg)
  ∧ (length (drop 1 (nonblank_lines f)) < 8 →
     load_parameters f
     = Raise (ValueError
                "parameters file must have at least 8 rows after header")).
Proof.
  split.
  - intros e He. pose proof (load_parameters_only_ValueError f) as H.
    rewrite He in H. destruct e; try done. eauto.
  - intros Hlt. unfold load_parameters. cbv zeta.
    by destruct (Nat.ltb_spec (length (drop 1 (nonblank_lines f))) 8);
      [|lia].
Qed.

Section ParamOrderProofs.
Context {PF : PyFloat}.

Lemma load_parameters_lines f :
  8 ≤ length (drop 1 (nonblank_lines f)) →
  load_parameters f
  = (let body := drop 1 (nonblank_lines f) in
     p1 ← param_line body 0; p2 ← param_line body 1;
     p6 ← param_line body 5; p7 ← param_line body 6; p8 ← param_line body 7;
     p3 ← param_line body 2; p4 ← param_line body 3; p5 ← param_line body 4;
     mret {| parm1 := p1; parm2 := p2; parm3 := p3; parm4 := p4;
             parm5 := p5; parm6 := p6; parm7 := p7; parm8 := p8 |}).
Proof.
  intros Hlen. unfold load_parameters. cbv zeta.
  by destruct (Nat.ltb_spec (length (drop 1 (nonblank_lines f))) 8); [lia|].
Qed.

End ParamOrderProofs.

(** X18. When the body has its eight lines, [load_parameters] fails with
    the error of the first line that fails in the order in which it
    reads them, which is not the order of the file: the lines 0, 1, 5, 6
    and 7 of the plain values first, and then the lines 2, 3 and 4 of the
    compound ones.  So a bad line 5 hides a bad line 2. *)
Theorem load_parameters_first_failure
    {PF : PyFloat} (f : list string) (k i : nat) :
  8 ≤ length (drop 1 (nonblank_lines f)) →
  list_find (λ j, Is_true (raises (param_line (drop 1 (nonblank_lines f)) j)))
            param_order
  = Some (k, i) →
  ∃ e, param_line (drop 1 (nonblank_lines f)) i = Raise e
       ∧ load_parameters f = Raise e.
Proof.
  intros Hlen Hfind. rewrite (load_parameters_lines f Hlen). cbv zeta.
  set (body := drop 1 (nonblank_lines f)) in *. unfold param_order in Hfind.
  cbn [list_find] in Hfind.
  destruct (param_line body 0) as [x0|e0] eqn:E0; simpl in Hfind;
    [|injection Hfind as <- <-; exists e0; by rewrite E0].
  destruct (param_line body 1) as [x1|e1] eqn:E1; simpl in Hfind;
    [|injection Hfind as <- <-; exists e1; by rewrite E1].
  destruct (param_line body 5) as [x5|e5] eqn:E5; simpl in Hfind;
    [|injection Hfind as <- <-; exists e5; by rewrite E5].
  destruct (param_line body 6) as [x6|e6] eqn:E6; simpl in Hfind;
    [|injection Hfind as <- <-; exists e6; by rewrite E6].
  destruct (param_line body 7) as [x7|e7] eqn:E7; simpl in Hfind;
    [|injection Hfind as <- <-; exists e7; by rewrite E7].
  destruct (param_line body 2) as [x2|e2] eqn:E2; simpl in Hfind;
    [|injection Hfind as <- <-; exists e2; by rewrite E2].
  destruct (param_line body 3) as [x3|e3] eqn:E3; simpl in Hfind;
    [|injection Hfind as <- <-; exists e3; by rewrite E3].
  destruct (param_line body 4) as [x4|e4] eqn:E4; simpl in Hfind;
    [|injection Hfind as <- <-; exists e4; by rewrite E4].
  discriminate Hfind.
Qed.

(** X4. [load_parameters] reads the first eight lines of the body and
    nothing else: two files whose lines, once stripped and without the
    blank ones and the first, start with the same eight lines give the
    same values or fail alike.  So the header line can hold anything,
    and so can the lines after the eighth; blank lines and the white
    space around a line do not count. *)
Theorem load_parameters_first_eight {PF : PyFloat} (f g : list string) :
  take 8 (drop 1 (nonblank_lines f)) = take 8 (drop 1 (nonblank_lines g)) →
  load_parameters f = load_parameters g.
Proof.
  intros Heq. unfold load_parameters. cbv zeta.
  set (bf := drop 1 (nonblank_lines f)) in *.
  set (bg := drop 1 (nonblank_lines g)) in *.
  assert ((length bf <? 8) = (length bg <? 8)) as ->.
  { pose proof (f_equal length Heq) as Hlen. rewrite !length_take in Hlen.
    destruct (Nat.ltb_spec (length bf) 8), (Nat.ltb_spec (length bg) 8);
      (done || lia). }
  assert (∀ i, i < 8 → py_index bf i = py_index bg i) as Hidx.
  { intros i Hi.
    by rewrite <- (py_index_take bf 8 i Hi), <- (py_index_take bg 8 i Hi), Heq. }
  by rewrite (Hidx 0), (Hidx 1), (Hidx 2), (Hidx 3), (Hidx 4), (Hidx 5),
    (Hidx 6), (Hidx 7) by lia.
Qed.

(** ** [load_contig_lengths] *)

Section MoreContigProofs.
Context {PF : PyFloat}.

Lemma contig_entry_lookup table (rec : row) name :
  length rec ≠ 1 →
  contig_entry_spec table rec !! name
  = if decide (rec !! 0 = Some name)
    then Some (default fnan (rec !! 1 ≫= py_float))
    else table !! name.
Proof.
  destruct rec as [|n [|v rec]]; [done|done|]. intros _. simpl.
  destruct (decide (Some n = Some name)) as [[= ->]|Hne].
  - by rewrite lookup_insert_eq.
  - rewrite lookup_insert_ne; [done|congruence].
Qed.

Lemma contig_table_lookup rs table name :
  Forall (λ r, length r ≠ 1) rs →
  foldl contig_entry_spec table rs !! name
  = match last (filter (λ r, r !! 0 = Some name) rs) with
    | Some r => Some (default fnan (r !! 1 ≫= py_float))
    | None => table !! name
    end.
Proof.
  induction rs as [|r rs IH] using rev_ind; intros Hall; [done|].
  apply Forall_app in Hall as [Hrs Hr].
  apply Forall_cons in Hr as [Hr _].
  rewrite foldl_snoc, contig_entry_lookup by done.
  rewrite filter_app.
  destruct (decide (r !! 0 = Some name)) as [Hn|Hn].
  - rewrite (filter_cons_True (λ r, r !! 0 = Some name) r [] Hn), filter_nil.
    by rewrite last_snoc.
  - rewrite (filter_cons_False (λ r, r !! 0 = Some name) r [] Hn), filter_nil.
    rewrite app_nil_r. by apply IH.
Qed.

Lemma load_contig_lengths_Ok src table :
  load_contig_lengths src = Ok table →
  Forall (λ r, length r ≠ 1) (src_records src)
  ∧ table = contig_table_spec (src_records src).
Proof.
  rewrite load_contig_lengths_eq. intros H.
  destruct (decide (Exists (λ r, length r = 1) (src_records src))) as [Hex|Hex].
  { by rewrite contig_loop_one in H. }
  assert (Forall (λ r, length r ≠ 1) (src_records src)) as Hall.
  { apply Forall_forall. intros r Hr Hlen. apply Hex, Exists_exists. eauto. }
  split; [done|]. rewrite contig_loop_ok in H by done. simpl in H.
  destruct (src_error src); [done|]. by injection H as <-.
Qed.

End MoreContigProofs.

(** X5. In the table that [load_contig_lengths] returns, a name is bound
    by the last row of the file whose first field it is: to the second
    field of that row parsed as a float, and to NaN when it does not
    parse.  A name that is the first field of no row is not in the table.
    No row is set apart as a header. *)
Theorem load_contig_lengths_last_row_wins
    {PF : PyFloat} (src : csv_source) (table : gmap string float)
    (name : string) :
  load_contig_lengths src = Ok table →
  table !! name
  = (λ r, default fnan (r !! 1 ≫= py_float))
      <$> last (filter (λ r, r !! 0 = Some name) (src_records src)).
Proof.
  intros [Hall ->]%load_contig_lengths_Ok. unfold contig_table_spec.
  rewrite contig_table_lookup by done.
  by destruct (last _).
Qed.

(** ** The annotation file *)

Section GenesProofs.
Context {PF : PyFloat}.

Lemma load_genes_eq src :
  load_genes src
  = match for_each (dsrc_records src) ∅ genes_body with
    | Ok genes =>
        match dsrc_error src with Some e => Raise e | None => Ok genes end
    | Raise e => Raise e
    end.
Proof. done. Qed.

Lemma gene_id_gene_id_spec rec fid :
  gene_id_spec rec fid ↔ gene_id rec = Some fid ∧ fid ≠ "".
Proof.
  unfold gene_id_spec, gene_id, falsy, py_or.
  destruct (dict_get rec "full_id") as [[|c1 s1]|];
    destruct (dict_get rec "fullid") as [[|c2 s2]|];
    destruct (dict_get rec "id") as [[|c3 s3]|];
    (split;
     [intros [Hne H]; split; [|done];
      repeat match goal with
             | H : _ ∨ _ |- _ => destruct H
             | H : _ ∧ _ |- _ => destruct H
             end; congruence
     |intros [Hid Hne]; simplify_eq; (split; [done|auto 10])]).
Qed.

Lemma gene_number_returns rec k :
  except_ValueError (float_of_value (dict_get_default rec k "nan")) (mret fnan)
  = match dict_get_default rec k "nan" with
    | Some _ => Ok (gene_number_spec rec k)
    | None => Raise (TypeError
        "float() argument must be a string or a real number, not 'NoneType'")
    end.
Proof.
  unfold gene_number_spec, float_of_value, float_of.
  destruct (dict_get_default rec k "nan") as [s|]; [|done].
  by destruct (py_float s).
Qed.

Lemma dict_get_default_None rec k d :
  dict_get_default rec k d = None ↔ field_missing rec k.
Proof.
  unfold dict_get_default, field_missing.
  destruct (rec !! k) as [[v|]|]; simpl; split; congruence.
Qed.

(** The three ways of the body of the loop. *)
Lemma genes_body_skip genes rec :
  (∀ fid, ¬ gene_id_spec rec fid) → genes_body genes rec = Ok genes.
Proof.
  intros Hno. unfold genes_body.
  destruct (gene_id rec) as [[|c s]|] eqn:Hid; [done| |done].
  destruct (Hno (String c s)). by apply gene_id_gene_id_spec.
Qed.

Lemma genes_body_insert genes rec fid :
  gene_id_spec rec fid →
  ¬ field_missing rec "start" → ¬ field_missing rec "stop" →
  genes_body genes rec = Ok (<[fid := gene_entry_spec rec]> genes).
Proof.
  intros [Hid Hne]%gene_id_gene_id_spec Hstart Hstop.
  unfold genes_body. rewrite Hid. destruct fid as [|c s]; [done|].
  rewrite !gene_number_returns.
  rewrite <- (dict_get_default_None _ _ "nan") in Hstart.
  rewrite <- (dict_get_default_None _ _ "nan") in Hstop.
  destruct (dict_get_default rec "start" "nan"); [|done].
  destruct (dict_get_default rec "stop" "nan"); [|done]. done.
Qed.

Lemma genes_body_raise genes rec fid :
  gene_id_spec rec fid →
  field_missing rec "start" ∨ field_missing rec "stop" →
  genes_body genes rec = Raise (TypeError
    "float() argument must be a string or a real number, not 'NoneType'").
Proof.
  intros [Hid Hne]%gene_id_gene_id_spec Hmiss.
  unfold genes_body. rewrite Hid. destruct fid as [|c s]; [done|].
  rewrite !gene_number_returns.
  rewrite <- !(dict_get_default_None _ _ "nan") in Hmiss.
  destruct (dict_get_default rec "start" "nan"),
    (dict_get_default rec "stop" "nan"); try done.
  by destruct Hmiss.
Qed.

Lemma genes_body_cases genes rec :
  short_line rec
  ∧ genes_body genes rec = Raise (TypeError
      "float() argument must be a string or a real number, not 'NoneType'")
  ∨ ¬ short_line rec ∧ genes_body genes rec = Ok (genes_step genes rec).
Proof.
  unfold short_line, genes_step.
  destruct (gene_id rec) as [[|c s]|] eqn:Hid.
  - right. split; [|by apply genes_body_skip;
                      intros fid [Hid' ?]%gene_id_gene_id_spec; congruence].
    intros [[fid [Hid' ?]%gene_id_gene_id_spec] _]. congruence.
  - assert (gene_id_spec rec (String c s)) as Hspec
      by by apply gene_id_gene_id_spec.
    destruct (decide (rec !! "start" = Some None)) as [H1|H1].
    { left. split; [eauto|]. eapply genes_body_raise; eauto. }
    destruct (decide (rec !! "stop" = Some None)) as [H2|H2].
    { left. split; [eauto|]. eapply genes_body_raise; eauto. }
    right. split; [by intros [_ [?|?]]|]. by apply genes_body_insert.
  - right. split; [|by apply genes_body_skip;
                      intros fid [Hid' ?]%gene_id_gene_id_spec; congruence].
    intros [[fid [Hid' ?]%gene_id_gene_id_spec] _]. congruence.
Qed.

Lemma genes_loop_raise recs genes :
  Exists short_line recs →
  for_each recs genes genes_body = Raise (TypeError
    "float() argument must be a string or a real number, not 'NoneType'").
Proof.
  intros H. revert genes.
  induction recs as [|rec recs IH]; intros genes; [by apply Exists_nil in H|].
  rewrite for_each_cons.
  destruct (genes_body_cases genes rec) as [[_ ->]|[Hno ->]]; [done|].
  apply Exists_cons in H as [H|H]; [done|]. simpl. by apply IH.
Qed.

Lemma genes_loop_ok recs genes :
  ¬ Exists short_line recs →
  for_each recs genes genes_body = Ok (foldl genes_step genes recs).
Proof.
  revert genes. induction recs as [|rec recs IH]; intros genes H; [done|].
  rewrite for_each_cons.
  destruct (genes_body_cases genes rec) as [[Hbad _]|[_ ->]].
  - destruct H. by left.
  - simpl. apply IH. intros Hex. apply H. by right.
Qed.

Lemma genes_step_lookup genes rec fid :
  genes_step genes rec !! fid
  = if decide (gene_id_spec rec fid) then Some (gene_entry_spec rec)
    else genes !! fid.
Proof.
  unfold genes_step.
  destruct (decide (gene_id_spec rec fid)) as [[Hid Hne]%gene_id_gene_id_spec|Hno].
  - rewrite Hid. destruct fid; [done|]. by rewrite lookup_insert_eq.
  - destruct (gene_id rec) as [[|c s]|] eqn:Hid; [done| |done].
    rewrite lookup_insert_ne; [done|]. intros <-. apply Hno.
    by apply gene_id_gene_id_spec.
Qed.

Lemma genes_table_lookup recs genes fid :
  foldl genes_step genes recs !! fid
  = match last (filter (λ rec, gene_id_spec rec fid) recs) with
    | Some rec => Some (gene_entry_spec rec)
    | None => genes !! fid
    end.
Proof.
  induction recs as [|rec recs IH] using rev_ind; [done|].
  rewrite foldl_snoc, genes_step_lookup, filter_app.
  destruct (decide (gene_id_spec rec fid)) as [Hn|Hn].
  - rewrite (filter_cons_True (λ rec, gene_id_spec rec fid) rec [] Hn).
    by rewrite filter_nil, last_snoc.
  - rewrite (filter_cons_False (λ rec, gene_id_spec rec fid) rec [] Hn).
    by rewrite filter_nil, app_nil_r.
Qed.

Lemma short_line_cases recs :
  Exists short_line recs ∨ ¬ Exists short_line recs.
Proof.
  induction recs as [|rec recs [IH|IH]].
  - right. by intros ?%Exists_nil.
  - left. by right.
  - destruct (genes_body_cases ∅ rec) as [[H _]|[H _]]; [left; by left|].
    right. by intros [?|?]%Exists_cons.
Qed.

End GenesProofs.

(** X6. A line of the annotation file that names a gene and is too short
    to have a start or a stop field stops the loading with a [TypeError],
    which nothing catches: the reader gives [None] for the field and
    only a [ValueError] is handled.  Nothing else fails in the loop, so
    any other failure of the loading is the one of the reader. *)
Theorem load_genes_short_line {PF : PyFloat} (src : dict_source) :
  ((∃ rec, rec ∈ dsrc_records src ∧ short_line rec) →
   ∃ msg, load_genes src = Raise (TypeError msg))
  ∧ (∀ e, load_genes src = Raise e →
       (∃ rec, rec ∈ dsrc_records src ∧ short_line rec)
       ∨ dsrc_error src = Some e).
Proof.
  rewrite load_genes_eq. split.
  - intros Hex%Exists_exists. rewrite genes_loop_raise by done. eauto.
  - intros e He.
    destruct (short_line_cases (dsrc_records src)) as [Hex|Hex];
      [left; by apply Exists_exists|right].
    rewrite genes_loop_ok in He by done.
    destruct (dsrc_error src); congruence.
Qed.

(** X7. In the table of genes that is loaded, a gene is bound by the
    last record of the file that is a record of it, where the name of a
    record is the first of its full_id, fullid and id that is neither
    missing nor empty; a record with no such field enters nothing.  The
    gene is bound to the start and the stop of that record as floats,
    NaN when they do not parse, and to its scaff field. *)
Theorem load_genes_last_record_wins
    {PF : PyFloat} (src : dict_source)
    (genes : gmap string (float * float * option string)) (fid : string) :
  load_genes src = Ok genes →
  genes !! fid
  = gene_entry_spec
      <$> last (filter (λ rec, gene_id_spec rec fid) (dsrc_records src)).
Proof.
  rewrite load_genes_eq. intros H.
  destruct (short_line_cases (dsrc_records src)) as [Hex|Hex];
    [by rewrite genes_loop_raise in H|].
  rewrite genes_loop_ok in H by done.
  destruct (dsrc_error src); [done|]. injection H as <-.
  rewrite genes_table_lookup. by destruct (last _).
Qed.

(** ** The enriched rows *)

Section MoreEnrichProofs.
Context {PF : PyFloat}.

Lemma py_insert_length {A} i (x : A) l : length (py_insert i x l) = S (length l).
Proof.
  unfold py_insert. rewrite length_app. simpl.
  rewrite length_take, length_drop. lia.
Qed.

Lemma py_insert_twice {A} (x y : A) (l : list A) :
  10 ≤ length l →
  py_insert (IDX_EVALUE + 1) y (py_insert IDX_EVALUE x l)
  = take 10 l ++ [x; y] ++ drop 10 l.
Proof.
  intros Hlen. unfold py_insert, IDX_EVALUE.
  change (10 + 1) with 11.
  rewrite take_app_ge, drop_app_ge by (rewrite length_take; lia).
  rewrite length_take, Nat.min_l by lia.
  change (11 - 10) with 1. simpl. by rewrite <- app_assoc.
Qed.

Lemma orientation_of_orientation_spec (base : row) :
  10 ≤ length base → orientation_of base = Ok (orientation_spec base).
Proof.
  intros Hlen.
  destruct (lookup_lt_is_Some_2 base 8) as [s8 H8]; [lia|].
  destruct (lookup_lt_is_Some_2 base 9) as [s9 H9]; [lia|].
  rewrite (orientation_of_spec base s8 s9 H8 H9).
  unfold orientation_spec. by rewrite H8, H9.
Qed.

Lemma enrich_row_long genes contig_len_map (base : row) :
  13 ≤ length base →
  enrich_row genes contig_len_map base
  = Ok (take 20 (enriched_spec genes contig_len_map base)).
Proof.
  intros Hlen. unfold enrich_row, enriched_spec.
  rewrite orientation_of_orientation_spec by lia.
  destruct (lookup_lt_is_Some_2 base 0) as [b0 H0]; [lia|].
  destruct (lookup_lt_is_Some_2 base 1) as [b1 H1]; [lia|].
  unfold py_index. rewrite H0, H1. simpl.
  destruct (default _ (genes !! b0)) as [[start stop] scaff].
  rewrite row_map_fields_spec, py_insert_twice by lia.
  rewrite <- !app_assoc.
  match goal with
  | |- context [20 <=? ?n] => destruct (Nat.leb_spec 20 n) as [H|H]
  end; [done|].
  rewrite !length_app, length_take, length_drop in H. cbn [length] in H. lia.
Qed.

Lemma enrich_row_short genes contig_len_map (base : row) :
  length base < 13 →
  enrich_row genes contig_len_map base
  = Raise (IndexError "list index out of range").
Proof.
  intros Hlen. unfold enrich_row.
  destruct (orientation_of base) as [o|e] eqn:Ho; simpl;
    [|by rewrite (orientation_of_raise _ _ Ho)].
  destruct (py_index base 0) as [qname|e] eqn:H0; simpl;
    [|by rewrite (py_index_raise _ _ _ H0)].
  destruct (default _ (genes !! qname)) as [[start stop] scaff].
  destruct (py_index base 1) as [subj|e] eqn:H1; simpl;
    [|by rewrite (py_index_raise _ _ _ H1)].
  rewrite row_map_fields_spec.
  match goal with
  | |- context [20 <=? ?n] => destruct (Nat.leb_spec 20 n) as [H|H]
  end; [|done].
  rewrite length_app, !py_insert_length in H. cbn [length] in H. lia.
Qed.

Lemma enriched_spec_length genes contig_len_map (base : row) :
  10 ≤ length base →
  length (enriched_spec genes contig_len_map base) = length base + 7.
Proof.
  intros Hlen. unfold enriched_spec.
  rewrite !length_app, length_take, length_drop. cbn [length]. lia.
Qed.

Lemma enrich_row_thirteen genes contig_len_map (base : row) :
  length base = 13 →
  enrich_row genes contig_len_map base
  = Ok (enriched_spec genes contig_len_map base).
Proof.
  intros Hlen. rewrite enrich_row_long by lia. f_equal.
  apply take_ge. rewrite enriched_spec_length; lia.
Qed.

End MoreEnrichProofs.

(** X8. The enrichment of a row fails, with an [IndexError], exactly
    when the row has fewer than 13 fields.  Otherwise it gives the first
    twenty fields of: the first ten fields of the row, the start and the
    stop of its gene, the other fields of the row, and then the scaff,
    the start and the stop of the gene, the orientation and the length
    of the contig.  A gene, or a contig, that is in no table gives nan,
    and such a gene an empty scaff.  For a row of 13 fields these are
    twenty fields, in the order of the header that is written. *)
Theorem enrich_row_fields
    {PF : PyFloat} (genes : gmap string (float * float * option string))
    (contig_len_map : gmap string float) (base : row) :
  enrich_row genes contig_len_map base
  = (if 13 <=? length base
     then Ok (take 20 (enriched_spec genes contig_len_map base))
     else Raise (IndexError "list index out of range"))
  ∧ (length base = 13 →
     length (enriched_spec genes contig_len_map base) = length FINAL_HEADER).
Proof.
  split.
  - destruct (Nat.leb_spec 13 (length base)).
    + by apply enrich_row_long.
    + by apply enrich_row_short.
  - intros Hlen. rewrite enriched_spec_length by lia. by rewrite Hlen.
Qed.

Section MoreStageProofs.
Context {PF : PyFloat}.

Lemma dedup_rows_thirteen (base_rows : list row) :
  Forall (λ r, length r = 13) base_rows →
  Forall (λ r, length r = 13) (dedup_rows base_rows).
Proof.
  rewrite !Forall_forall. intros H r Hr.
  apply (proj1 (elem_of_dedup_rows _ _)) in Hr. by apply H.
Qed.

Lemma enriched_spec_twenty genes contig_len_map (rows : list row) :
  Forall (λ r, length r = 13) rows →
  Forall (λ e, length e = 20) (enriched_spec genes contig_len_map <$> rows).
Proof.
  intros H. apply Forall_fmap. eapply Forall_impl; [exact H|].
  intros r Hr. unfold compose. cbv beta in Hr.
  rewrite enriched_spec_length; lia.
Qed.

Lemma enriched_spec_inj genes contig_len_map (r r' : row) :
  length r = 13 → length r' = 13 →
  enriched_spec genes contig_len_map r = enriched_spec genes contig_len_map r' →
  r = r'.
Proof.
  intros Hr Hr' Heq. unfold enriched_spec in Heq. cbv zeta in Heq.
  apply app_inj_1 in Heq as [Htake Heq];
    [|rewrite !length_take; lia].
  apply (f_equal (drop 2)) in Heq. cbn [app drop] in Heq.
  apply app_inj_1 in Heq as [Hdrop _];
    [|rewrite !length_drop; lia].
  by rewrite <- (take_drop 10 r), <- (take_drop 10 r'), Htake, Hdrop.
Qed.

Lemma enrich_rows_thirteen_eq genes contig_len_map (base_rows : list row) :
  Forall (λ r, length r = 13) base_rows →
  enrich_rows genes contig_len_map base_rows
  = Ok (list_sort (λ r1 r2, flt (sort_key_spec r1) (sort_key_spec r2))
          (enriched_spec genes contig_len_map <$> dedup_rows base_rows)).
Proof.
  intros Hall%dedup_rows_thirteen. rewrite enrich_rows_eq.
  rewrite (list_comp_fmap _ (enriched_spec genes contig_len_map)).
  - simpl. by rewrite sort_rows_enriched by by apply enriched_spec_twenty.
  - eapply Forall_impl; [exact Hall|]. intros r Hr.
    by apply enrich_row_thirteen.
Qed.

End MoreStageProofs.

(** X9. Rows of 13 fields, which are the rows that come out of the
    filter, are always enriched and sorted without a failure, whatever
    the tables hold.  What is written after the header is, in some
    order, the enriched row of every distinct row, once: the sort loses
    no row and repeats none, whatever the keys are.  The number of rows
    written is the number of distinct rows, and no two rows written are
    the same, for a row can be read off its enriched row. *)
Theorem enrich_rows_distinct_rows_once
    {PF : PyFloat} (genes : gmap string (float * float * option string))
    (contig_len_map : gmap string float) (base_rows : list row) :
  Forall (λ r, length r = 13) base_rows →
  ∃ out,
    enrich_rows genes contig_len_map base_rows = Ok out
    ∧ out ≡ₚ enriched_spec genes contig_len_map <$> dedup_rows base_rows
    ∧ length out = length (dedup_rows base_rows)
    ∧ NoDup out.
Proof.
  intros Hall. rewrite enrich_rows_thirteen_eq by done.
  eexists. split; [done|].
  split; [apply list_sort_perm|].
  split; [by rewrite list_sort_perm, length_fmap|].
  rewrite list_sort_perm. apply NoDup_fmap_2_strong.
  - intros r r' Hr Hr'. apply enriched_spec_inj.
    + apply dedup_rows_thirteen in Hall. rewrite Forall_forall in Hall.
      by apply Hall.
    + apply dedup_rows_thirteen in Hall. rewrite Forall_forall in Hall.
      by apply Hall.
  - rewrite dedup_rows_first_occurrences. apply NoDup_first_occurrences.
Qed.

(** X10. When no enriched row has NaN for its key (its genomic_start as
    a float, +infinity when it does not parse), the rows that are written
    for rows of 13 fields are in ascending order of the key, and the
    rows of equal keys are in the order in which their rows were first
    seen. *)
Theorem enrich_rows_sorted_stable
    {PF : PyFloat} {PL : PyFloatLaws PF}
    (genes : gmap string (float * float * option string))
    (contig_len_map : gmap string float) (base_rows : list row) :
  Forall (λ r, length r = 13) base_rows →
  Forall (λ r, fisnan (sort_key_spec (enriched_spec genes contig_len_map r))
               = false) base_rows →
  ∃ out,
    enrich_rows genes contig_len_map base_rows = Ok out
    ∧ StronglySorted
        (λ e1 e2, flt (sort_key_spec e2) (sort_key_spec e1) = false) out
    ∧ ∀ z, fisnan (sort_key_spec z) = false →
        filter (λ e, flt (sort_key_spec z) (sort_key_spec e) = false
                     ∧ flt (sort_key_spec e) (sort_key_spec z) = false) out
        = filter (λ e, flt (sort_key_spec z) (sort_key_spec e) = false
                       ∧ flt (sort_key_spec e) (sort_key_spec z) = false)
            (enriched_spec genes contig_len_map <$> dedup_rows base_rows).
Proof.
  intros Hall Hnan. rewrite enrich_rows_thirteen_eq by done.
  eexists. split; [done|].
  apply (list_sort_sorted_stable
           (λ r1 r2, flt (sort_key_spec r1) (sort_key_spec r2))
           (λ r, fisnan (sort_key_spec r) = false)).
  - intros x. apply flt_irrefl.
  - intros x y z. apply flt_trans.
  - intros x y z _ Hy _. by apply flt_cotrans.
  - apply Forall_fmap. apply Forall_forall. intros r Hr.
    apply (proj1 (elem_of_dedup_rows _ _)) in Hr.
    rewrite Forall_forall in Hnan. by apply Hnan.
Qed.

(** ** One directory *)

Section MoreWriteProofs.
Context {PF : PyFloat}.

Lemma io_bind_eq {A B} (m : io A) (f : A → io B) :
  io_bind m f
  = match m.1 with
    | Ok a => ((f a).1, m.2 ++ (f a).2)
    | Raise e => (Raise e, m.2)
    end.
Proof. destruct m as [[a|e] t]; simpl; [|done]. by destruct (f a). Qed.

Lemma writes_app t1 t2 : writes (t1 ++ t2) = writes t1 ++ writes t2.
Proof. apply omap_app. Qed.

Lemma writes_prints t : Forall is_print t → writes t = [].
Proof.
  induction 1 as [|ev t Hev _ IH]; [done|]. by destruct ev.
Qed.

Lemma enrich_and_write_eq subdir rows contig_len_map genes_path genes_file :
  enrich_and_write subdir rows contig_len_map genes_path genes_file
  = match (genes_of genes_path genes_file).1 with
    | Ok genes =>
        match enrich_rows genes contig_len_map rows with
        | Ok out =>
            (Ok (),
             (genes_of genes_path genes_file).2
             ++ [WriteFile (path_join subdir "contigs_of_interest.csv")
                   (FINAL_HEADER :: out);
                 Print ("[ok] " +:+ path_name subdir +:+ ": wrote "
                          +:+ pretty (length out) +:+ " rows -> "
                          +:+ path_join subdir "contigs_of_interest.csv")])
        | Raise e => (Raise e, (genes_of genes_path genes_file).2)
        end
    | Raise e => (Raise e, (genes_of genes_path genes_file).2)
    end.
Proof.
  unfold enrich_and_write. rewrite io_bind_eq.
  destruct (genes_of genes_path genes_file).1 as [genes|e]; [|done].
  rewrite io_bind_eq. unfold lift. simpl.
  destruct (enrich_rows genes contig_len_map rows) as [out|e]; simpl; [done|].
  by rewrite app_nil_r.
Qed.

Lemma enrich_rows_written genes contig_len_map (rows : list row) :
  Forall (λ r, length r = 13) rows →
  enrich_rows genes contig_len_map rows
  = Ok (written_spec genes contig_len_map rows).
Proof. apply enrich_rows_thirteen_eq. Qed.

Lemma written_spec_perm genes contig_len_map (rows : list row) :
  written_spec genes contig_len_map rows
  ≡ₚ enriched_spec genes contig_len_map <$> dedup_rows rows.
Proof. apply list_sort_perm. Qed.

Lemma genes_of_Raise genes_path genes_file e :
  (genes_of genes_path genes_file).1 = Raise e →
  ∃ src, genes_file = Some src ∧ load_genes src = Raise e
         ∧ (genes_of genes_path genes_file).2 = [].
Proof. destruct genes_file as [src|]; [|done]. simpl. eauto. Qed.

End MoreWriteProofs.


(** ** The dispatcher *)

Section MoreMainProofs.
Context {PF : PyFloat}.

Lemma extend_dir_map by_dir_rows sd rows :
  NoDup (sd_path <$> by_dir_rows.*1) →
  extend_dir by_dir_rows sd rows
  = (λ x, (x.1, x.2 ++ if String.eqb (sd_path x.1) sd then rows else []))
      <$> by_dir_rows.
Proof.
  induction by_dir_rows as [|[d rs] l IH]; [done|].
  rewrite !fmap_cons. intros [Hd Hl]%NoDup_cons. simpl.
  destruct (String.eqb_spec (sd_path d) sd) as [Heq|Hne].
  - f_equal. clear IH. induction l as [|[d' rs'] l IH]; [done|].
    rewrite !fmap_cons in Hd, Hl. apply not_elem_of_cons in Hd as [Hne Hd].
    apply NoDup_cons in Hl as [_ Hl]. simpl in Hne |- *.
    destruct (String.eqb_spec (sd_path d') sd) as [Heq'|_]; [congruence|].
    rewrite app_nil_r. f_equal. by apply IH.
  - rewrite app_nil_r. f_equal. by apply IH.
Qed.

Lemma task_rows_eq p sd fp src rows t :
  filter_one_file fp src (parm2 p) (parm3 p) (parm4 p) (parm5 p) = (Ok rows, t) →
  task_rows p (sd, (fp, src)) = rows.
Proof. intros H. unfold task_rows. simpl. by rewrite H. Qed.

(** The loop over the finished tasks, with unique directories. *)
Lemma collect_routed p futures completion by_dir_rows :
  NoDup (sd_path <$> by_dir_rows.*1) →
  ∃ t,
    collect p futures completion by_dir_rows
    = (Ok ((λ x, (x.1, x.2 ++ routed p futures completion (sd_path x.1)))
             <$> by_dir_rows), t)
    ∧ Forall is_print t.
Proof.
  revert by_dir_rows.
  induction completion as [|i completion IH]; intros by_dir_rows Hnd.
  - exists []. split; [|done]. simpl. unfold io_ret. do 2 f_equal.
    rewrite <- (list_fmap_id by_dir_rows) at 1. apply list_fmap_ext.
    intros _ [d rs] _. simpl. by rewrite app_nil_r.
  - simpl. destruct (futures !! i) as [[sd [fp src]]|] eqn:Hi.
    + destruct (filter_one_file_io fp src
                  (parm2 p) (parm3 p) (parm4 p) (parm5 p))
        as (rows & t1 & Hf & Ht1).
      rewrite io_bind_eq, Hf. cbn [fst snd].
      set (bdr := match rows with
                  | [] => by_dir_rows
                  | _ :: _ => extend_dir by_dir_rows sd rows
                  end).
      assert (bdr = (λ x, (x.1, x.2 ++ if String.eqb (sd_path x.1) sd
                                        then rows else []))
                      <$> by_dir_rows) as Hbdr.
      { unfold bdr. destruct rows as [|r rows]; [|by apply extend_dir_map].
        rewrite <- (list_fmap_id by_dir_rows) at 1. apply list_fmap_ext.
        intros _ [d rs] _. simpl. by destruct (String.eqb _ _);
          rewrite app_nil_r. }
      destruct (IH bdr) as (t2 & -> & Ht2).
      { replace (bdr.*1) with (by_dir_rows.*1); [done|].
        rewrite Hbdr, <- list_fmap_compose. by apply list_fmap_ext. }
      exists (t1 ++ t2). split; [|by apply Forall_app]. cbn [fst snd].
      do 2 f_equal. rewrite Hbdr, <- list_fmap_compose.
      apply list_fmap_ext. intros _ [d rs] _. simpl.
      rewrite <- app_assoc. do 2 f_equal.
      by rewrite (task_rows_eq p sd fp src rows t1 Hf).
    + destruct (IH by_dir_rows Hnd) as (t & -> & Ht).
      by exists t.
Qed.

Lemma io_bind_ret_l {A B} (a : A) (f : A → io B) : io_bind (Ok a, []) f = f a.
Proof. unfold io_bind. by destruct (f a). Qed.

Lemma io_bind_ext {A B} (m : io A) (f g : A → io B) :
  (∀ a, f a = g a) → io_bind m f = io_bind m g.
Proof. intros Hfg. destruct m as [[a|e] t]; simpl; [|done]. by rewrite Hfg. Qed.

Lemma io_for_each_ext {A} (l : list A) (f g : A → io unit) :
  (∀ x, f x = g x) → io_for_each l f = io_for_each l g.
Proof.
  intros Hfg. induction l as [|x l IH]; [done|]. simpl. by rewrite Hfg, IH.
Qed.

Lemma io_for_each_cons {A} (x : A) l (body : A → io unit) :
  io_for_each (x :: l) body
  = match (body x).1 with
    | Ok _ => ((io_for_each l body).1, (body x).2 ++ (io_for_each l body).2)
    | Raise e => (Raise e, (body x).2)
    end.
Proof. simpl. apply io_bind_eq. Qed.

Lemma main_failed_parameters pf cl subdirs workers completion e :
  load_parameters pf = Raise e →
  main pf cl subdirs workers completion = (Raise e, []).
Proof. intros H. unfold main. by rewrite H. Qed.

Lemma main_failed_contigs pf cl subdirs workers completion p e :
  load_parameters pf = Ok p → load_contig_lengths cl = Raise e →
  main pf cl subdirs workers completion = (Raise e, []).
Proof. intros Hp Hc. unfold main. by rewrite Hp, io_bind_eq, Hc. Qed.

Lemma main_loaded pf cl subdirs workers completion p clm :
  load_parameters pf = Ok p → load_contig_lengths cl = Ok clm →
  main pf cl subdirs workers completion
  = match per_dir_files subdirs with
    | [] => print "No queries/*.csv found under any chromosome folder."
    | _ :: _ =>
        io_bind (lift (process_pool workers))
          (λ _, io_bind
                  (collect p (submitted (per_dir_files subdirs)) completion
                     ((λ sd, (sd, [])) <$> per_dir_files subdirs))
                  (λ by_dir_rows, io_for_each by_dir_rows (write_dir clm)))
    end.
Proof.
  intros Hp Hc. unfold main. unfold lift at 1 2.
  rewrite Hp, io_bind_ret_l, Hc, io_bind_ret_l.
  fold (per_dir_files subdirs).
  destruct (per_dir_files subdirs) as [|d pdf]; [done|].
  apply io_bind_ext. intros _.
  apply io_bind_ext. intros by_dir_rows. apply io_for_each_ext.
  by intros [sd rows].
Qed.

(** The executor refuses to start. *)
Lemma main_pool_refuses pf cl subdirs workers completion p clm :
  load_parameters pf = Ok p → load_contig_lengths cl = Ok clm →
  per_dir_files subdirs ≠ [] → (workers ≤ 0)%Z →
  main pf cl subdirs workers completion
  = (Raise (ValueError "max_workers must be greater than 0"), []).
Proof.
  intros Hp Hc Hpdf Hw. rewrite (main_loaded _ _ _ _ _ p clm Hp Hc).
  destruct (per_dir_files subdirs) as [|d pdf]; [done|].
  unfold process_pool. by destruct (Z.leb_spec workers 0); [|lia].
Qed.

(** The executor starts. *)
Lemma main_pool_starts pf cl subdirs workers completion p clm :
  load_parameters pf = Ok p → load_contig_lengths cl = Ok clm →
  (0 < workers)%Z ∨ per_dir_files subdirs = [] →
  main pf cl subdirs workers completion
  = match per_dir_files subdirs with
    | [] => print "No queries/*.csv found under any chromosome folder."
    | _ :: _ =>
        io_bind (collect p (submitted (per_dir_files subdirs)) completion
                   ((λ sd, (sd, [])) <$> per_dir_files subdirs))
                (λ by_dir_rows, io_for_each by_dir_rows (write_dir clm))
    end.
Proof.
  intros Hp Hc Hw. rewrite (main_loaded _ _ _ _ _ p clm Hp Hc).
  destruct (per_dir_files subdirs) as [|d pdf]; [done|].
  destruct Hw as [Hw|Hw]; [|done].
  unfold process_pool. destruct (Z.leb_spec workers 0); [lia|].
  unfold lift. by rewrite io_bind_ret_l.
Qed.

Lemma main_pool_cases (subdirs : list chromosome_dir) (workers : Z) :
  ((0 < workers)%Z ∨ per_dir_files subdirs = [])
  ∨ ((workers ≤ 0)%Z ∧ per_dir_files subdirs ≠ []).
Proof.
  destruct (Z.lt_ge_cases 0 workers) as [?|?]; [by left; left|].
  destruct (per_dir_files subdirs); [by left; right|by right].
Qed.

Lemma main_Ok_started pf cl subdirs workers completion p clm :
  load_parameters pf = Ok p → load_contig_lengths cl = Ok clm →
  (main pf cl subdirs workers completion).1 = Ok () →
  (0 < workers)%Z ∨ per_dir_files subdirs = [].
Proof.
  intros Hp Hc Hok.
  destruct (main_pool_cases subdirs workers) as [?|[Hw Hpdf]]; [done|].
  by rewrite (main_pool_refuses _ _ _ _ _ p clm Hp Hc Hpdf Hw) in Hok.
Qed.

Lemma per_dir_files_NoDup subdirs :
  NoDup (sd_path <$> subdirs) → NoDup (sd_path <$> per_dir_files subdirs).
Proof.
  intros H. refine (sublist_NoDup _ _ H _).
  apply fmap_sublist. unfold per_dir_files. apply list_filter_sublist.
Qed.

(** The run after the two files are loaded, with unique directories: the
    last loop, on the rows routed to the directories. *)
Lemma main_run pf cl subdirs workers completion p clm :
  NoDup (sd_path <$> subdirs) →
  load_parameters pf = Ok p → load_contig_lengths cl = Ok clm →
  (0 < workers)%Z ∨ per_dir_files subdirs = [] →
  (main pf cl subdirs workers completion).1
  = (io_for_each (dir_rows p subdirs completion) (write_dir clm)).1
  ∧ writes (main pf cl subdirs workers completion).2
    = writes (io_for_each (dir_rows p subdirs completion) (write_dir clm)).2.
Proof.
  intros Hnd%per_dir_files_NoDup Hp Hc Hw.
  rewrite (main_pool_starts _ _ _ _ _ p clm Hp Hc Hw). unfold dir_rows.
  destruct (per_dir_files subdirs) as [|d pdf] eqn:Hpdf; [done|].
  rewrite <- Hpdf in *. clear Hpdf.
  destruct (collect_routed p (submitted (per_dir_files subdirs)) completion
              ((λ sd, (sd, [])) <$> per_dir_files subdirs))
    as (t & Hcol & Ht).
  { rewrite <- !list_fmap_compose. exact Hnd. }
  rewrite io_bind_eq, Hcol. cbn [fst snd].
  rewrite <- list_fmap_compose. unfold compose. cbn [fst snd app].
  split; [done|]. by rewrite writes_app, (writes_prints t Ht).
Qed.

(** The rows of a file that is read are rows of 13 fields. *)
Lemma filter_one_file_thirteen path src p2 p3 p4 p5 :
  ∃ rows t, filter_one_file path src p2 p3 p4 p5 = (Ok rows, t)
            ∧ Forall is_print t ∧ Forall (λ r, length r = 13) rows.
Proof.
  unfold filter_one_file.
  destruct (filter_try path src p2 p3 p4 p5) as [out|e] eqn:Htry.
  - exists out, []. split; [done|]. split; [constructor|].
    destruct (filter_try_Ok _ _ _ _ _ _ _ Htry)
      as [Hall [->|(r0 & s & gl & m & _ & _ & _ & _ & _ & ->)]];
      [constructor|by apply list_filter_Forall].
  - eexists [], _. split; [done|]. split; by repeat constructor.
Qed.

Lemma extend_dir_thirteen by_dir_rows sd (rows : list row) :
  Forall (λ r, length r = 13) rows →
  Forall (λ x, Forall (λ r, length r = 13) x.2) by_dir_rows →
  Forall (λ x, Forall (λ r, length r = 13) x.2)
         (extend_dir by_dir_rows sd rows).
Proof.
  intros Hrows. induction 1 as [|[d rs] l Hx Hl IH]; simpl; [constructor|].
  destruct (String.eqb (sd_path d) sd).
  - constructor; [|done]. simpl in *. by apply Forall_app.
  - by constructor.
Qed.

Lemma collect_thirteen p futures completion by_dir_rows :
  Forall (λ x, Forall (λ r, length r = 13) x.2) by_dir_rows →
  ∃ by_dir_rows' t,
    collect p futures completion by_dir_rows = (Ok by_dir_rows', t)
    ∧ Forall is_print t
    ∧ by_dir_rows'.*1 = by_dir_rows.*1
    ∧ Forall (λ x, Forall (λ r, length r = 13) x.2) by_dir_rows'.
Proof.
  revert by_dir_rows.
  induction completion as [|i completion IH]; intros by_dir_rows Hall; simpl.
  - exists by_dir_rows, []. repeat split; auto.
  - destruct (futures !! i) as [[sd [fp src]]|]; [|by apply IH].
    destruct (filter_one_file_thirteen fp src
                (parm2 p) (parm3 p) (parm4 p) (parm5 p))
      as (rows & t1 & Hf & Ht1 & Hrows).
    rewrite io_bind_eq, Hf. cbn [fst snd].
    destruct (IH (match rows with
                  | [] => by_dir_rows
                  | _ :: _ => extend_dir by_dir_rows sd rows
                  end)) as (bdr & t2 & -> & Ht2 & Hkeys & Hinv).
    { destruct rows; [done|by apply extend_dir_thirteen]. }
    exists bdr, (t1 ++ t2). split; [done|]. split; [by apply Forall_app|].
    split; [|done]. rewrite Hkeys. destruct rows; [done|].
    apply extend_dir_keys.
Qed.

Lemma write_dir_eq clm (x : chromosome_dir * list row) :
  write_dir clm x
  = match (genes_of (path_join (sd_path x.1) "query_filtered.csv")
                    (sd_genes x.1)).1 with
    | Ok genes =>
        match enrich_rows genes clm x.2 with
        | Ok out =>
            (Ok (),
             (genes_of (path_join (sd_path x.1) "query_filtered.csv")
                       (sd_genes x.1)).2
             ++ [WriteFile (out_path x.1) (FINAL_HEADER :: out);
                 Print ("[ok] " +:+ path_name (sd_path x.1) +:+ ": wrote "
                          +:+ pretty (length out) +:+ " rows -> "
                          +:+ out_path x.1)])
        | Raise e =>
            (Raise e, (genes_of (path_join (sd_path x.1) "query_filtered.csv")
                                (sd_genes x.1)).2)
        end
    | Raise e =>
        (Raise e, (genes_of (path_join (sd_path x.1) "query_filtered.csv")
                            (sd_genes x.1)).2)
    end.
Proof. unfold write_dir. apply enrich_and_write_eq. Qed.

Lemma genes_of_prints genes_path genes_file :
  writes (genes_of genes_path genes_file).2 = [].
Proof. by destruct genes_file. Qed.

(** The last loop on rows of 13 fields: the files of the directories are
    written in order, up to the first directory whose annotation file
    does not load. *)
Lemma write_loop_thirteen clm by_dir_rows :
  Forall (λ x, Forall (λ r, length r = 13) x.2) by_dir_rows →
  ∃ k,
    (writes (io_for_each by_dir_rows (write_dir clm)).2).*1
    = out_path <$> take k by_dir_rows.*1
    ∧ match (io_for_each by_dir_rows (write_dir clm)).1 with
      | Ok _ => k = length by_dir_rows
      | Raise e =>
          ∃ d src, by_dir_rows.*1 !! k = Some d ∧ sd_genes d = Some src
                   ∧ load_genes src = Raise e
      end.
Proof.
  induction 1 as [|[d rows] l Hx _ (k & Hw & Hr)]; [by exists 0|].
  rewrite io_for_each_cons, (write_dir_eq clm (d, rows)). cbn [fst snd] in *.
  destruct (genes_of _ (sd_genes d)).1 as [genes|e] eqn:Hg.
  - rewrite enrich_rows_written by done. cbn [fst snd].
    exists (S k). split.
    + by rewrite !writes_app, !fmap_app, Hw, genes_of_prints.
    + destruct (io_for_each l _).1; [simpl; by f_equal|exact Hr].
  - destruct (genes_of_Raise _ _ _ Hg) as (src & Hsrc & Hload & Ht).
    exists 0. cbn [fst snd]. rewrite genes_of_prints. split; [done|].
    by exists d, src.
Qed.

(** The last loop when it ends well: what is written for each entry. *)
Lemma write_loop_Ok clm by_dir_rows :
  (io_for_each by_dir_rows (write_dir clm)).1 = Ok () →
  Forall2 (λ w x, ∃ genes out,
             (genes_of (path_join (sd_path x.1) "query_filtered.csv")
                       (sd_genes x.1)).1 = Ok genes
             ∧ enrich_rows genes clm x.2 = Ok out
             ∧ w = (out_path x.1, FINAL_HEADER :: out))
          (writes (io_for_each by_dir_rows (write_dir clm)).2) by_dir_rows.
Proof.
  induction by_dir_rows as [|[d rows] l IH]; [constructor|].
  rewrite io_for_each_cons, (write_dir_eq clm (d, rows)). cbn [fst snd].
  destruct (genes_of _ (sd_genes d)).1 as [genes|e] eqn:Hg; [|done].
  destruct (enrich_rows genes clm rows) as [out|e] eqn:Hout; [|done].
  cbn [fst snd]. intros Hl.
  rewrite !writes_app, genes_of_prints.
  simpl. constructor; [|by apply IH].
  exists genes, out. cbn [fst snd]. by rewrite Hg.
Qed.

(** The last loop on the same directories with the same rows in another
    order. *)
Lemma write_loop_perm clm (l l' : list (chromosome_dir * list row)) :
  Forall2 (λ x y, x.1 = y.1 ∧ x.2 ≡ₚ y.2) l l' →
  (io_for_each l (write_dir clm)).1 = (io_for_each l' (write_dir clm)).1
  ∧ Forall2 same_file (writes (io_for_each l (write_dir clm)).2)
                      (writes (io_for_each l' (write_dir clm)).2).
Proof.
  induction 1 as [|[d rows] [d' rows'] l l' [Hd Hrows] _ [IH1 IH2]];
    [by split; [|constructor]|].
  simpl in Hd, Hrows. subst d'. rewrite !io_for_each_cons.
  rewrite (write_dir_eq clm (d, rows)), (write_dir_eq clm (d, rows')).
  cbn [fst snd].
  destruct (genes_of _ (sd_genes d)).1 as [genes|e] eqn:Hg.
  - pose proof (enrich_rows_perm genes clm rows rows' Hrows) as Hperm.
    destruct (enrich_rows genes clm rows) as [out|e],
      (enrich_rows genes clm rows') as [out'|e']; try done.
    + cbn [fst snd]. split; [done|].
      rewrite !writes_app, !genes_of_prints.
      simpl. constructor; [|done]. split; [done|]. by exists out, out'.
    + subst e'. cbn [fst snd]. split; [done|].
      rewrite !genes_of_prints. constructor.
  - cbn [fst snd]. split; [done|]. rewrite !genes_of_prints. constructor.
Qed.

Lemma routed_perm p futures completion completion' key :
  completion ≡ₚ completion' →
  routed p futures completion key ≡ₚ routed p futures completion' key.
Proof. intros H. unfold routed. by rewrite H. Qed.

End MoreMainProofs.

(** X12. The loop over the finished tasks gives every directory the rows
    of its own tasks and of no other: when the paths of the directories
    differ, the rows gathered for a directory are those it had, followed
    by the rows of its tasks in the order in which the tasks finish.  The
    loop never fails and writes nothing. *)
Theorem collect_routes_by_directory
    {PF : PyFloat} (p : params)
    (futures : list (string * (string * csv_source)))
    (completion : list nat) (by_dir_rows : list (chromosome_dir * list row)) :
  NoDup (sd_path <$> by_dir_rows.*1) →
  (collect p futures completion by_dir_rows).1
  = Ok ((λ x, (x.1, x.2 ++ routed p futures completion (sd_path x.1)))
          <$> by_dir_rows)
  ∧ writes (collect p futures completion by_dir_rows).2 = [].
Proof.
  intros Hnd.
  destruct (collect_routed p futures completion by_dir_rows Hnd)
    as (t & -> & Ht).
  split; [done|]. by apply writes_prints.
Qed.

(** X13. In a run that ends well, with directories of different paths,
    the files written are, in the order of the directories, one for
    every directory that has query files: its contigs_of_interest.csv,
    with the header and then the rows that the Enricher makes from the
    rows of the tasks of that directory alone, in the order in which
    those tasks finished.  The files of another directory, and the order
    in which its tasks finish, do not enter. *)
Theorem main_writes_per_directory
    {PF : PyFloat} (params_file : list string) (contig_lengths : csv_source)
    (subdirs : list chromosome_dir) (workers : Z) (completion : list nat)
    (p : params) (contig_len_map : gmap string float) :
  NoDup (sd_path <$> subdirs) →
  load_parameters params_file = Ok p →
  load_contig_lengths contig_lengths = Ok contig_len_map →
  (main params_file contig_lengths subdirs workers completion).1 = Ok () →
  Forall2
    (λ w d, ∃ genes out,
       (genes_of (path_join (sd_path d) "query_filtered.csv") (sd_genes d)).1
       = Ok genes
       ∧ enrich_rows genes contig_len_map
           (routed p (submitted (per_dir_files subdirs)) completion (sd_path d))
         = Ok out
       ∧ w = (path_join (sd_path d) "contigs_of_interest.csv",
              FINAL_HEADER :: out))
    (writes (main params_file contig_lengths subdirs workers completion).2)
    (per_dir_files subdirs).
Proof.
  intros Hnd Hp Hc Hok.
  pose proof (main_Ok_started _ _ _ _ _ p contig_len_map Hp Hc Hok) as Hw.
  revert Hok.
  destruct (main_run params_file contig_lengths subdirs workers completion
              p contig_len_map Hnd Hp Hc Hw) as [-> ->].
  intros Hok%write_loop_Ok. unfold dir_rows in Hok.
  apply Forall2_fmap_r in Hok. exact Hok.
Qed.

(** X14. With the directories listed, and the tasks run and the files
    written without a failure of the executor or of the writing, a run
    fails only in these places: at the parameter file, at the contig
    length file, at the start of the executor, which refuses a number of
    workers that is not positive (and is started only when some
    directory has query files), or at the annotation file of a directory
    that has query files.  No query file and no order of the tasks makes
    it fail.  The output files are written in the order of the
    directories that have query files, so a run that stops at the
    annotation file of a directory has written the files of the
    directories before it and of no other, a run that stops earlier has
    written none, and a run that ends well has written them all. *)
Theorem main_failures_and_writes
    {PF : PyFloat} (params_file : list string) (contig_lengths : csv_source)
    (subdirs : list chromosome_dir) (workers : Z) (completion : list nat) :
  ∃ k,
    (writes (main params_file contig_lengths subdirs workers completion).2).*1
    = (λ d, path_join (sd_path d) "contigs_of_interest.csv")
        <$> take k (per_dir_files subdirs)
    ∧ match (main params_file contig_lengths subdirs workers completion).1 with
      | Ok _ =>
          k = length (per_dir_files subdirs)
          ∧ ((0 < workers)%Z ∨ per_dir_files subdirs = [])
      | Raise e =>
          (k = 0 ∧ load_parameters params_file = Raise e)
          ∨ (k = 0 ∧ load_contig_lengths contig_lengths = Raise e)
          ∨ (k = 0 ∧ (workers ≤ 0)%Z ∧ per_dir_files subdirs ≠ []
             ∧ ∃ msg, e = ValueError msg)
          ∨ ((0 < workers)%Z
             ∧ ∃ d src, per_dir_files subdirs !! k = Some d
                        ∧ sd_genes d = Some src ∧ load_genes src = Raise e)
      end.
Proof.
  destruct (load_parameters params_file) as [p|e] eqn:Hp;
    [|exists 0; rewrite (main_failed_parameters _ _ _ _ _ e Hp);
      split; [done|by left]].
  destruct (load_contig_lengths contig_lengths) as [clm|e] eqn:Hc;
    [|exists 0; rewrite (main_failed_contigs _ _ _ _ _ p e Hp Hc);
      split; [done|by right; left]].
  destruct (main_pool_cases subdirs workers) as [Hw|[Hw Hpdf]];
    [|exists 0; rewrite (main_pool_refuses _ _ _ _ _ p clm Hp Hc Hpdf Hw);
      split; [done|right; right; left; eauto 6]].
  rewrite (main_pool_starts _ _ _ _ _ p clm Hp Hc Hw).
  destruct (per_dir_files subdirs) as [|d pdf] eqn:Hpdf;
    [exists 0; split; [done|split; [done|by right]]|].
  destruct Hw as [Hw|Hw]; [|done].
  rewrite <- Hpdf. clear d pdf Hpdf.
  destruct (collect_thirteen p (submitted (per_dir_files subdirs)) completion
              ((λ sd, (sd, [])) <$> per_dir_files subdirs))
    as (bdr & t & Hcol & Ht & Hkeys & Hall).
  { apply Forall_fmap, Forall_forall. intros d _. apply Forall_nil_2. }
  rewrite io_bind_eq, Hcol. cbn [fst snd].
  rewrite <- list_fmap_compose in Hkeys.
  change (bdr.*1 = id <$> per_dir_files subdirs) in Hkeys.
  rewrite list_fmap_id in Hkeys.
  destruct (write_loop_thirteen clm bdr Hall) as (k & Hwr & Hr).
  rewrite Hkeys in Hwr, Hr. exists k. split.
  - destruct (io_for_each bdr (write_dir clm)).1; cbn [fst snd];
      by rewrite writes_app, (writes_prints t Ht).
  - destruct (io_for_each bdr (write_dir clm)).1; cbn [fst snd].
    + split; [|by left]. rewrite Hr, <- Hkeys. by rewrite length_fmap.
    + right; right; right. by split.
Qed.

(** X15. The order in which the tasks finish changes neither whether the
    run ends well, nor how it fails, nor which files are written; it
    changes at most the order of the rows in a file.  With directories
    of different paths, two runs that differ in that order alone end
    alike, and write files of the same paths, in the same order, each
    with the header and then the same rows in some order. *)
Theorem main_completion_order
    {PF : PyFloat} (params_file : list string) (contig_lengths : csv_source)
    (subdirs : list chromosome_dir) (workers : Z)
    (completion completion' : list nat) :
  NoDup (sd_path <$> subdirs) → completion ≡ₚ completion' →
  (main params_file contig_lengths subdirs workers completion).1
  = (main params_file contig_lengths subdirs workers completion').1
  ∧ Forall2 same_file
      (writes (main params_file contig_lengths subdirs workers completion).2)
      (writes (main params_file contig_lengths subdirs workers completion').2).
Proof.
  intros Hnd Hperm.
  destruct (load_parameters params_file) as [p|e] eqn:Hp;
    [|rewrite !(main_failed_parameters _ _ _ _ _ e Hp);
      by split; [|constructor]].
  destruct (load_contig_lengths contig_lengths) as [clm|e] eqn:Hc;
    [|rewrite !(main_failed_contigs _ _ _ _ _ p e Hp Hc);
      by split; [|constructor]].
  destruct (main_pool_cases subdirs workers) as [Hw|[Hw Hpdf]];
    [|rewrite !(main_pool_refuses _ _ _ _ _ p clm Hp Hc Hpdf Hw);
      by split; [|constructor]].
  destruct (main_run params_file contig_lengths subdirs workers completion
              p clm Hnd Hp Hc Hw) as [-> ->].
  destruct (main_run params_file contig_lengths subdirs workers completion'
              p clm Hnd Hp Hc Hw) as [-> ->].
  apply write_loop_perm. unfold dir_rows.
  apply Forall2_fmap, Forall_Forall2_diag, Forall_forall.
  intros d _. split; [done|]. by apply routed_perm.
Qed.

Section RoutedProofs.
Context {PF : PyFloat}.

Lemma bind_seq_lookup {A B} (l : list A) (F : option A → list B) :
  (i ← seq 0 (length l); F (l !! i)) = (x ← l; F (Some x)).
Proof.
  induction l as [|x l IH]; [done|].
  cbn [length seq]. rewrite !bind_cons, <- fmap_S_seq, list_fmap_bind.
  by rewrite <- IH.
Qed.

Lemma list_bind_bind {A B C} (l : list A) (h : A → list B) (g : B → list C) :
  (l ≫= h) ≫= g = (x ← l; h x ≫= g).
Proof.
  induction l as [|x l IH]; [done|]. by rewrite !bind_cons, bind_app, IH.
Qed.

Lemma bind_nil_const {A B} (l : list A) : (_ ← l; @nil B) = [].
Proof. induction l as [|x l IH]; [done|]. by rewrite bind_cons, IH. Qed.

Lemma routed_all p futures key :
  routed p futures (seq 0 (length futures)) key
  = (task ← futures; if String.eqb key task.1 then task_rows p task else []).
Proof.
  unfold routed.
  apply (bind_seq_lookup futures
           (λ o, match o with
                 | Some task =>
                     if String.eqb key task.1 then task_rows p task else []
                 | None => []
                 end)).
Qed.

Lemma bind_own {B} (pdf : list chromosome_dir) (d : chromosome_dir)
    (G : chromosome_dir → list B) :
  NoDup (sd_path <$> pdf) → d ∈ pdf →
  (sd ← pdf; if String.eqb (sd_path d) (sd_path sd) then G sd else []) = G d.
Proof.
  induction pdf as [|d' pdf IH]; [by intros _ ?%elem_of_nil|].
  rewrite fmap_cons. intros [Hd' Hnd]%NoDup_cons Hin. rewrite bind_cons.
  apply elem_of_cons in Hin as [->|Hin].
  - rewrite String.eqb_refl.
    assert ((sd ← pdf; if String.eqb (sd_path d') (sd_path sd)
                       then G sd else []) = []) as ->;
      [|by rewrite app_nil_r].
    clear IH Hnd. induction pdf as [|d'' pdf IH]; [done|].
    rewrite fmap_cons in Hd'. apply not_elem_of_cons in Hd' as [Hne Hd'].
    rewrite bind_cons, IH by done.
    by destruct (String.eqb_spec (sd_path d') (sd_path d'')).
  - destruct (String.eqb_spec (sd_path d) (sd_path d')) as [Heq|_];
      [|by apply IH].
    destruct Hd'. rewrite <- Heq. by apply list_elem_of_fmap_2.
Qed.

Lemma routed_own p (pdf : list chromosome_dir) d :
  NoDup (sd_path <$> pdf) → d ∈ pdf →
  routed p (submitted pdf) (seq 0 (length (submitted pdf))) (sd_path d)
  = own_rows p d.
Proof.
  intros Hnd Hd. rewrite routed_all. unfold submitted.
  rewrite list_bind_bind. rewrite <- (bind_own pdf d (own_rows p) Hnd Hd).
  apply list_bind_ext; [|done]. intros sd.
  rewrite list_fmap_bind. unfold own_rows, compose. cbn [fst].
  destruct (String.eqb (sd_path d) (sd_path sd)); [done|].
  apply bind_nil_const.
Qed.

Lemma task_rows_thirteen p task : Forall (λ r, length r = 13) (task_rows p task).
Proof.
  unfold task_rows.
  destruct (filter_one_file_thirteen task.2.1 task.2.2
              (parm2 p) (parm3 p) (parm4 p) (parm5 p))
    as (rows & t & -> & _ & Hrows).
  done.
Qed.

Lemma routed_thirteen p futures completion key :
  Forall (λ r, length r = 13) (routed p futures completion key).
Proof.
  unfold routed. apply Forall_bind, Forall_forall. intros i _.
  unfold compose. cbv beta.
  destruct (futures !! i) as [task|]; [|apply Forall_nil_2].
  destruct (String.eqb key task.1);
    [apply task_rows_thirteen|apply Forall_nil_2].
Qed.

End RoutedProofs.

(** X16. What a run that ends well writes, when every task finishes
    once and the directories have different paths: for every directory
    that has query files, in the order of the directories, one file, with
    the header and then, in some order, the enriched row of every
    distinct row that the filter keeps from the query files of that
    directory.  No row of another directory enters, no row is lost and
    no row is written twice. *)
Theorem main_writes_own_rows
    {PF : PyFloat} (params_file : list string) (contig_lengths : csv_source)
    (subdirs : list chromosome_dir) (workers : Z) (completion : list nat)
    (p : params) (contig_len_map : gmap string float) :
  NoDup (sd_path <$> subdirs) →
  load_parameters params_file = Ok p →
  load_contig_lengths contig_lengths = Ok contig_len_map →
  completion ≡ₚ seq 0 (length (submitted (per_dir_files subdirs))) →
  (main params_file contig_lengths subdirs workers completion).1 = Ok () →
  Forall2
    (λ w d, ∃ genes out,
       (genes_of (path_join (sd_path d) "query_filtered.csv") (sd_genes d)).1
       = Ok genes
       ∧ w = (path_join (sd_path d) "contigs_of_interest.csv",
              FINAL_HEADER :: out)
       ∧ out ≡ₚ enriched_spec genes contig_len_map
                  <$> dedup_rows (own_rows p d))
    (writes (main params_file contig_lengths subdirs workers completion).2)
    (per_dir_files subdirs).
Proof.
  intros Hnd Hp Hc Hperm Hok.
  pose proof (main_Ok_started _ _ _ _ _ p contig_len_map Hp Hc Hok) as Hst.
  revert Hok.
  destruct (main_run params_file contig_lengths subdirs workers completion
              p contig_len_map Hnd Hp Hc Hst) as [-> ->].
  intros Hok%write_loop_Ok. unfold dir_rows in Hok.
  apply Forall2_fmap_r in Hok.
  apply Forall2_same_length_lookup in Hok as [Hlen Hok].
  apply Forall2_same_length_lookup. split; [done|].
  intros i w d Hw Hd.
  destruct (Hok i w d Hw Hd) as (genes & out & Hg & Hout & ->).
  exists genes, out. split; [done|]. split; [done|].
  unfold compose in Hout. cbn [fst snd] in Hout.
  rewrite enrich_rows_written in Hout by apply routed_thirteen.
  injection Hout as <-. rewrite written_spec_perm.
  apply fmap_Permutation, dedup_rows_perm.
  rewrite <- (routed_own p (per_dir_files subdirs) d);
    [by apply routed_perm|by apply per_dir_files_NoDup|].
  by eapply list_elem_of_lookup_2.
Qed.

Section UnusedParameters.
Context {PF : PyFloat}.

Lemma collect_params_ext p q futures completion by_dir_rows :
  parm2 p = parm2 q → parm3 p = parm3 q → parm4 p = parm4 q →
  parm5 p = parm5 q →
  collect p futures completion by_dir_rows
  = collect q futures completion by_dir_rows.
Proof.
  intros H2 H3 H4 H5. revert by_dir_rows.
  induction completion as [|i completion IH]; intros by_dir_rows; [done|].
  simpl. destruct (futures !! i) as [[sd [fp src]]|]; [|apply IH].
  rewrite H2, H3, H4, H5. apply io_bind_ext. intros rows. apply IH.
Qed.

End UnusedParameters.

(** X17. Of the eight parameters a run uses four: parm2 and the three
    multipliers.  Two parameter files that load and give the same parm2,
    parm3, parm4 and parm5 give the same run, whatever their parm1,
    parm6, parm7 and parm8 are; these four are read, and must parse for
    the file to load, and are used nowhere. *)
Theorem main_unused_parameters
    {PF : PyFloat} (params_file params_file' : list string)
    (contig_lengths : csv_source) (subdirs : list chromosome_dir)
    (workers : Z) (completion : list nat) (p q : params) :
  load_parameters params_file = Ok p →
  load_parameters params_file' = Ok q →
  parm2 p = parm2 q → parm3 p = parm3 q → parm4 p = parm4 q →
  parm5 p = parm5 q →
  main params_file contig_lengths subdirs workers completion
  = main params_file' contig_lengths subdirs workers completion.
Proof.
  intros Hp Hq H2 H3 H4 H5.
  destruct (load_contig_lengths contig_lengths) as [clm|e] eqn:Hc.
  - rewrite (main_loaded _ _ _ _ _ p clm Hp Hc),
      (main_loaded _ _ _ _ _ q clm Hq Hc).
    destruct (per_dir_files subdirs) as [|d pdf]; [done|].
    by rewrite (collect_params_ext p q).
  - by rewrite (main_failed_contigs _ _ _ _ _ p e Hp Hc),
      (main_failed_contigs _ _ _ _ _ q e Hq Hc).
Qed.

(** ** The output file of a directory *)

Section OutputFileProofs.
Context {PF : PyFloat}.











End OutputFileProofs.


(** * The further theorems on the sample inputs *)

Section MoreWitnesses.
Import Dec Sample MoreSample.

Lemma load_parameters_raises_ValueError_witness :
  load_parameters (PF := dec_float) params_short_txt
  = Raise (ValueError
             "parameters file must have at least 8 rows after header").
Proof.
  apply (load_parameters_raises_ValueError (PF := dec_float) params_short_txt).
  vm_compute. lia.
Defined.

Lemma load_parameters_first_failure_witness :
  ∃ e, param_line (PF := dec_float) (drop 1 (nonblank_lines params_bad_txt)) 5
       = Raise e
       ∧ load_parameters (PF := dec_float) params_bad_txt = Raise e.
Proof.
  apply (load_parameters_first_failure (PF := dec_float) params_bad_txt 2 5).
  - vm_compute. lia.
  - vm_compute. reflexivity.
Defined.

Lemma load_parameters_first_eight_witness :
  load_parameters (PF := dec_float) params_txt
  = load_parameters (PF := dec_float) params_padded_txt.
Proof.
  apply (load_parameters_first_eight (PF := dec_float)
           params_txt params_padded_txt).
  vm_compute. reflexivity.
Defined.

Lemma load_contig_lengths_last_row_wins_witness :
  lengths_twice !! "ctgA"
  = (λ r, default (@fnan dec_float) (r !! 1 ≫= @py_float dec_float))
      <$> last (filter (λ r, r !! 0 = Some "ctgA")
                       (src_records lengths_twice_csv)).
Proof.
  apply (load_contig_lengths_last_row_wins (PF := dec_float)
           lengths_twice_csv lengths_twice "ctgA").
  vm_compute. reflexivity.
Defined.

Lemma load_genes_short_line_witness :
  ∃ msg, load_genes (PF := dec_float) genes_short_csv = Raise (TypeError msg).
Proof.
  apply (load_genes_short_line (PF := dec_float) genes_short_csv).
  exists short_rec. split; [right; by left|].
  split; [|right; reflexivity].
  exists "g1". split; [discriminate|]. left. reflexivity.
Defined.

Lemma load_genes_last_record_wins_witness :
  genes_mixed !! "g1"
  = gene_entry_spec (PF := dec_float)
      <$> last (filter (λ rec, gene_id_spec rec "g1")
                       (dsrc_records genes_mixed_csv)).
Proof.
  apply (load_genes_last_record_wins (PF := dec_float)
           genes_mixed_csv genes_mixed "g1").
  vm_compute. reflexivity.
Defined.

Lemma enrich_rows_distinct_rows_once_witness :
  ∃ out,
    enrich_rows (PF := dec_float) genes_2L lengths [row_a; row_b; row_a]
    = Ok out
    ∧ out ≡ₚ enriched_spec genes_2L lengths <$> dedup_rows [row_a; row_b; row_a]
    ∧ length out = length (dedup_rows [row_a; row_b; row_a])
    ∧ NoDup out.
Proof.
  apply (enrich_rows_distinct_rows_once (PF := dec_float) genes_2L lengths
           [row_a; row_b; row_a]).
  repeat constructor.
Defined.

Lemma enrich_rows_sorted_stable_witness :
  ∃ out,
    enrich_rows (PF := dec_float) genes_2L lengths [row_a; row_c; row_b]
    = Ok out
    ∧ StronglySorted
        (λ e1 e2, @flt dec_float (sort_key_spec e2) (sort_key_spec e1) = false)
        out
    ∧ ∀ z, @fisnan dec_float (sort_key_spec z) = false →
        filter (λ e, @flt dec_float (sort_key_spec z) (sort_key_spec e) = false
                     ∧ @flt dec_float (sort_key_spec e) (sort_key_spec z)
                       = false) out
        = filter (λ e, @flt dec_float (sort_key_spec z) (sort_key_spec e)
                       = false
                       ∧ @flt dec_float (sort_key_spec e) (sort_key_spec z)
                         = false)
            (enriched_spec genes_2L lengths
               <$> dedup_rows [row_a; row_c; row_b]).
Proof.
  apply (enrich_rows_sorted_stable (PF := dec_float) genes_2L lengths
           [row_a; row_c; row_b]).
  - repeat constructor.
  - repeat constructor; vm_compute; reflexivity.
Defined.


Lemma collect_routes_by_directory_witness :
  (collect (PF := dec_float) params_values (submitted [dir_2L; dir_3R])
     [2; 0; 1] [(dir_2L, []); (dir_3R, [row_b])]).1
  = Ok ((λ x, (x.1, x.2 ++ routed params_values (submitted [dir_2L; dir_3R])
                             [2; 0; 1] (sd_path x.1)))
          <$> [(dir_2L, []); (dir_3R, [row_b])])
  ∧ writes (collect (PF := dec_float) params_values
              (submitted [dir_2L; dir_3R]) [2; 0; 1]
              [(dir_2L, []); (dir_3R, [row_b])]).2 = [].
Proof.
  apply (collect_routes_by_directory (PF := dec_float) params_values
           (submitted [dir_2L; dir_3R]) [2; 0; 1]
           [(dir_2L, []); (dir_3R, [row_b])]).
  apply (bool_decide_unpack _). vm_compute. exact I.
Defined.

Lemma main_writes_per_directory_witness :
  Forall2
    (λ w d, ∃ genes out,
       (genes_of (PF := dec_float)
          (path_join (sd_path d) "query_filtered.csv") (sd_genes d)).1
       = Ok genes
       ∧ enrich_rows genes lengths
           (routed params_values
              (submitted (per_dir_files [dir_4; dir_2L; dir_3R]))
              [2; 0; 1] (sd_path d))
         = Ok out
       ∧ w = (path_join (sd_path d) "contigs_of_interest.csv",
              FINAL_HEADER :: out))
    (writes (main (PF := dec_float) params_txt lengths_csv
               [dir_4; dir_2L; dir_3R] 4 [2; 0; 1]).2)
    (per_dir_files [dir_4; dir_2L; dir_3R]).
Proof.
  apply (main_writes_per_directory (PF := dec_float) params_txt lengths_csv
           [dir_4; dir_2L; dir_3R] 4 [2; 0; 1] params_values lengths).
  - apply (bool_decide_unpack _). vm_compute. exact I.
  - exact load_parameters_sample.
  - vm_compute. reflexivity.
  - vm_compute. reflexivity.
Defined.

Lemma main_completion_order_witness :
  (main (PF := dec_float) params_txt lengths_csv
     [dir_4; dir_2L; dir_3R] 4 [2; 0; 1]).1
  = (main (PF := dec_float) params_txt lengths_csv
       [dir_4; dir_2L; dir_3R] 4 [0; 1; 2]).1
  ∧ Forall2 same_file
      (writes (main (PF := dec_float) params_txt lengths_csv
                 [dir_4; dir_2L; dir_3R] 4 [2; 0; 1]).2)
      (writes (main (PF := dec_float) params_txt lengths_csv
                 [dir_4; dir_2L; dir_3R] 4 [0; 1; 2]).2).
Proof.
  apply (main_completion_order (PF := dec_float) params_txt lengths_csv
           [dir_4; dir_2L; dir_3R] 4 [2; 0; 1] [0; 1; 2]).
  - apply (bool_decide_unpack _). vm_compute. exact I.
  - apply (Permutation_cons_append [0; 1] 2).
Defined.

Lemma main_writes_own_rows_witness :
  Forall2
    (λ w d, ∃ genes out,
       (genes_of (PF := dec_float)
          (path_join (sd_path d) "query_filtered.csv") (sd_genes d)).1
       = Ok genes
       ∧ w = (path_join (sd_path d) "contigs_of_interest.csv",
              FINAL_HEADER :: out)
       ∧ out ≡ₚ enriched_spec genes lengths
                  <$> dedup_rows (own_rows params_values d))
    (writes (main (PF := dec_float) params_txt lengths_csv
               [dir_4; dir_2L; dir_3R] 4 [2; 0; 1]).2)
    (per_dir_files [dir_4; dir_2L; dir_3R]).
Proof.
  apply (main_writes_own_rows (PF := dec_float) params_txt lengths_csv
           [dir_4; dir_2L; dir_3R] 4 [2; 0; 1] params_values lengths).
  - apply (bool_decide_unpack _). vm_compute. exact I.
  - exact load_parameters_sample.
  - vm_compute. reflexivity.
  - apply (Permutation_cons_append [0; 1] 2).
  - vm_compute. reflexivity.
Defined.

Lemma load_parameters_other_sample :
  load_parameters (PF := dec_float) params_other_txt = Ok params_other_values.
Proof.
  pose proof (load_parameters_returns (PF := dec_float) params_other_txt) as R.
  cbv zeta in R.
  assert (values_spec (PF := dec_float)
            (drop 1 (nonblank_lines params_other_txt))
          = Some params_other_values) as Hv.
  { apply values_spec_Some. vm_compute. repeat split; reflexivity. }
  rewrite Hv in R. exact R.
Qed.

Lemma main_unused_parameters_witness :
  main (PF := dec_float) params_txt lengths_csv
    [dir_4; dir_2L; dir_3R] 4 [2; 0; 1]
  = main (PF := dec_float) params_other_txt lengths_csv
      [dir_4; dir_2L; dir_3R] 4 [2; 0; 1].
Proof.
  apply (main_unused_parameters (PF := dec_float) params_txt params_other_txt
           lengths_csv [dir_4; dir_2L; dir_3R] 4 [2; 0; 1]
           params_values params_other_values).
  - exact load_parameters_sample.
  - exact load_parameters_other_sample.
  - reflexivity.
  - reflexivity.
  - reflexivity.
  - reflexivity.
Defined.



End MoreWitnesses.
